(** * smart_reschedule: the Todoist rescheduling job of [main.py]

    A shallow embedding of [TodoistMetadataManager] and a verification of
    the properties its specification states.

    - Python integers are [Z]; strings are [string], read as UTF-8 bytes.
    - A Python float is a binary64 number, kept by its exact value in [Q];
      division rounds as [SFdiv] of the Standard Library specifies.
    - A [dict] with string keys is a [gmap string pyval].
    - The Todoist service is a [World]: the comment table, the task table,
      the console, and a counter of interactions with the environment.
    - A method is a function [World -> Outcome A]: it returns a value or
      raises, and in both cases hands back the world it left behind. *)

From Stdlib Require Import ZArith QArith String Ascii Lia.
From Stdlib Require Import Floats.SpecFloat.
From stdpp Require Import base option list gmap strings pretty countable sorting.

Local Open Scope Z_scope.
Local Open Scope string_scope.

(** ** Python string methods used by the source *)

(** [s.startswith(p)] *)
Definition startswith (p s : string) : bool := String.prefix p s.

(** [s.replace(old, new)] for a non-empty [old]: occurrences are taken
    left to right and do not overlap.  [skip] counts the characters of a
    matched occurrence that are still to be dropped. *)
Fixpoint replace_from (old new : string) (skip : nat) (s : string) : string :=
  match s with
  | EmptyString => EmptyString
  | String c s' =>
      match skip with
      | S k => replace_from old new k s'
      | O =>
          if startswith old s
          then new ++ replace_from old new (Nat.pred (String.length old)) s'
          else String c (replace_from old new 0 s')
      end
  end.

Definition replace (old new s : string) : string := replace_from old new 0 s.

(** [s.split(sep)[0]]: the text before the first occurrence of [sep]. *)
Fixpoint split_head (sep s : string) : string :=
  match s with
  | EmptyString => EmptyString
  | String c s' =>
      if startswith sep s then EmptyString else String c (split_head sep s')
  end.

(** ** BackoffCalculator *)

(** [calculate_delay_hours]: [min(24 * (2 ** (failures - 1)), 168)].  For
    [failures < 1] Python's [**] leaves the integers; every caller passes
    a count that [mark_failure] has just incremented. *)
Definition calculate_delay_hours (failures : Z) : Z :=
  Z.min (24 * 2 ^ (failures - 1)) 168.

(** ** Python floats

    [a / b] on two integers is the double nearest to the quotient, ties
    to even; a quotient that rounds beyond the largest double raises
    [OverflowError].  A double is a binary64 number: precision 53,
    exponent bound 1024. *)

Definition float_of_Z (z : Z) : spec_float :=
  match z with
  | Z0 => S754_zero false
  | Zpos p => S754_finite false p 0
  | Zneg p => S754_finite true p 0
  end.

(** The exact value of a finite double. *)
Definition float_value (x : spec_float) : option Q :=
  match x with
  | S754_zero _ => Some 0%Q
  | S754_finite s m e =>
      let n := if s then Zneg m else Zpos m in
      Some (match e with
            | Zneg k => Qmake n (Pos.shiftl 1 (Npos k))
            | _ => inject_Z (n * 2 ^ e)
            end)
  | S754_infinity _ | S754_nan => None
  end.

(** The value of [a / b] for [b <> 0]; [None] when the division raises
    [OverflowError]. *)
Definition true_divide (a b : Z) : option Q :=
  float_value (SFdiv 53 1024 (float_of_Z a) (float_of_Z b)).

(** ** Python values *)

(** What [yaml.safe_load] can put into a record: [None], booleans,
    integers, strings, and any other node (a sequence, a nested mapping,
    a date), kept by its text.  Floating-point scalars are not modelled. *)
Inductive pyval : Type :=
| VNone
| VBool (b : bool)
| VInt (z : Z)
| VStr (s : string)
| VOther (repr : string).

(** The result of [yaml.safe_load] on a whole document: a mapping with
    string keys, or anything else. *)
Inductive pyobj : Type :=
| ODict (d : gmap string pyval)
| OVal (v : pyval).

(** ** The Todoist service *)

Record Comment : Type := { comment_id : nat; comment_content : string }.

(** A datetime is a number of seconds; a date is a number of days. *)
Record Task : Type := {
  task_id : string;
  task_content : string;
  task_priority : Z;
  task_due : option Z;
  task_completed_at : option Z
}.

(** The requests the program sends. *)
Inductive call : Type :=
| GetComments (tid : string)
| GetTask (tid : string)
| UpdateComment (cid : nat)
| AddComment (tid : string)
| UpdateTask (tid : string).

Inductive exn : Type :=
| ApiError (c : call)
| AttributeError
| TypeError
| ZeroDivisionError
| OverflowError.

(** What the program prints. *)
Inductive Line : Type :=
| ErrorUpdatingMetadata (e : exn)
| Rescheduled (content : string) (day : Z) (failures : Z)
| TrackedCompletion (content : string) (successes : Z).

(** A row of the service's task table; the key of the row is the task id. *)
Record TaskRow : Type := {
  row_content : string;
  row_priority : Z;
  row_due : option Z;
  row_completed_at : option Z
}.

Definition task_of_row (tid : string) (r : TaskRow) : Task :=
  {| task_id := tid; task_content := row_content r;
     task_priority := row_priority r; task_due := row_due r;
     task_completed_at := row_completed_at r |}.

(** The comment table lists every comment in posting order as
    (task id, content); a comment's id is its position in the table. *)
Record World : Type := {
  w_comments : list (string * string);
  w_tasks : gmap string TaskRow;
  w_console : list Line;
  w_tick : nat
}.

(** Everything the program does not own: which request fails at which
    interaction, what the clock reads, how the service pages its answers,
    and the two libraries [datetime] and [yaml]. *)
Record Env : Type := {
  env_fault : nat -> call -> bool;
  env_time : nat -> Z;
  env_page : nat;
  isoformat : Z -> string;
  yaml_safe_load : string -> option pyobj;
  yaml_dump : gmap string pyval -> string
}.

(** ** Methods: state and exceptions *)

Inductive Outcome (A : Type) : Type :=
| Return (w : World) (a : A)
| Raise (w : World) (e : exn).
Arguments Return {A} w a.
Arguments Raise {A} w e.

Definition M (A : Type) : Type := World -> Outcome A.

Definition ret {A} (a : A) : M A := fun w => Return w a.

Definition raise {A} (e : exn) : M A := fun w => Raise w e.

Definition bind {A B} (m : M A) (k : A -> M B) : M B :=
  fun w => match m w with
           | Return w' a => k a w'
           | Raise w' e => Raise w' e
           end.

(** [try: body / except: handler] *)
Definition try_except {A} (body : M A) (handler : exn -> M A) : M A :=
  fun w => match body w with
           | Return w' a => Return w' a
           | Raise w' e => handler e w'
           end.

Notation "'let!' x ':=' m 'in' k" := (bind m (fun x => k))
  (at level 10, x name, m at level 100, k at level 200).
Notation "'run!' m 'in' k" := (bind m (fun _ => k))
  (at level 10, m at level 100, k at level 200).

(** The world an outcome leaves behind. *)
Definition world_of {A} (o : Outcome A) : World :=
  match o with Return w _ => w | Raise w _ => w end.

Fixpoint for_each {A} (l : list A) (body : A -> M unit) : M unit :=
  match l with
  | [] => ret tt
  | x :: l' => run! body x in for_each l' body
  end.

(** [for i, x in enumerate(l)], counting from [i]. *)
Fixpoint for_each_from {A} (i : nat) (l : list A) (body : nat -> A -> M unit) : M unit :=
  match l with
  | [] => ret tt
  | x :: l' => run! body i x in for_each_from (S i) l' body
  end.

Definition tick (w : World) : World :=
  {| w_comments := w_comments w; w_tasks := w_tasks w;
     w_console := w_console w; w_tick := S (w_tick w) |}.

Definition print (l : Line) : M unit :=
  fun w => Return {| w_comments := w_comments w; w_tasks := w_tasks w;
                     w_console := w_console w ++ [l]; w_tick := w_tick w |} tt.

(** The comments of one task, with their ids, in posting order. *)
Fixpoint comments_from (i : nat) (tid : string) (cs : list (string * string)) : list Comment :=
  match cs with
  | [] => []
  | (t, s) :: cs' =>
      if decide (t = tid)
      then {| comment_id := i; comment_content := s |} :: comments_from (S i) tid cs'
      else comments_from (S i) tid cs'
  end.

(** The service answers in pages of [S n] items. *)
Fixpoint paginate_fuel {A} (fuel n : nat) (l : list A) : list (list A) :=
  match fuel, l with
  | S f, _ :: _ => take (S n) l :: paginate_fuel f n (drop (S n) l)
  | _, _ => []
  end.

Definition paginate {A} (n : nat) (l : list A) : list (list A) :=
  paginate_fuel (length l) n l.

Definition set_comments (cs : list (string * string)) (w : World) : World :=
  {| w_comments := cs; w_tasks := w_tasks w;
     w_console := w_console w; w_tick := w_tick w |}.

Definition set_tasks (ts : gmap string TaskRow) (w : World) : World :=
  {| w_comments := w_comments w; w_tasks := ts;
     w_console := w_console w; w_tick := w_tick w |}.

(** The retry marker: the ten bytes the source file has between the
    quotes. *)
Definition retry_marker : string :=
  string_of_list_ascii
    (List.map ascii_of_nat [195; 176; 197; 184; 226; 128; 157; 226; 128; 158]%nat).

Definition metadata_header : string := "# METADATA".

Definition metadata_header_line : string :=
  metadata_header ++ String (ascii_of_nat 10) EmptyString.

Definition seconds_per_day : Z := 86400.

(** [d.date()] *)
Definition date_of (d : Z) : Z := d `div` seconds_per_day.

(** [datetime.combine(day, datetime.min.time())] *)
Definition combine_midnight (day : Z) : Z := day * seconds_per_day.

Record TaskData : Type := {
  td_task : Task;
  td_failures : Z;
  td_success_ratio : Q;
  td_delay_hours : Z
}.

Section Manager.

Context (E : Env).

(** *** Requests *)

(** [datetime.now()] *)
Definition now : M Z :=
  fun w => Return (tick w) (env_time E (w_tick w)).

(** One request: the environment may fail it, the service may refuse it. *)
Definition request {A} (c : call) (serve : World -> option (World * A)) : M A :=
  fun w =>
    if env_fault E (w_tick w) c then Raise (tick w) (ApiError c)
    else match serve (tick w) with
         | Some (w', a) => Return w' a
         | None => Raise (tick w) (ApiError c)
         end.

Definition api_get_comments (tid : string) : M (list (list Comment)) :=
  request (GetComments tid)
    (fun w => Some (w, paginate (env_page E) (comments_from 0 tid (w_comments w)))).

Definition api_get_task (tid : string) : M Task :=
  request (GetTask tid)
    (fun w => r ← w_tasks w !! tid; Some (w, task_of_row tid r)).

Definition api_update_comment (cid : nat) (content : string) : M unit :=
  request (UpdateComment cid)
    (fun w => '(t, _) ← w_comments w !! cid;
              Some (set_comments (<[cid := (t, content)]> (w_comments w)) w, tt)).

Definition api_add_comment (tid : string) (content : string) : M unit :=
  request (AddComment tid)
    (fun w => Some (set_comments (w_comments w ++ [(tid, content)]) w, tt)).

Definition api_update_task (tid : string) (due : Z) (content : string) : M unit :=
  request (UpdateTask tid)
    (fun w => r ← w_tasks w !! tid;
              Some (set_tasks (<[tid := {| row_content := content;
                                           row_priority := row_priority r;
                                           row_due := Some due;
                                           row_completed_at := row_completed_at r |}]>
                                 (w_tasks w)) w, tt)).

(** *** MetadataStore *)

Definition is_metadata (c : Comment) : bool :=
  startswith metadata_header (comment_content c).

(** [find_metadata_comment]: any exception of the lookup is swallowed. *)
Definition find_metadata_comment (tid : string) : M (option Comment) :=
  try_except
    (let! comments_iter := api_get_comments tid in
     ret (List.find is_metadata (concat comments_iter)))
    (fun _ => ret None).

Definition default_metadata (created : Z) : gmap string pyval :=
  {[ "failures" := VInt 0; "successes" := VInt 0;
     "created" := VStr (isoformat E created) ]}.

(** The body of the inner [try] of [get_metadata]; [None] is the exception
    that the bare [except] swallows. *)
Definition parse_metadata (c : Comment) : option pyobj :=
  yaml_safe_load E (replace metadata_header_line "" (comment_content c)).

Definition fresh_metadata : M pyobj :=
  let! t := now in ret (ODict (default_metadata t)).

Definition get_metadata (task : Task) : M pyobj :=
  let! comment := find_metadata_comment (task_id task) in
  match comment with
  | Some c =>
      match parse_metadata c with
      | Some o => ret o
      | None => fresh_metadata
      end
  | None => fresh_metadata
  end.

(** [metadata.update(updates)]: only a dict has the method. *)
Definition py_update (o : pyobj) (updates : gmap string pyval) : M (gmap string pyval) :=
  match o with
  | ODict d => ret (updates ∪ d)
  | OVal _ => raise AttributeError
  end.

(** [metadata.get(key, default)] *)
Definition py_get (o : pyobj) (key : string) (default : pyval) : M pyval :=
  match o with
  | ODict d => ret (match d !! key with Some v => v | None => default end)
  | OVal _ => raise AttributeError
  end.

(** [v + 1] *)
Definition py_add1 (v : pyval) : M Z :=
  match v with
  | VInt z => ret (z + 1)
  | VBool b => ret (Z.b2z b + 1)
  | _ => raise TypeError
  end.

(** [v != s] for a string [s] *)
Definition py_ne_str (v : pyval) (s : string) : bool :=
  match v with
  | VStr s' => negb (String.eqb s' s)
  | _ => true
  end.

Definition metadata_text (d : gmap string pyval) : string :=
  metadata_header_line ++ yaml_dump E d.

(** The [try] statement of [update_metadata]. *)
Definition persist_metadata (tid : string) (metadata : gmap string pyval) : M unit :=
  try_except
    (let! existing_comment := find_metadata_comment tid in
     let yaml_content := metadata_text metadata in
     match existing_comment with
     | Some c => api_update_comment (comment_id c) yaml_content
     | None => api_add_comment tid yaml_content
     end)
    (fun e => print (ErrorUpdatingMetadata e)).

Definition update_metadata (tid : string) (updates : gmap string pyval)
  : M (gmap string pyval) :=
  let! task := api_get_task tid in
  let! metadata := get_metadata task in
  let! metadata := py_update metadata updates in
  run! persist_metadata tid metadata in
  ret metadata.

(** *** FailureTracker *)

Definition mark_failure (task : Task) : M Z :=
  let! metadata := get_metadata task in
  let! v := py_get metadata "failures" (VInt 0) in
  let! failures := py_add1 v in
  let! t := now in
  run! update_metadata (task_id task)
         {[ "failures" := VInt failures;
            "last_failed" := VStr (isoformat E t) ]} in
  ret failures.

(** *** SuccessRatioRanker *)

(** [x / y] on two integers: a float. *)
Definition py_truediv (x y : Z) : M Q :=
  if decide (y = 0) then raise ZeroDivisionError
  else match true_divide x y with
       | Some q => ret q
       | None => raise OverflowError
       end.

Definition get_success_ratio (task : Task) : M Q :=
  let! metadata := get_metadata task in
  let! s := py_get metadata "successes" (VInt 0) in
  let! f := py_get metadata "failures" (VInt 0) in
  let! s1 := py_add1 s in
  let! f1 := py_add1 f in
  py_truediv s1 f1.

(** *** RescheduleOrchestrator *)

Definition failed_suffix (failures : Z) : string :=
  " (Failed " ++ pretty failures ++ "x)".

(** [task.content.replace(marker, '').split(' (Failed')[0]] *)
Definition bare_content (content : string) : string :=
  split_head " (Failed" (replace retry_marker "" content).

(** The [content] argument of [update_task]. *)
Definition rescheduled_content (content : string) (failures : Z) : string :=
  let prefix := if decide (3 <= failures) then retry_marker else "" in
  let suffix := if decide (1 < failures) then failed_suffix failures else "" in
  prefix ++ bare_content content ++ suffix.

Definition reschedule_task (task : Task) (new_due_date : Z) (failures : Z) : M unit :=
  run! api_update_task (task_id task) (date_of new_due_date)
         (rescheduled_content (task_content task) failures) in
  print (Rescheduled (task_content task) (date_of new_due_date) failures).

(** [task_data.sort(key=success_ratio, reverse=True)]: descending, and
    equal keys keep their order. *)
Fixpoint insert_by_ratio (x : TaskData) (l : list TaskData) : list TaskData :=
  match l with
  | [] => [x]
  | y :: l' =>
      if Qle_bool (td_success_ratio y) (td_success_ratio x)
      then x :: y :: l'
      else y :: insert_by_ratio x l'
  end.

Definition sort_by_success_ratio (l : list TaskData) : list TaskData :=
  foldr insert_by_ratio [] l.

(** The first loop over [regular_tasks]. *)
Fixpoint collect_task_data (regular_tasks : list Task) : M (list TaskData) :=
  match regular_tasks with
  | [] => ret []
  | task :: rest =>
      let! failures := mark_failure task in
      let! success_ratio := get_success_ratio task in
      let delay_hours := calculate_delay_hours failures in
      let! task_data := collect_task_data rest in
      ret ({| td_task := task; td_failures := failures;
              td_success_ratio := success_ratio;
              td_delay_hours := delay_hours |} :: task_data)
  end.

Definition min_delay_days (data : TaskData) : Z := td_delay_hours data `div` 24.

Definition actual_delay_days (i : nat) (data : TaskData) : Z :=
  Z.max (min_delay_days data) (Z.of_nat i).

(** The loop over [enumerate(task_data)]. *)
Definition spread_step (current_date : Z) (i : nat) (data : TaskData) : M unit :=
  let reschedule_date := current_date + actual_delay_days i data in
  reschedule_task (td_task data) (combine_midnight reschedule_date) (td_failures data).

Definition reschedule_urgent (task : Task) : M unit :=
  let! failures := mark_failure task in
  let! t := now in
  let today := date_of t in
  reschedule_task task (combine_midnight today) failures.

Definition reschedule_regular (regular_tasks : list Task) : M unit :=
  let! task_data := collect_task_data regular_tasks in
  let task_data := sort_by_success_ratio task_data in
  let! t := now in
  let current_date := date_of t in
  for_each_from 0 task_data (spread_step current_date).

Definition batch_reschedule_overdue (tasks : list Task) : M unit :=
  match tasks with
  | [] => ret tt
  | _ =>
      let high_priority_tasks := filter (fun t => 3 <= task_priority t) tasks in
      let regular_tasks := filter (fun t => task_priority t < 3) tasks in
      run! for_each high_priority_tasks reschedule_urgent in
      match regular_tasks with
      | [] => ret tt
      | _ => reschedule_regular regular_tasks
      end
  end.

(** *** CompletionTracker *)

Definition track_completion (task : Task) : M unit :=
  match task_completed_at task with
  | None => ret tt
  | Some completed_at =>
      let! metadata := get_metadata task in
      let! last_completion := py_get metadata "last_completion" VNone in
      let current_completion := isoformat E completed_at in
      if py_ne_str last_completion current_completion then
        let! v := py_get metadata "successes" (VInt 0) in
        let! successes := py_add1 v in
        run! update_metadata (task_id task)
               {[ "successes" := VInt successes;
                  "last_completion" := VStr current_completion ]} in
        print (TrackedCompletion (task_content task) successes)
      else ret tt
  end.

End Manager.

(** ** A reference environment

    The two libraries are parameters of the model.  To run the model, and
    to show that what the theorems assume of the libraries can be met, this
    environment prints a record as the binary digits of its code. *)

#[global] Instance pyval_eq_dec : EqDecision pyval.
Proof. solve_decision. Defined.

Definition pyval_to_sum (v : pyval) : unit + (bool + (Z + (string + string))) :=
  match v with
  | VNone => inl tt
  | VBool b => inr (inl b)
  | VInt z => inr (inr (inl z))
  | VStr s => inr (inr (inr (inl s)))
  | VOther s => inr (inr (inr (inr s)))
  end.

Definition pyval_of_sum (x : unit + (bool + (Z + (string + string)))) : pyval :=
  match x with
  | inl _ => VNone
  | inr (inl b) => VBool b
  | inr (inr (inl z)) => VInt z
  | inr (inr (inr (inl s))) => VStr s
  | inr (inr (inr (inr s))) => VOther s
  end.

#[global] Instance pyval_countable : Countable pyval.
Proof. apply (inj_countable' pyval_to_sum pyval_of_sum). by intros []. Defined.

#[global] Instance pyobj_eq_dec : EqDecision pyobj.
Proof. solve_decision. Defined.

Definition pyobj_to_sum (o : pyobj) : gmap string pyval + pyval :=
  match o with ODict d => inl d | OVal v => inr v end.

Definition pyobj_of_sum (x : gmap string pyval + pyval) : pyobj :=
  match x with inl d => ODict d | inr v => OVal v end.

#[global] Instance pyobj_countable : Countable pyobj.
Proof. apply (inj_countable' pyobj_to_sum pyobj_of_sum). by intros []. Defined.

Fixpoint bits_of_pos (p : positive) : string :=
  match p with
  | xH => EmptyString
  | xO q => String "0" (bits_of_pos q)
  | xI q => String "1" (bits_of_pos q)
  end.

Fixpoint pos_of_bits (s : string) : option positive :=
  match s with
  | EmptyString => Some xH
  | String c s' =>
      if Ascii.eqb c "0" then xO <$> pos_of_bits s'
      else if Ascii.eqb c "1" then xI <$> pos_of_bits s'
      else None
  end.

Definition bits_dump (d : gmap string pyval) : string :=
  bits_of_pos (encode (ODict d)).

Definition bits_load (s : string) : option pyobj :=
  p ← pos_of_bits s; decode p.

(** Timestamps print as their number of seconds; the clock starts at
    midnight of day 20000, advances one second per interaction and wraps
    at the end of the day. *)
Definition ref_env (fault : nat -> call -> bool) : Env :=
  {| env_fault := fault;
     env_time := fun n => 20000 * seconds_per_day + Z.of_nat n `mod` seconds_per_day;
     env_page := 1;
     isoformat := fun t => "T" ++ pretty t;
     yaml_safe_load := bits_load;
     yaml_dump := bits_dump |}.

Definition no_fault : nat -> call -> bool := fun _ _ => false.

(** Every [update_task] of the task [tid] fails. *)
Definition update_task_fails (tid : string) : nat -> call -> bool :=
  fun _ c => match c with
             | UpdateTask t => bool_decide (t = tid)
             | _ => false
             end.

(** Only the very first interaction fails, if it lists comments. *)
Definition first_lookup_fails : nat -> call -> bool :=
  fun n c => match n, c with
             | O, GetComments _ => true
             | _, _ => false
             end.

(** ** Observations and assumptions used by the statements *)

(** The first metadata comment of a task, as the table has it. *)
Definition stored_comment (cs : list (string * string)) (tid : string) : option Comment :=
  List.find is_metadata (comments_from 0 tid cs).

(** What that comment decodes to; [None] when there is no such comment or
    when decoding raises. *)
Definition stored_record (E : Env) (cs : list (string * string)) (tid : string)
  : option pyobj :=
  c ← stored_comment cs tid; parse_metadata E c.

(** What [get_metadata] sees: the stored record unless the lookup fails. *)
Definition visible_record (E : Env) (tid : string) (w : World) : option pyobj :=
  if env_fault E (w_tick w) (GetComments tid) then None
  else stored_record E (w_comments w) tid.

(** The table after the record of [tid] is written as [text]: over its
    metadata comment when it has one, as a new comment otherwise. *)
Definition write_record (cs : list (string * string)) (tid text : string)
  : list (string * string) :=
  match stored_comment cs tid with
  | Some c => <[comment_id c := (tid, text)]> cs
  | None => cs ++ [(tid, text)]
  end.

(** The request that persists the record of [tid]. *)
Definition write_call (cs : list (string * string)) (tid : string) : call :=
  match stored_comment cs tid with
  | Some c => UpdateComment (comment_id c)
  | None => AddComment tid
  end.

(** The world after [print l]. *)
Definition logged (l : Line) (w : World) : World :=
  {| w_comments := w_comments w; w_tasks := w_tasks w;
     w_console := w_console w ++ [l]; w_tick := w_tick w |}.

(** The integer that [metadata.get(key, 0) + 1] adds one to; [None] when
    the addition raises. *)
Definition numeric (v : option pyval) : option Z :=
  match v with
  | None => Some 0
  | Some (VInt z) => Some z
  | Some (VBool b) => Some (Z.b2z b)
  | Some _ => None
  end.

(** The record [get_metadata] works with when the lookup succeeds at
    clock reading [t]. *)
Definition record_or_default (E : Env) (cs : list (string * string)) (tid : string)
    (t : Z) : pyobj :=
  match stored_record E cs tid with
  | Some o => o
  | None => ODict (default_metadata E t)
  end.

(** A stored counter, read the way the program reads it; a task without a
    readable record counts from zero. *)
Definition counter (E : Env) (cs : list (string * string)) (tid key : string) : Z :=
  match stored_record E cs tid with
  | Some (ODict d) => match numeric (d !! key) with Some z => z | None => 0 end
  | _ => 0
  end.

(** Only the clock has moved between [w] and [w']. *)
Definition quiet (w w' : World) : Prop :=
  w_comments w' = w_comments w /\ w_tasks w' = w_tasks w
  /\ w_console w' = w_console w.

(** The completion stamped [c] is the last one recorded for [tid]. *)
Definition recorded (E : Env) (cs : list (string * string)) (tid : string) (c : Z)
  : Prop :=
  exists d, stored_record E cs tid = Some (ODict d)
            /\ d !! "last_completion" = Some (VStr (isoformat E c)).


(** The two operations that change a metadata record. *)
Inductive operation : Type :=
| MarkFailure (task : Task)
| TrackCompletion (task : Task).

Definition perform (E : Env) (op : operation) (w : World) : World :=
  match op with
  | MarkFailure task => world_of (mark_failure E task w)
  | TrackCompletion task => world_of (track_completion E task w)
  end.

Definition perform_all (E : Env) (ops : list operation) (w : World) : World :=
  foldl (fun w' op => perform E op w') w ops.

(** The record of [tid], if it has one, is a mapping whose [key] can be
    incremented. *)
Definition countable_record (E : Env) (cs : list (string * string)) (tid key : string)
  : Prop :=
  match stored_record E cs tid with
  | Some (ODict d) => is_Some (numeric (d !! key))
  | Some (OVal _) => False
  | None => True
  end.

Definition is_comment_write (c : call) : bool :=
  match c with
  | UpdateComment _ | AddComment _ => true
  | _ => false
  end.

(** Every comment write fails, and no other request does. *)
Definition only_comment_writes_fail (E : Env) : Prop :=
  forall n c, env_fault E n c = is_comment_write c.

(** The world [update_metadata] leaves after its write request, sent
    from [w1]. *)
Definition after_write (E : Env) (tid : string) (m : gmap string pyval) (w1 : World)
  : World :=
  if env_fault E (S (w_tick w1)) (write_call (w_comments w1) tid)
  then logged (ErrorUpdatingMetadata (ApiError (write_call (w_comments w1) tid)))
         (tick (tick w1))
  else set_comments (write_record (w_comments w1) tid (metadata_text E m))
         (tick (tick w1)).

(** The only exceptions a method lets escape satisfy [P]. *)
Definition raises_only {A} (P : exn -> Prop) (m : M A) : Prop :=
  forall w w' e, m w = Raise w' e -> P e.

(** Not the failure of a comment write. *)
Definition not_comment_write (e : exn) : Prop :=
  match e with
  | ApiError c => is_comment_write c = false
  | _ => True
  end.

(** A row after [update_task]. *)
Definition rescheduled_row (r : TaskRow) (due : Z) (content : string) : TaskRow :=
  {| row_content := content; row_priority := row_priority r;
     row_due := Some due; row_completed_at := row_completed_at r |}.

(** Neither the record nor the row of [tid] differs between [w] and [w']. *)
Definition untouched (E : Env) (tid : string) (w w' : World) : Prop :=
  stored_record E (w_comments w') tid = stored_record E (w_comments w) tid
  /\ w_tasks w' !! tid = w_tasks w !! tid.

(** Whatever its outcome, a method leaves [tid] untouched. *)
Definition leaves {A} (E : Env) (tid : string) (m : M A) : Prop :=
  forall w, untouched E tid w (world_of (m w)).

(** The clock stays within one day. *)
Definition same_day (E : Env) (today : Z) : Prop :=
  forall n, date_of (env_time E n) = today.


(** No request fails. *)
Definition reliable (E : Env) : Prop := forall n c, env_fault E n c = false.

(** Listing comments never fails. *)
Definition lookup_reliable (E : Env) : Prop :=
  forall n tid, env_fault E n (GetComments tid) = false.

(** Reading back the text written for a record yields the record. *)
Definition round_trips (E : Env) : Prop :=
  forall d, yaml_safe_load E (replace metadata_header_line "" (metadata_text E d))
            = Some (ODict d).

(** ** Example worlds *)

Definition example_row (content : string) (priority : Z) : TaskRow :=
  {| row_content := content; row_priority := priority;
     row_due := Some 19990; row_completed_at := None |}.

Definition example_task (tid content : string) (priority : Z) : Task :=
  task_of_row tid (example_row content priority).

Definition example_record (failures successes : Z) : gmap string pyval :=
  {[ "failures" := VInt failures; "successes" := VInt successes ]}.

Definition example_world (rows : list (string * TaskRow))
    (records : list (string * gmap string pyval)) : World :=
  {| w_comments :=
       (fun '(tid, d) => (tid, metadata_text (ref_env no_fault) d)) <$> records;
     w_tasks := list_to_map rows;
     w_console := [];
     w_tick := 0 |}.

(** Three regular tasks that have succeeded 5, 1 and 0 times and never
    failed. *)
Definition three_tasks_world : World :=
  example_world
    [("A", example_row "Water plants" 1); ("B", example_row "Call bank" 2);
     ("C", example_row "File taxes" 1)]
    [("A", example_record 0 5); ("B", example_record 0 1);
     ("C", example_record 0 0)].

Definition three_tasks : list Task :=
  [example_task "C" "File taxes" 1; example_task "A" "Water plants" 1;
   example_task "B" "Call bank" 2].

(** The success ratios in rank order, in lowest terms. *)
Definition ranked_ratios (E : Env) (tasks : list Task) (w : World) : list Q :=
  match collect_task_data E tasks w with
  | Return _ task_data => Qred <$> (td_success_ratio <$> sort_by_success_ratio task_data)
  | Raise _ _ => []
  end.

(** Two regular tasks without any metadata. *)
Definition two_tasks_world : World :=
  example_world
    [("A", example_row "Water plants" 1); ("B", example_row "Call bank" 1)] [].

Definition two_tasks : list Task :=
  [example_task "A" "Water plants" 1; example_task "B" "Call bank" 1].

(** An urgent task that has failed twice, and a regular one. *)
Definition urgent_world : World :=
  example_world
    [("A", example_row "Renew passport" 4); ("B", example_row "Call bank" 1)]
    [("A", example_record 2 0)].

Definition urgent_task : Task := example_task "A" "Renew passport" 4.

Definition urgent_batch : list Task :=
  [example_task "B" "Call bank" 1; urgent_task].

(** A task completed at second 1727999999 that has failed five times and
    succeeded three times. *)
Definition completed_task : Task :=
  {| task_id := "A"; task_content := "Water plants"; task_priority := 1;
     task_due := Some 19990; task_completed_at := Some 1727999999 |}.

Definition completed_world : World :=
  example_world
    [("A", {| row_content := "Water plants"; row_priority := 1;
              row_due := Some 19990; row_completed_at := Some 1727999999 |})]
    [("A", example_record 5 3)].

(** A spreading input: two tasks after their first failure. *)
Definition two_task_data : list TaskData :=
  [{| td_task := example_task "A" "Water plants" 1; td_failures := 1;
      td_success_ratio := 1 # 2; td_delay_hours := 24 |};
   {| td_task := example_task "B" "Call bank" 1; td_failures := 1;
      td_success_ratio := 1 # 2; td_delay_hours := 24 |}].

Definition regular_task : Task := example_task "A" "Water plants" 1.

(** Every comment write fails. *)
Definition comment_writes_fail : nat -> call -> bool :=
  fun _ c => is_comment_write c.

(** Three regular tasks whose success ratios differ but round to the same
    float, [2 ** 53]. *)
Definition tied_world : World :=
  example_world
    [("A", example_row "Water plants" 1); ("B", example_row "Call bank" 1);
     ("C", example_row "File taxes" 1)]
    [("A", example_record 0 (2 ^ 54 - 1)); ("B", example_record 0 (2 ^ 54 + 1));
     ("C", example_record 0 (2 ^ 54))].

Definition tied_tasks : list Task :=
  [example_task "A" "Water plants" 1; example_task "B" "Call bank" 1;
   example_task "C" "File taxes" 1].




(** ** Further observations *)

(** The order [sort(reverse=True)] leaves: a later element never has a
    larger ratio than an earlier one. *)
Definition ratio_ge (a b : TaskData) : Prop :=
  (td_success_ratio b <= td_success_ratio a)%Q.

(** The elements whose ratio equals [q], in the order of the list. *)
Definition with_ratio (q : Q) (l : list TaskData) : list TaskData :=
  List.filter (fun data => Qeq_bool (td_success_ratio data) q) l.

(** [m in s] for a non-empty [m]: some suffix of [s] starts with [m]. *)
Fixpoint occurs (m s : string) : bool :=
  startswith m s
  || match s with
     | EmptyString => false
     | String _ s' => occurs m s'
     end.

(** [ch in s] for a single character. *)
Fixpoint has_char (ch : ascii) (s : string) : bool :=
  match s with
  | EmptyString => false
  | String c s' => Ascii.eqb ch c || has_char ch s'
  end.

(** Whatever its outcome, a method takes every world to one related to it
    by [R]. *)
Definition keeps {A} (R : World -> World -> Prop) (m : M A) : Prop :=
  forall w, R w (world_of (m w)).

(** No row appears or disappears, and no row changes its priority or its
    completion timestamp. *)
Definition rows_kept (w w' : World) : Prop :=
  forall tid,
    row_priority <$> (w_tasks w' !! tid) = row_priority <$> (w_tasks w !! tid)
    /\ row_completed_at <$> (w_tasks w' !! tid)
       = row_completed_at <$> (w_tasks w !! tid).

(** Every comment keeps its id and its task; a comment that does not
    start with the metadata header keeps its content, and a comment that
    does still starts with it. *)
Definition comments_kept (w w' : World) : Prop :=
  forall i t s,
    w_comments w !! i = Some (t, s) ->
    exists s',
      w_comments w' !! i = Some (t, s')
      /\ startswith metadata_header s' = startswith metadata_header s
      /\ (startswith metadata_header s = false -> s' = s).

(** The metadata comments of a task. *)
Definition metadata_comments (cs : list (string * string)) (tid : string)
  : list Comment :=
  List.filter is_metadata (comments_from 0 tid cs).

(** A task with at most one metadata comment still has at most one. *)
Definition single_record_kept (w w' : World) : Prop :=
  forall tid,
    (length (metadata_comments (w_comments w) tid) <= 1)%nat ->
    (length (metadata_comments (w_comments w') tid) <= 1)%nat.

(** [mark_failure] called [n] times in a row on the same task. *)
Definition mark_repeatedly (E : Env) (task : Task) (n : nat) (w : World) : World :=
  Nat.iter n (fun w' => world_of (mark_failure E task w')) w.

(** *** Listing the overdue tasks

    The answer of [api.filter_tasks] is read as a Python list whose
    elements are tasks or pages of tasks.  A task has an [id] and cannot
    be iterated; a page is a list: it can be iterated and has no [id]. *)
Inductive item : Type :=
| ATask (t : Task)
| APage (page : list Task).

(** [flattened.extend(x)] *)
Definition py_extend (flattened : list item) (x : item) : M (list item) :=
  match x with
  | APage page => ret (flattened ++ (ATask <$> page))%list
  | ATask _ => raise TypeError
  end.

(** [for item in task_list: flattened.extend(item)] *)
Fixpoint extend_all (flattened : list item) (task_list : list item) : M (list item) :=
  match task_list with
  | [] => ret flattened
  | x :: rest =>
      let! flattened := py_extend flattened x in
      extend_all flattened rest
  end.

(** [filter_tasks_flattened]; [api_filter_tasks query] stands for
    [list(self.api.filter_tasks(query=query))]. *)
Definition filter_tasks_flattened (api_filter_tasks : string -> M (list item))
    (query : string) : M (list item) :=
  let! task_list := api_filter_tasks query in
  match task_list with
  | APage _ :: _ => extend_all [] task_list
  | _ => ret task_list
  end.

(** A task a pass can process: it has a row, and its record, if it has
    one, is a mapping whose two counters can be incremented, neither
    being negative and both staying below [2 ** 1023] when incremented,
    so that the success ratio is within the range of a float. *)
Definition healthy (E : Env) (w : World) (task : Task) : Prop :=
  is_Some (w_tasks w !! task_id task)
  /\ countable_record E (w_comments w) (task_id task) "failures"
  /\ countable_record E (w_comments w) (task_id task) "successes"
  /\ 0 <= counter E (w_comments w) (task_id task) "failures"
  /\ 0 <= counter E (w_comments w) (task_id task) "successes"
  /\ counter E (w_comments w) (task_id task) "failures" + 1 < 2 ^ 1023
  /\ counter E (w_comments w) (task_id task) "successes" + 1 < 2 ^ 1023.

(** What a pass from [w] to [w'] has done for a task: its stored
    [failures] is one higher, its [successes] is as before, and its row
    has the due date [due] and the content written for the new count. *)
Definition rescheduled_to (E : Env) (w w' : World) (task : Task) (due : Z) : Prop :=
  let failures := counter E (w_comments w) (task_id task) "failures" + 1 in
  counter E (w_comments w') (task_id task) "failures" = failures
  /\ counter E (w_comments w') (task_id task) "successes"
     = counter E (w_comments w) (task_id task) "successes"
  /\ exists r,
       w_tasks w !! task_id task = Some r
       /\ w_tasks w' !! task_id task
          = Some (rescheduled_row r due
                    (rescheduled_content (task_content task) failures)).

(** * Theorems *)

Section Backoff.

Lemma pow2_ge_8 (k : Z) : 3 <= k -> 8 <= 2 ^ k.
Proof.
    intros Hk. change 8 with (2 ^ 3).
    apply Z.pow_le_mono_r; lia.
Qed.

Lemma delay_hours_capped (f : Z) : 4 <= f -> calculate_delay_hours f = 168.
Proof.
    intros Hf. unfold calculate_delay_hours.
    pose proof (pow2_ge_8 (f - 1) ltac:(lia)). lia.
Qed.

Lemma delay_hours_mono (f g : Z) :
    1 <= f -> f <= g -> calculate_delay_hours f <= calculate_delay_hours g.
Proof.
    intros Hf Hfg. unfold calculate_delay_hours.
    assert (2 ^ (f - 1) <= 2 ^ (g - 1)) by (apply Z.pow_le_mono_r; lia).
    lia.
Qed.

End Backoff.

(** C5: for every [failures >= 1] the delay is
    [min(24 * 2^(failures-1), 168)]; the delay is non-decreasing in the
    failure count, is 24 hours after the first failure, and is 168 hours
    from the fourth failure on. *)
Theorem delay_hours_spec (f g : Z) :
  1 <= f -> f <= g ->
  calculate_delay_hours f = Z.min (24 * 2 ^ (f - 1)) 168
  /\ calculate_delay_hours f <= calculate_delay_hours g
  /\ calculate_delay_hours 1 = 24
  /\ (4 <= f -> calculate_delay_hours f = 168).
Proof.
  intros Hf Hfg. split; [reflexivity|].
  split; [by apply delay_hours_mono|].
  split; [reflexivity|].
  apply delay_hours_capped.
Qed.

Lemma delay_hours_spec_witness :
  1 <= 4 /\ 4 <= 6
  /\ calculate_delay_hours 4 = Z.min (24 * 2 ^ (4 - 1)) 168
  /\ calculate_delay_hours 4 <= calculate_delay_hours 6
  /\ calculate_delay_hours 4 = 168.
Proof.
  pose proof (delay_hours_spec 4 6 ltac:(lia) ltac:(lia)) as (H1 & H2 & _ & H4).
  split; [lia|]. split; [lia|].
  split; [exact H1|]. split; [exact H2|].
  apply H4. lia.
Defined.

(** ** Float division

    What the statements below need of [SFdiv]: on integers it yields no
    NaN, the quotient of a non-negative integer below [2 ^ 1023] by a
    positive one is a finite, non-negative double, and [a / a] is 1. *)

Lemma true_divide_examples :
  true_divide 4 6 = Some (6004799503160661 # 9007199254740992)
  /\ true_divide (2 ^ 53 + 3) 1 = Some (inject_Z 9007199254740996)
  /\ true_divide 1 (10 ^ 400) = Some 0%Q
  /\ true_divide (10 ^ 400 + 1) 2 = None.
Proof. vm_compute. by repeat split. Qed.

Lemma digits2_pos_bounds (p : positive) :
  2 ^ (Zpos (digits2_pos p) - 1) <= Zpos p < 2 ^ Zpos (digits2_pos p).
Proof.
  induction p as [p IH|p IH|]; cbn [digits2_pos].
  - rewrite Pos2Z.inj_succ, Z.pow_succ_r by lia.
    replace (Z.succ (Zpos (digits2_pos p)) - 1)
      with (Z.succ (Zpos (digits2_pos p) - 1)) by lia.
    rewrite Z.pow_succ_r by lia. lia.
  - rewrite Pos2Z.inj_succ, Z.pow_succ_r by lia.
    replace (Z.succ (Zpos (digits2_pos p)) - 1)
      with (Z.succ (Zpos (digits2_pos p) - 1)) by lia.
    rewrite Z.pow_succ_r by lia. lia.
  - cbn. lia.
Qed.

Lemma Zdigits2_nonneg (n : Z) : 0 <= Zdigits2 n.
Proof. by destruct n. Qed.

Lemma Zdigits2_lt (n : Z) : 0 <= n -> n < 2 ^ Zdigits2 n.
Proof.
  destruct n as [|p|p]; [done| |lia]. intros _. apply digits2_pos_bounds.
Qed.

Lemma Zdigits2_le (n k : Z) : 0 <= k -> 0 <= n < 2 ^ k -> Zdigits2 n <= k.
Proof.
  intros Hk [Hn Hlt]. destruct n as [|p|p]; [done| |lia]. cbn [Zdigits2].
  pose proof (digits2_pos_bounds p) as [Hlow _].
  assert (2 ^ (Zpos (digits2_pos p) - 1) < 2 ^ k) as Hpow by lia.
  apply Z.pow_lt_mono_r_iff in Hpow; lia.
Qed.

Lemma shr_1_bound (mrs : shr_record) (B : Z) :
  0 <= shr_m mrs < 2 * B -> 0 <= shr_m (shr_1 mrs) < B.
Proof.
  destruct mrs as [m r s]. cbn [shr_m shr_1].
  destruct m as [|[p|p|]|[p|p|]]; cbn [shr_m]; lia.
Qed.

Lemma iter_shr_1_bound (p : positive) (mrs : shr_record) (B : Z) :
  0 <= shr_m mrs < 2 ^ Zpos p * B -> 0 <= shr_m (SpecFloat.iter_pos shr_1 p mrs) < B.
Proof.
  revert mrs B. induction p as [p IH|p IH|]; intros mrs B Hm; cbn [SpecFloat.iter_pos].
  - apply IH, IH, shr_1_bound.
    replace (2 * (2 ^ Zpos p * (2 ^ Zpos p * B))) with (2 ^ Zpos p~1 * B); [done|].
    rewrite (Pos2Z.inj_xI p). replace (2 * Zpos p + 1) with (Zpos p + Zpos p + 1) by lia.
    rewrite !Z.pow_add_r, Z.pow_1_r by lia. ring.
  - apply IH, IH.
    replace (2 ^ Zpos p * (2 ^ Zpos p * B)) with (2 ^ Zpos p~0 * B); [done|].
    rewrite (Pos2Z.inj_xO p). replace (2 * Zpos p) with (Zpos p + Zpos p) by lia.
    rewrite Z.pow_add_r by lia. ring.
  - apply shr_1_bound. by rewrite Z.pow_1_r in Hm.
Qed.

Lemma round_nearest_even_bound (m : Z) (l : location) :
  0 <= m -> 0 <= round_nearest_even m l <= m + 1.
Proof.
  intros Hm. destruct l as [|[]]; cbn [round_nearest_even]; try lia.
  destruct (Z.even m); lia.
Qed.

Lemma shr_m_of_loc (m : Z) (l : location) : shr_m (shr_record_of_loc m l) = m.
Proof. by destruct l as [|[]]. Qed.

Lemma shr_fexp_bound (m e D : Z) (l : location) (mrs : shr_record) (e' : Z) :
  0 <= D -> 0 <= m < 2 ^ D ->
  shr_fexp 53 1024 m e l = (mrs, e') ->
  e' = Z.max e (fexp 53 1024 (Zdigits2 m + e))
  /\ 0 <= shr_m mrs < 2 ^ Z.max (D + e - e') 0.
Proof.
  intros HD Hm. unfold shr_fexp, shr.
  destruct (fexp 53 1024 (Zdigits2 m + e) - e) as [|p|p] eqn:Hn.
  - intros [= <- <-]. rewrite shr_m_of_loc.
    split; [lia|]. by replace (Z.max (D + e - e) 0) with D by lia.
  - intros [= <- <-]. split; [lia|].
    apply iter_shr_1_bound. rewrite shr_m_of_loc.
    split; [lia|]. rewrite <- Z.pow_add_r by lia.
    eapply Z.lt_le_trans; [apply Hm|]. apply Z.pow_le_mono_r; lia.
  - intros [= <- <-]. rewrite shr_m_of_loc.
    split; [lia|]. by replace (Z.max (D + e - e) 0) with D by lia.
Qed.

Lemma float_value_nonneg (m e : Z) :
  0 <= m -> e <= 971 ->
  exists q,
    float_value match m with
                | Z0 => S754_zero false
                | Zpos p => if Z.leb e (1024 - 53) then S754_finite false p e
                            else S754_infinity false
                | Zneg _ => S754_nan
                end = Some q
    /\ (0 <= q)%Q.
Proof.
  intros Hm He. destruct m as [|p|p]; [by exists 0%Q| |lia].
  replace (Z.leb e (1024 - 53)) with true by (symmetry; apply Z.leb_le; lia).
  cbn [float_value]. eexists. split; [reflexivity|].
  destruct e as [|k|k]; unfold Qle; cbn [Qnum Qden inject_Z]; lia.
Qed.

Lemma binary_round_aux_finite (m e : Z) (l : location) :
  0 <= m -> e <= 0 -> Zdigits2 m + e <= 1023 ->
  exists q,
    float_value (binary_round_aux 53 1024 false m e l) = Some q /\ (0 <= q)%Q.
Proof.
  intros Hm He Hd. unfold binary_round_aux.
  pose proof (Zdigits2_nonneg m) as HD. pose proof (Zdigits2_lt m Hm) as Hlt.
  destruct (shr_fexp 53 1024 m e l) as [mrs1 e1] eqn:H1.
  apply (shr_fexp_bound m e (Zdigits2 m)) in H1 as [He1 Hm1]; [|done|lia].
  set (K := Z.max (Zdigits2 m + e - e1) 0) in *.
  pose proof (round_nearest_even_bound (shr_m mrs1) (loc_of_shr_record mrs1)
                ltac:(lia)) as Hr.
  set (m1 := round_nearest_even (shr_m mrs1) (loc_of_shr_record mrs1)) in *.
  assert (0 <= m1 < 2 ^ (K + 1)) as Hm1'.
  { rewrite Z.pow_add_r, Z.pow_1_r by lia. lia. }
  destruct (shr_fexp 53 1024 m1 e1 loc_Exact) as [mrs2 e2] eqn:H2.
  apply (shr_fexp_bound m1 e1 (K + 1)) in H2 as [He2 Hm2]; [|lia|done].
  pose proof (Zdigits2_le m1 (K + 1) ltac:(lia) Hm1') as Hd1.
  apply float_value_nonneg; [lia|].
  unfold fexp, emin in *. lia.
Qed.

Lemma div_eucl_bounds (a b q r : Z) :
  0 <= a -> 0 < b -> Z.div_eucl a b = (q, r) -> 0 <= q <= a.
Proof.
  intros Ha Hb Hdiv. pose proof (Z_div_mod a b ltac:(lia)) as Hspec.
  rewrite Hdiv in Hspec. nia.
Qed.

Lemma SFdiv_core_binary_bounds (pa pb : positive) (mz ez : Z) (lz : location) :
  SFdiv_core_binary 53 1024 (Zpos pa) 0 (Zpos pb) 0 = (mz, ez, lz) ->
  0 <= mz /\ ez <= 0 /\ Zdigits2 mz + ez <= Zdigits2 (Zpos pa).
Proof.
  unfold SFdiv_core_binary. cbv zeta.
  set (ez' := Z.min (fexp 53 1024 (Zdigits2 (Zpos pa) + 0 - (Zdigits2 (Zpos pb) + 0)))
                (0 - 0)).
  assert (ez' <= 0) as Hez by (unfold ez'; lia).
  pose proof (Zdigits2_lt (Zpos pa) ltac:(lia)) as Hlt.
  pose proof (Zdigits2_nonneg (Zpos pa)) as HD.
  set (m' := match 0 - 0 - ez' with
             | Z0 => Zpos pa
             | Zpos _ => Z.shiftl (Zpos pa) (0 - 0 - ez')
             | Zneg _ => 0
             end).
  assert (0 <= m' < 2 ^ (Zdigits2 (Zpos pa) - ez')) as Hm'.
  { unfold m'. destruct (0 - 0 - ez') as [|s|s] eqn:Hs.
    - replace ez' with 0 by lia. by rewrite Z.sub_0_r.
    - rewrite Z.shiftl_mul_pow2 by lia.
      replace (Zdigits2 (Zpos pa) - ez') with (Zdigits2 (Zpos pa) + Zpos s) by lia.
      rewrite Z.pow_add_r by lia.
      pose proof (Z.pow_pos_nonneg 2 (Zpos s) ltac:(lia) ltac:(lia)). nia.
    - lia. }
  destruct (Z.div_eucl m' (Zpos pb)) as [q r] eqn:Hdiv.
  intros [= <- <- _].
  pose proof (div_eucl_bounds m' (Zpos pb) q r ltac:(lia) ltac:(lia) Hdiv) as Hq.
  split; [lia|]. split; [done|].
  pose proof (Zdigits2_le q (Zdigits2 (Zpos pa) - ez') ltac:(lia) ltac:(lia)). lia.
Qed.

Lemma true_divide_defined (a b : Z) :
  0 <= a < 2 ^ 1023 -> 0 < b ->
  exists q, true_divide a b = Some q /\ (0 <= q)%Q.
Proof.
  intros Ha Hb. destruct b as [|pb|pb]; try lia.
  destruct a as [|pa|pa]; [by exists 0%Q| |lia].
  unfold true_divide, float_of_Z, SFdiv.
  destruct (SFdiv_core_binary 53 1024 (Zpos pa) 0 (Zpos pb) 0) as [[mz ez] lz] eqn:Hcore.
  apply SFdiv_core_binary_bounds in Hcore as (Hmz & Hez & Hd).
  pose proof (Zdigits2_le (Zpos pa) 1023 ltac:(lia) ltac:(lia)).
  apply binary_round_aux_finite; [done..|]. cbn [xorb]. lia.
Qed.

Lemma true_divide_self (a : Z) :
  0 < a -> exists q, true_divide a a = Some q /\ (q == 1)%Q.
Proof.
  intros Ha. destruct a as [|p|p]; try lia.
  unfold true_divide, float_of_Z, SFdiv, SFdiv_core_binary. cbv zeta.
  replace (Zdigits2 (Zpos p) + 0 - (Zdigits2 (Zpos p) + 0)) with 0 by lia.
  change (Z.min (fexp 53 1024 0) (0 - 0)) with (-53).
  change (0 - 0 - -53) with 53. cbv beta iota.
  assert (Z.div_eucl (Z.shiftl (Zpos p) 53) (Zpos p) = (2 ^ 53, 0)) as ->.
  { rewrite Z.shiftl_mul_pow2 by lia.
    pose proof (Z_div_mod (Zpos p * 2 ^ 53) (Zpos p) ltac:(lia)) as Hspec.
    destruct (Z.div_eucl (Zpos p * 2 ^ 53) (Zpos p)) as [q r].
    assert (q = 2 ^ 53) as -> by nia. f_equal. lia. }
  assert (new_location (Zpos p) 0 = loc_Exact) as ->.
  { unfold new_location. by destruct (Z.even (Zpos p)). }
  eexists. split; [vm_compute; reflexivity|]. reflexivity.
Qed.

(** ** Paging and lookup *)

Lemma concat_paginate_fuel {A} (fuel n : nat) (l : list A) :
  (length l <= fuel)%nat -> concat (paginate_fuel fuel n l) = l.
Proof.
  revert l. induction fuel as [|fuel IH]; intros l Hl.
  - destruct l; [done | simpl in Hl; lia].
  - destruct l as [|x l]; [done|].
    cbn [paginate_fuel concat]. rewrite IH.
    + apply take_drop.
    + rewrite length_drop. simpl in *. lia.
Qed.

Lemma concat_paginate {A} (n : nat) (l : list A) : concat (paginate n l) = l.
Proof. by apply concat_paginate_fuel. Qed.

(** ** The comment table *)

Lemma find_metadata_from (k : nat) (tid : string) (cs : list (string * string)) (c : Comment) :
  List.find is_metadata (comments_from k tid cs) = Some c ->
  exists j : nat,
    comment_id c = (k + j)%nat
    /\ cs !! j = Some (tid, comment_content c)
    /\ forall text, startswith metadata_header text = true ->
         List.find is_metadata (comments_from k tid (<[j := (tid, text)]> cs))
         = Some {| comment_id := (k + j)%nat; comment_content := text |}.
Proof.
  revert k. induction cs as [|[t s] cs IH]; intros k Hfind; [done|].
  cbn [comments_from] in Hfind.
  destruct (decide (t = tid)) as [->|Hne].
  - cbn [List.find] in Hfind.
    destruct (is_metadata {| comment_id := k; comment_content := s |}) eqn:Hm.
    + injection Hfind as <-. exists 0%nat. cbn [comment_id comment_content].
      rewrite Nat.add_0_r. split; [done|]. split; [done|].
      intros text Htext. cbn [insert list_insert comments_from].
      rewrite decide_True by done. cbn [List.find].
      by replace (is_metadata {| comment_id := k; comment_content := text |})
        with true.
    + destruct (IH _ Hfind) as (j & Hid & Hj & Hins).
      exists (S j). rewrite Nat.add_succ_r. split; [done|]. split; [done|].
      intros text Htext. cbn [insert list_insert comments_from].
      rewrite decide_True by done. cbn [List.find].
      rewrite Hm. by apply Hins.
  - destruct (IH _ Hfind) as (j & Hid & Hj & Hins).
    exists (S j). rewrite Nat.add_succ_r. split; [done|]. split; [done|].
    intros text Htext. cbn [insert list_insert comments_from].
    rewrite decide_False by done. by apply Hins.
Qed.

Lemma find_metadata_app (k : nat) (tid text : string) (cs : list (string * string)) :
  List.find is_metadata (comments_from k tid cs) = None ->
  startswith metadata_header text = true ->
  List.find is_metadata (comments_from k tid (cs ++ [(tid, text)]))
  = Some {| comment_id := (k + length cs)%nat; comment_content := text |}.
Proof.
  intros Hfind Htext. revert k Hfind.
  induction cs as [|[t s] cs IH]; intros k Hfind.
  - cbn [app comments_from length]. rewrite decide_True by done.
    cbn [List.find]. rewrite Nat.add_0_r.
    by replace (is_metadata {| comment_id := k; comment_content := text |})
      with true.
  - cbn [comments_from app] in *. cbn [length]. rewrite Nat.add_succ_r.
    destruct (decide (t = tid)) as [->|Hne].
    + cbn [List.find] in *.
      destruct (is_metadata {| comment_id := k; comment_content := s |}); [done|].
      by apply IH.
    + by apply IH.
Qed.

Lemma comments_from_insert_other (k j : nat) (tid tid' s text : string)
    (cs : list (string * string)) :
  tid' <> tid -> cs !! j = Some (tid, s) ->
  comments_from k tid' (<[j := (tid, text)]> cs) = comments_from k tid' cs.
Proof.
  intros Hne. revert k j. induction cs as [|[t s'] cs IH]; intros k j Hj; [done|].
  destruct j as [|j].
  - simplify_eq/=. rewrite !decide_False by done. done.
  - cbn [insert list_insert comments_from]. by rewrite (IH _ _ Hj).
Qed.

Lemma comments_from_app_other (k : nat) (tid tid' text : string)
    (cs : list (string * string)) :
  tid' <> tid ->
  comments_from k tid' (cs ++ [(tid, text)]) = comments_from k tid' cs.
Proof.
  intros Hne. revert k. induction cs as [|[t s'] cs IH]; intros k.
  - cbn [app comments_from]. by rewrite decide_False.
  - cbn [app comments_from]. by rewrite IH.
Qed.

Lemma metadata_text_header (E : Env) (d : gmap string pyval) :
  startswith metadata_header (metadata_text E d) = true.
Proof. reflexivity. Qed.

Lemma stored_comment_lookup (cs : list (string * string)) (tid : string) (c : Comment) :
  stored_comment cs tid = Some c ->
  cs !! comment_id c = Some (tid, comment_content c).
Proof.
  intros Hc. destruct (find_metadata_from 0 tid cs c Hc) as (j & Hid & Hj & _).
  by rewrite Hid.
Qed.

Lemma stored_comment_write (cs : list (string * string)) (tid text : string) :
  startswith metadata_header text = true ->
  exists i, stored_comment (write_record cs tid text) tid
            = Some {| comment_id := i; comment_content := text |}.
Proof.
  intros Htext. unfold write_record.
  destruct (stored_comment cs tid) as [c|] eqn:Hc.
  - destruct (find_metadata_from 0 tid cs c Hc) as (j & Hid & Hj & Hins).
    exists j. rewrite Hid. by apply Hins.
  - eexists. by apply find_metadata_app.
Qed.

Lemma stored_comment_write_other (cs : list (string * string)) (tid tid' text : string) :
  tid' <> tid ->
  stored_comment (write_record cs tid text) tid' = stored_comment cs tid'.
Proof.
  intros Hne. unfold write_record, stored_comment.
  destruct (List.find is_metadata (comments_from 0 tid cs)) as [c|] eqn:Hc.
  - apply stored_comment_lookup in Hc.
    by erewrite comments_from_insert_other.
  - by rewrite comments_from_app_other.
Qed.

Lemma stored_record_write (E : Env) (cs : list (string * string)) (tid : string)
    (d : gmap string pyval) :
  round_trips E ->
  stored_record E (write_record cs tid (metadata_text E d)) tid = Some (ODict d).
Proof.
  intros Hrt. unfold stored_record.
  destruct (stored_comment_write cs tid (metadata_text E d)) as [i ->]; [done|].
  cbn. apply Hrt.
Qed.

Lemma find_metadata_first (k : nat) (tid : string) (cs : list (string * string)) :
  match List.find is_metadata (comments_from k tid cs) with
  | Some c =>
      exists j : nat,
        comment_id c = (k + j)%nat
        /\ cs !! j = Some (tid, comment_content c)
        /\ startswith metadata_header (comment_content c) = true
        /\ forall (i : nat) s, (i < j)%nat -> cs !! i = Some (tid, s) ->
             startswith metadata_header s = false
  | None =>
      forall (i : nat) s, cs !! i = Some (tid, s) -> startswith metadata_header s = false
  end.
Proof.
  revert k. induction cs as [|[t s] cs IH]; intros k; [done|].
  cbn [comments_from]. destruct (decide (t = tid)) as [->|Hne].
  - cbn [List.find].
    destruct (is_metadata {| comment_id := k; comment_content := s |}) eqn:Hm.
    + exists 0%nat. cbn [comment_id comment_content]. rewrite Nat.add_0_r.
      split; [done|]. split; [done|]. split; [done|]. intros i s' Hi. lia.
    + specialize (IH (S k)).
      destruct (List.find is_metadata (comments_from (S k) tid cs)) as [c|].
      * destruct IH as (j & Hid & Hj & Hhead & Hbefore).
        exists (S j). rewrite Nat.add_succ_r. split; [done|]. split; [done|].
        split; [done|]. intros [|i] s' Hi Hs'.
        -- by injection Hs' as <-.
        -- apply (Hbefore i); [lia|done].
      * intros [|i] s' Hs'.
        -- by injection Hs' as <-.
        -- by apply (IH i).
  - specialize (IH (S k)).
    destruct (List.find is_metadata (comments_from (S k) tid cs)) as [c|].
    + destruct IH as (j & Hid & Hj & Hhead & Hbefore).
      exists (S j). rewrite Nat.add_succ_r. split; [done|]. split; [done|].
      split; [done|]. intros [|i] s' Hi Hs'.
      * by injection Hs' as ? ?.
      * apply (Hbefore i); [lia|done].
    + intros [|i] s' Hs'.
      * by injection Hs' as ? ?.
      * by apply (IH i).
Qed.

Lemma stored_record_write_other (E : Env) (cs : list (string * string))
    (tid tid' text : string) :
  tid' <> tid ->
  stored_record E (write_record cs tid text) tid' = stored_record E cs tid'.
Proof.
  intros Hne. unfold stored_record. by rewrite stored_comment_write_other.
Qed.

Section Lookup.

Context (E : Env).

Lemma find_metadata_comment_ok (tid : string) (w : World) :
  env_fault E (w_tick w) (GetComments tid) = false ->
  find_metadata_comment E tid w
  = Return (tick w) (stored_comment (w_comments w) tid).
Proof.
  intros Hf.
  unfold find_metadata_comment, try_except, bind, api_get_comments, request.
  rewrite Hf. unfold ret. rewrite concat_paginate. done.
Qed.

Lemma find_metadata_comment_fault (tid : string) (w : World) :
  env_fault E (w_tick w) (GetComments tid) = true ->
  find_metadata_comment E tid w = Return (tick w) None.
Proof.
  intros Hf.
  unfold find_metadata_comment, try_except, bind, api_get_comments, request.
  by rewrite Hf.
Qed.

Lemma get_metadata_eq (task : Task) (w : World) :
  get_metadata E task w
  = match visible_record E (task_id task) w with
    | Some o => Return (tick w) o
    | None => Return (tick (tick w))
                (ODict (default_metadata E (env_time E (S (w_tick w)))))
    end.
Proof.
  unfold get_metadata, visible_record, bind.
  destruct (env_fault E (w_tick w) (GetComments (task_id task))) eqn:Hf.
  - by rewrite find_metadata_comment_fault.
  - rewrite find_metadata_comment_ok by done.
    unfold stored_record.
    destruct (stored_comment (w_comments w) (task_id task)) as [c|]; [|done].
    cbn. by destruct (parse_metadata E c).
Qed.

Lemma persist_metadata_eq (tid : string) (m : gmap string pyval) (w : World) :
  env_fault E (w_tick w) (GetComments tid) = false ->
  persist_metadata E tid m w
  = Return
      (if env_fault E (S (w_tick w)) (write_call (w_comments w) tid)
       then logged (ErrorUpdatingMetadata (ApiError (write_call (w_comments w) tid)))
              (tick (tick w))
       else set_comments (write_record (w_comments w) tid (metadata_text E m))
              (tick (tick w)))
      tt.
Proof.
  intros Hf. unfold persist_metadata, try_except, bind.
  rewrite find_metadata_comment_ok by done.
  unfold write_call, write_record.
  destruct (stored_comment (w_comments w) tid) as [c|] eqn:Hc.
  - unfold api_update_comment, request. cbn [tick w_tick].
    destruct (env_fault E (S (w_tick w)) (UpdateComment (comment_id c))); [done|].
    change (w_comments (tick (tick w))) with (w_comments w).
    by rewrite (stored_comment_lookup _ _ _ Hc).
  - unfold api_add_comment, request. cbn [tick w_tick].
    by destruct (env_fault E (S (w_tick w)) (AddComment tid)).
Qed.

Lemma persist_metadata_returns (tid : string) (m : gmap string pyval) (w : World) :
  exists w', persist_metadata E tid m w = Return w' tt
             /\ w_tasks w' = w_tasks w.
Proof.
  unfold persist_metadata, try_except, bind.
  destruct (find_metadata_comment E tid w) as [w1 [c|]|w1 e] eqn:Hfind.
  - assert (w_tasks w1 = w_tasks w) as Ht.
    { destruct (env_fault E (w_tick w) (GetComments tid)) eqn:Hf.
      - rewrite find_metadata_comment_fault in Hfind by done. by simplify_eq.
      - rewrite find_metadata_comment_ok in Hfind by done. by simplify_eq. }
    unfold api_update_comment, request.
    destruct (env_fault E (w_tick w1) _); [by eauto|].
    cbn. destruct (w_comments w1 !! comment_id c) as [[t s]|]; cbn; eauto.
  - assert (w_tasks w1 = w_tasks w) as Ht.
    { destruct (env_fault E (w_tick w) (GetComments tid)) eqn:Hf.
      - rewrite find_metadata_comment_fault in Hfind by done. by simplify_eq.
      - rewrite find_metadata_comment_ok in Hfind by done. by simplify_eq. }
    unfold api_add_comment, request.
    destruct (env_fault E (w_tick w1) _); cbn; eauto.
  - exfalso.
    destruct (env_fault E (w_tick w) (GetComments tid)) eqn:Hf.
    + by rewrite find_metadata_comment_fault in Hfind.
    + by rewrite find_metadata_comment_ok in Hfind.
Qed.

End Lookup.

(** ** MetadataStore when listing comments works *)

Section LookupReliable.

Context (E : Env) (Hlook : lookup_reliable E).

Lemma get_metadata_reliable (task : Task) (w : World) :
  exists w1,
    get_metadata E task w
    = Return w1 (record_or_default E (w_comments w) (task_id task)
                   (env_time E (S (w_tick w))))
    /\ quiet w w1.
Proof.
  rewrite get_metadata_eq. unfold visible_record, record_or_default.
  rewrite Hlook.
  destruct (stored_record E (w_comments w) (task_id task));
    eexists; (split; [reflexivity|done]).
Qed.

Lemma update_metadata_cases (tid : string) (updates : gmap string pyval)
    (w : World) (o : Outcome (gmap string pyval)) :
  update_metadata E tid updates w = o ->
  w_tasks (world_of o) = w_tasks w
  /\ (w_comments (world_of o) = w_comments w
      \/ exists t d,
           record_or_default E (w_comments w) tid t = ODict d
           /\ o = Return (world_of o) (updates ∪ d)
           /\ w_comments (world_of o)
              = write_record (w_comments w) tid (metadata_text E (updates ∪ d))).
Proof.
  unfold update_metadata, bind at 1, api_get_task, request.
  destruct (env_fault E (w_tick w) (GetTask tid)); [by intros <-; auto|].
  change (w_tasks (tick w)) with (w_tasks w).
  destruct (w_tasks w !! tid) as [r|]; [|by intros <-; auto].
  cbn [mbind option_bind]. unfold bind at 1.
  destruct (get_metadata_reliable (task_of_row tid r) (tick w))
    as (w1 & -> & Hc1 & Ht1 & _).
  cbn [task_id task_of_row w_comments w_tasks w_tick tick] in *.
  destruct (record_or_default E (w_comments w) tid _) as [d|v] eqn:Hrec.
  2:{ intros <-. cbn. auto. }
  unfold bind, py_update, ret.
  rewrite persist_metadata_eq by apply Hlook.
  destruct (env_fault E (S (w_tick w1)) _); intros <-; cbn [world_of].
  - cbn. auto.
  - cbn [set_comments w_tasks w_comments tick]. split; [done|]. right.
    exists (env_time E (S (S (w_tick w)))), d.
    by rewrite Hrec, Hc1.
Qed.

Lemma update_metadata_progress (tid : string) (updates : gmap string pyval)
    (w : World) (r : TaskRow) (key : string) :
  env_fault E (w_tick w) (GetTask tid) = false ->
  w_tasks w !! tid = Some r ->
  countable_record E (w_comments w) tid key ->
  exists w1 t d,
    quiet w w1
    /\ record_or_default E (w_comments w) tid t = ODict d
    /\ update_metadata E tid updates w
       = Return (after_write E tid (updates ∪ d) w1) (updates ∪ d).
Proof.
  intros Hget Hrow Hok.
  unfold update_metadata, bind at 1, api_get_task, request.
  rewrite Hget. change (w_tasks (tick w)) with (w_tasks w). rewrite Hrow.
  cbn [mbind option_bind]. unfold bind at 1.
  destruct (get_metadata_reliable (task_of_row tid r) (tick w))
    as (w1 & -> & Hc1 & Ht1 & Hl1).
  cbn [task_id task_of_row w_comments w_tasks w_console w_tick tick] in *.
  assert (exists d, record_or_default E (w_comments w) tid
                      (env_time E (S (S (w_tick w)))) = ODict d) as [d Hrec].
  { unfold record_or_default, countable_record in *.
    destruct (stored_record E (w_comments w) tid) as [[d|v]|]; by eauto. }
  rewrite Hrec. unfold bind, py_update, ret.
  rewrite persist_metadata_eq by apply Hlook.
  exists w1, (env_time E (S (S (w_tick w)))), d. done.
Qed.

Lemma bind_get_add1 {A} (d : gmap string pyval) (key : string) (k : Z -> M A)
    (w : World) :
  (let! v := py_get (ODict d) key (VInt 0) in let! z := py_add1 v in k z) w
  = match numeric (d !! key) with
    | Some z => k (z + 1) w
    | None => Raise w TypeError
    end.
Proof. unfold bind, py_get, ret. by destruct (d !! key) as [[]|]. Qed.

Lemma counter_record_or_default (cs : list (string * string)) (tid key : string)
    (t : Z) (d : gmap string pyval) :
  record_or_default E cs tid t = ODict d ->
  key = "failures" \/ key = "successes" ->
  match numeric (d !! key) with Some z => z | None => 0 end = counter E cs tid key.
Proof.
  unfold record_or_default, counter.
  destruct (stored_record E cs tid) as [[d0|v]|]; intros [= <-]; [done|].
  by intros [-> | ->].
Qed.

Lemma mark_failure_progress (task : Task) (w : World) (r : TaskRow) :
  (forall n, env_fault E n (GetTask (task_id task)) = false) ->
  w_tasks w !! task_id task = Some r ->
  countable_record E (w_comments w) (task_id task) "failures" ->
  exists w1 t d stamp,
    quiet w w1
    /\ record_or_default E (w_comments w) (task_id task) t = ODict d
    /\ let failures := counter E (w_comments w) (task_id task) "failures" + 1 in
       let m := {[ "failures" := VInt failures; "last_failed" := VStr stamp ]} ∪ d in
       mark_failure E task w = Return (after_write E (task_id task) m w1) failures.
Proof.
  intros Hget Hrow Hok. unfold mark_failure, bind at 1.
  destruct (get_metadata_reliable task w) as (w1 & -> & Hc1 & Ht1 & Hl1).
  assert (exists d n, record_or_default E (w_comments w) (task_id task)
                        (env_time E (S (w_tick w))) = ODict d
                      /\ numeric (d !! "failures") = Some n) as (d1 & n & Hrec & Hn).
  { unfold record_or_default, countable_record in *.
    destruct (stored_record E (w_comments w) (task_id task)) as [[d|v]|];
      [destruct Hok as [n Hn]|done|]; by eauto. }
  rewrite Hrec, bind_get_add1, Hn.
  pose proof (counter_record_or_default _ _ "failures" _ _ Hrec ltac:(auto)) as Hcnt.
  rewrite Hn in Hcnt. subst n.
  unfold bind at 1, now. unfold bind at 1.
  destruct (update_metadata_progress (task_id task)
              {[ "failures" := VInt (counter E (w_comments w) (task_id task) "failures" + 1);
                 "last_failed" := VStr (isoformat E (env_time E (w_tick w1))) ]}
              (tick w1) r "failures")
    as (w2 & t & d & (Hc2 & Ht2 & Hl2) & Hrec2 & ->).
  { apply Hget. }
  { cbn. by rewrite Ht1. }
  { cbn. by rewrite Hc1. }
  cbn [tick w_comments w_tasks w_console] in *.
  exists w2, t, d, (isoformat E (env_time E (w_tick w1))).
  split; [by unfold quiet; rewrite Hc2, Ht2, Hl2|].
  split; [by rewrite <- Hc1|]. done.
Qed.

Context (Hrt : round_trips E).

Lemma counter_write (cs : list (string * string)) (tid key : string)
    (m : gmap string pyval) :
  counter E (write_record cs tid (metadata_text E m)) tid key
  = match numeric (m !! key) with Some z => z | None => 0 end.
Proof. unfold counter. by rewrite stored_record_write. Qed.

Lemma mark_failure_cases (task : Task) (w : World) (o : Outcome Z) :
  mark_failure E task w = o ->
  let cs := w_comments w in
  let cs' := w_comments (world_of o) in
  let tid := task_id task in
  w_tasks (world_of o) = w_tasks w
  /\ (forall tid', tid' <> tid -> stored_record E cs' tid' = stored_record E cs tid')
  /\ (cs' = cs
      \/ (counter E cs' tid "failures" = counter E cs tid "failures" + 1
          /\ counter E cs' tid "successes" = counter E cs tid "successes"
          /\ o = Return (world_of o) (counter E cs tid "failures" + 1))).
Proof.
  cbv zeta. unfold mark_failure, bind at 1.
  destruct (get_metadata_reliable task w) as (w1 & -> & Hc1 & Ht1 & _).
  destruct (record_or_default E (w_comments w) (task_id task) _) as [d|v] eqn:Hrec.
  2:{ intros <-. cbn. rewrite Hc1. auto. }
  rewrite bind_get_add1.
  pose proof (counter_record_or_default _ _ "failures" _ _ Hrec) as Hn.
  destruct (numeric (d !! "failures")) as [n|].
  2:{ intros <-. cbn. rewrite Hc1. auto. }
  specialize (Hn ltac:(auto)). subst n.
  unfold bind at 1, now. unfold bind at 1.
  destruct (update_metadata E (task_id task) _ (tick w1)) as [w2 m|w2 e] eqn:Hu;
    apply update_metadata_cases in Hu;
    cbn [world_of tick w_comments w_tasks] in Hu; rewrite Hc1, Ht1 in Hu;
    destruct Hu as [Ht2 Hu]; intros <-; cbn [world_of ret].
  - split; [done|].
    destruct Hu as [Hc2|(t & d2 & Hrec2 & [= ->] & Hc2)].
    { rewrite Hc2. auto. }
    rewrite Hc2. split.
    { intros tid' Hne. by apply stored_record_write_other. }
    right. rewrite !counter_write.
    rewrite lookup_union_l', lookup_insert_eq by (by rewrite lookup_insert_eq).
    cbn [numeric]. split; [done|]. split; [|done].
    rewrite lookup_union_r by done.
    by apply (counter_record_or_default _ _ "successes" _ _ Hrec2); auto.
  - split; [done|].
    destruct Hu as [Hc2|(t & d2 & _ & [=] & _)].
    rewrite Hc2. auto.
Qed.

Lemma track_completion_cases (task : Task) (c : Z) (w : World) (o : Outcome unit) :
  task_completed_at task = Some c ->
  track_completion E task w = o ->
  let cs := w_comments w in
  let cs' := w_comments (world_of o) in
  let tid := task_id task in
  w_tasks (world_of o) = w_tasks w
  /\ (forall tid', tid' <> tid -> stored_record E cs' tid' = stored_record E cs tid')
  /\ (recorded E cs tid c -> cs' = cs)
  /\ (cs' = cs
      \/ (~ recorded E cs tid c
          /\ recorded E cs' tid c
          /\ counter E cs' tid "successes" = counter E cs tid "successes" + 1
          /\ counter E cs' tid "failures" = counter E cs tid "failures")).
Proof.
  intros Hdone. cbv zeta. unfold track_completion. rewrite Hdone.
  unfold bind at 1.
  destruct (get_metadata_reliable task w) as (w1 & -> & Hc1 & Ht1 & _).
  destruct (record_or_default E (w_comments w) (task_id task) _) as [d|v] eqn:Hrec.
  2:{ intros <-. cbn. rewrite Hc1. repeat split; auto. }
  unfold bind at 1, py_get at 1, ret at 1.
  assert (forall d', stored_record E (w_comments w) (task_id task) = Some (ODict d')
                     -> d' = d) as Hstored.
  { intros d' Hd'. unfold record_or_default in Hrec. rewrite Hd' in Hrec.
    congruence. }
  destruct (py_ne_str _ _) eqn:Hne.
  2:{ intros <-. cbn. rewrite Hc1. repeat split; auto. }
  assert (~ recorded E (w_comments w) (task_id task) c) as Hnot.
  { intros (d' & Hd' & Hlast). apply Hstored in Hd' as ->.
    rewrite Hlast in Hne. cbn in Hne. by rewrite String.eqb_refl in Hne. }
  rewrite bind_get_add1.
  pose proof (counter_record_or_default _ _ "successes" _ _ Hrec) as Hn.
  destruct (numeric (d !! "successes")) as [n|].
  2:{ intros <-. cbn. rewrite Hc1. repeat split; auto. }
  specialize (Hn ltac:(auto)). subst n.
  unfold bind at 1.
  destruct (update_metadata E (task_id task) _ w1) as [w2 m|w2 e] eqn:Hu;
    apply update_metadata_cases in Hu;
    cbn [world_of] in Hu; rewrite Hc1, Ht1 in Hu;
    destruct Hu as [Ht2 Hu]; intros <-; cbn [world_of print w_comments w_tasks].
  - split; [done|].
    destruct Hu as [Hc2|(t & d2 & Hrec2 & [= ->] & Hc2)].
    { rewrite Hc2. repeat split; auto. }
    rewrite Hc2. split.
    { intros tid' Hne'. by apply stored_record_write_other. }
    split; [done|]. right. split; [done|].
    split.
    { eexists. split; [by apply stored_record_write|].
      rewrite lookup_union_l'; by simplify_map_eq. }
    rewrite !counter_write.
    rewrite lookup_union_l', lookup_insert_eq by (by rewrite lookup_insert_eq).
    cbn [numeric]. split; [done|].
    rewrite lookup_union_r by done.
    by apply (counter_record_or_default _ _ "failures" _ _ Hrec2); auto.
  - split; [done|].
    destruct Hu as [Hc2|(t & d2 & _ & [=] & _)].
    rewrite Hc2. repeat split; auto.
Qed.

End LookupReliable.

(** ** The reference environment meets the assumptions *)

Lemma pos_of_bits_of_pos (p : positive) : pos_of_bits (bits_of_pos p) = Some p.
Proof. induction p as [p IH|p IH|]; cbn; by rewrite ?IH. Qed.

Lemma replace_header_bits (p : positive) :
  replace metadata_header_line "" (bits_of_pos p) = bits_of_pos p.
Proof.
  unfold replace. induction p as [p IH|p IH|]; [| |done].
  - cbn [bits_of_pos replace_from]. by rewrite IH.
  - cbn [bits_of_pos replace_from]. by rewrite IH.
Qed.

Lemma ref_env_round_trips (fault : nat -> call -> bool) : round_trips (ref_env fault).
Proof.
  intros d. unfold metadata_text. cbn [yaml_dump yaml_safe_load ref_env].
  change (replace metadata_header_line "" (metadata_header_line ++ bits_dump d))
    with (replace metadata_header_line "" (bits_dump d)).
  unfold bits_dump, bits_load. rewrite replace_header_bits, pos_of_bits_of_pos.
  cbn. apply decode_encode.
Qed.

Lemma no_fault_reliable : reliable (ref_env no_fault).
Proof. by intros n c. Qed.

Lemma ref_env_same_day (fault : nat -> call -> bool) : same_day (ref_env fault) 20000.
Proof.
  intros n. unfold date_of. cbn [env_time ref_env].
  pose proof (Z.mod_pos_bound (Z.of_nat n) seconds_per_day ltac:(done)).
  rewrite Z.div_add_l by done. rewrite Z.div_small by done. lia.
Qed.

Lemma reliable_lookup (E : Env) : reliable E -> lookup_reliable E.
Proof. intros H n tid. apply H. Qed.


(** ** CompletionTracker *)


(** ** Counters *)

Lemma perform_monotone (E : Env) (op : operation) (w : World) (tid key : string) :
  lookup_reliable E -> round_trips E ->
  key = "failures" \/ key = "successes" ->
  counter E (w_comments w) tid key
  <= counter E (w_comments (perform E op w)) tid key.
Proof.
  intros Hlook Hrt Hkey. destruct op as [task|task]; cbn [perform].
  - destruct (mark_failure_cases E Hlook Hrt task w _ eq_refl)
      as (_ & Hframe & Hself).
    destruct (decide (tid = task_id task)) as [->|Hne].
    + destruct Hself as [->|(Hf & Hs & _)]; [done|].
      destruct Hkey as [-> | ->]; lia.
    + unfold counter. by rewrite (Hframe _ Hne).
  - destruct (task_completed_at task) as [c|] eqn:Hdone.
    2:{ unfold track_completion. by rewrite Hdone. }
    destruct (track_completion_cases E Hlook Hrt task c w _ Hdone eq_refl)
      as (_ & Hframe & _ & Hself).
    destruct (decide (tid = task_id task)) as [->|Hne].
    + destruct Hself as [->|(_ & _ & Hs & Hf)]; [done|].
      destruct Hkey as [-> | ->]; lia.
    + unfold counter. by rewrite (Hframe _ Hne).
Qed.

(** C9, as amended: as long as listing comments does not fail, neither
    [mark_failure] nor [track_completion] lowers the stored [failures] or
    [successes] of any task, so both counters are non-decreasing along
    every sequence of these operations. *)
Theorem counters_never_decrease (E : Env) (ops : list operation) (w : World)
    (tid key : string) :
  lookup_reliable E -> round_trips E ->
  key = "failures" \/ key = "successes" ->
  counter E (w_comments w) tid key
  <= counter E (w_comments (perform_all E ops w)) tid key.
Proof.
  intros Hlook Hrt Hkey. revert w.
  induction ops as [|op ops IH]; intros w; [done|].
  cbn [perform_all foldl].
  etrans; [by apply (perform_monotone E op)|]. apply IH.
Qed.

(** ** Which exceptions escape *)

Section Escapes.

Context (E : Env) (P : exn -> Prop).

Lemma raises_only_ret {A} (a : A) : raises_only P (ret a).
Proof. by intros w w' e. Qed.

Lemma raises_only_raise {A} (e : exn) : P e -> raises_only P (raise (A:=A) e).
Proof. intros He w w' e' [= _ <-]. done. Qed.

Lemma raises_only_bind {A B} (m : M A) (k : A -> M B) :
  raises_only P m -> (forall a, raises_only P (k a)) -> raises_only P (bind m k).
Proof.
  intros Hm Hk w w' e. unfold bind.
  destruct (m w) as [w1 a|w1 e1] eqn:Hmw.
  - apply Hk.
  - intros [= _ <-]. by eapply Hm.
Qed.

Lemma raises_only_for_each {A} (l : list A) (body : A -> M unit) :
  (forall x, raises_only P (body x)) -> raises_only P (for_each l body).
Proof.
  intros Hbody. induction l as [|x l IH]; cbn [for_each].
  - apply raises_only_ret.
  - apply raises_only_bind; auto.
Qed.

Lemma raises_only_for_each_from {A} (i : nat) (l : list A) (body : nat -> A -> M unit) :
  (forall j x, raises_only P (body j x)) -> raises_only P (for_each_from i l body).
Proof.
  intros Hbody. revert i. induction l as [|x l IH]; intros i; cbn [for_each_from].
  - apply raises_only_ret.
  - apply raises_only_bind; auto.
Qed.

Lemma raises_only_request {A} (c : call) (serve : World -> option (World * A)) :
  P (ApiError c) -> raises_only P (request E c serve).
Proof.
  intros Hc w w' e. unfold request.
  destruct (env_fault E (w_tick w) c); [by intros [= _ <-]|].
  destruct (serve (tick w)) as [[w1 a]|]; [done|by intros [= _ <-]].
Qed.

Lemma raises_only_now : raises_only P (now E).
Proof. by intros w w' e. Qed.

Lemma raises_only_print (l : Line) : raises_only P (print l).
Proof. by intros w w' e. Qed.

Lemma raises_only_get_metadata (task : Task) : raises_only P (get_metadata E task).
Proof.
  intros w w' e. rewrite get_metadata_eq.
  by destruct (visible_record E (task_id task) w).
Qed.

Lemma raises_only_persist_metadata (tid : string) (m : gmap string pyval) :
  raises_only P (persist_metadata E tid m).
Proof.
  intros w w' e.
  destruct (persist_metadata_returns E tid m w) as (w1 & -> & _). done.
Qed.

End Escapes.

Section EscapesBatch.

Context (E : Env).

Lemma raises_only_py_get (o : pyobj) (key : string) (v : pyval) :
  raises_only not_comment_write (py_get o key v).
Proof. destruct o; [apply raises_only_ret|by apply raises_only_raise]. Qed.

Lemma raises_only_py_add1 (v : pyval) : raises_only not_comment_write (py_add1 v).
Proof. destruct v; (apply raises_only_ret || by apply raises_only_raise). Qed.

Lemma raises_only_update_metadata (tid : string) (updates : gmap string pyval) :
  raises_only not_comment_write (update_metadata E tid updates).
Proof.
  unfold update_metadata.
  apply raises_only_bind; [by apply raises_only_request|]. intros task.
  apply raises_only_bind; [apply raises_only_get_metadata|]. intros o.
  apply raises_only_bind.
  { destruct o; [apply raises_only_ret|by apply raises_only_raise]. }
  intros m. apply raises_only_bind; [apply raises_only_persist_metadata|].
  intros _. apply raises_only_ret.
Qed.

Lemma raises_only_mark_failure (task : Task) :
  raises_only not_comment_write (mark_failure E task).
Proof.
  unfold mark_failure.
  apply raises_only_bind; [apply raises_only_get_metadata|]. intros o.
  apply raises_only_bind; [apply raises_only_py_get|]. intros v.
  apply raises_only_bind; [apply raises_only_py_add1|]. intros n.
  apply raises_only_bind; [apply raises_only_now|]. intros t.
  apply raises_only_bind; [apply raises_only_update_metadata|]. intros _.
  apply raises_only_ret.
Qed.

Lemma raises_only_get_success_ratio (task : Task) :
  raises_only not_comment_write (get_success_ratio E task).
Proof.
  unfold get_success_ratio.
  apply raises_only_bind; [apply raises_only_get_metadata|]. intros o.
  apply raises_only_bind; [apply raises_only_py_get|]. intros s.
  apply raises_only_bind; [apply raises_only_py_get|]. intros f.
  apply raises_only_bind; [apply raises_only_py_add1|]. intros s1.
  apply raises_only_bind; [apply raises_only_py_add1|]. intros f1.
  unfold py_truediv. case_decide; [by apply raises_only_raise|].
  destruct (true_divide s1 f1); [apply raises_only_ret|by apply raises_only_raise].
Qed.

Lemma raises_only_reschedule_task (task : Task) (due failures : Z) :
  raises_only not_comment_write (reschedule_task E task due failures).
Proof.
  unfold reschedule_task.
  apply raises_only_bind; [by apply raises_only_request|]. intros _.
  apply raises_only_print.
Qed.

Lemma raises_only_collect_task_data (tasks : list Task) :
  raises_only not_comment_write (collect_task_data E tasks).
Proof.
  induction tasks as [|task tasks IH]; cbn [collect_task_data].
  - apply raises_only_ret.
  - apply raises_only_bind; [apply raises_only_mark_failure|]. intros n.
    apply raises_only_bind; [apply raises_only_get_success_ratio|]. intros q.
    apply raises_only_bind; [apply IH|]. intros l. apply raises_only_ret.
Qed.

Lemma raises_only_batch (tasks : list Task) :
  raises_only not_comment_write (batch_reschedule_overdue E tasks).
Proof.
  unfold batch_reschedule_overdue.
  destruct tasks as [|task tasks]; [apply raises_only_ret|].
  apply raises_only_bind.
  { apply raises_only_for_each. intros x. unfold reschedule_urgent.
    apply raises_only_bind; [apply raises_only_mark_failure|]. intros n.
    apply raises_only_bind; [apply raises_only_now|]. intros t.
    apply raises_only_reschedule_task. }
  intros _. destruct (filter _ _) as [|r rs]; [apply raises_only_ret|].
  unfold reschedule_regular.
  apply raises_only_bind; [apply raises_only_collect_task_data|]. intros l.
  apply raises_only_bind; [apply raises_only_now|]. intros t.
  apply raises_only_for_each_from. intros j x.
  apply raises_only_reschedule_task.
Qed.

End EscapesBatch.

(** ** Failing writes *)

Lemma write_call_is_write (cs : list (string * string)) (tid : string) :
  is_comment_write (write_call cs tid) = true.
Proof. unfold write_call. by destruct (stored_comment cs tid). Qed.

Lemma persist_metadata_caught (E : Env) (tid : string) (m : gmap string pyval)
    (w : World) :
  exists w' c,
    is_comment_write c = true
    /\ persist_metadata E tid m w = Return w' tt
    /\ w_tasks w' = w_tasks w
    /\ if env_fault E (S (w_tick w)) c
       then w_comments w' = w_comments w
            /\ w_console w' = (w_console w ++ [ErrorUpdatingMetadata (ApiError c)])%list
       else w_console w' = w_console w.
Proof.
  destruct (env_fault E (w_tick w) (GetComments tid)) eqn:Hf.
  - exists (world_of (persist_metadata E tid m w)), (AddComment tid).
    split; [done|].
    unfold persist_metadata, try_except, bind.
    rewrite find_metadata_comment_fault by done.
    unfold api_add_comment, request. cbn [tick w_tick].
    by destruct (env_fault E (S (w_tick w)) (AddComment tid)).
  - exists (world_of (persist_metadata E tid m w)), (write_call (w_comments w) tid).
    split; [apply write_call_is_write|].
    rewrite persist_metadata_eq by done. cbn [world_of].
    by destruct (env_fault E (S (w_tick w)) _).
Qed.

Lemma only_comment_writes_fail_lookup (E : Env) :
  only_comment_writes_fail E -> lookup_reliable E.
Proof. intros H n tid. by rewrite H. Qed.

Lemma after_write_failed (E : Env) (tid : string) (m : gmap string pyval) (w1 : World) :
  only_comment_writes_fail E ->
  after_write E tid m w1
  = logged (ErrorUpdatingMetadata (ApiError (write_call (w_comments w1) tid)))
      (tick (tick w1)).
Proof.
  intros H. unfold after_write. by rewrite H, write_call_is_write.
Qed.

(** C10: when every comment write fails, [update_metadata] still returns
    the merged record, having stored nothing and printed the error, and
    [mark_failure] still returns the incremented failure count although
    that count was never stored. *)
Theorem unpersisted_record_is_returned (E : Env) (task : Task) (w : World)
    (r : TaskRow) (updates : gmap string pyval) :
  only_comment_writes_fail E ->
  w_tasks w !! task_id task = Some r ->
  countable_record E (w_comments w) (task_id task) "failures" ->
  (exists w' t d e,
      record_or_default E (w_comments w) (task_id task) t = ODict d
      /\ update_metadata E (task_id task) updates w = Return w' (updates ∪ d)
      /\ w_comments w' = w_comments w
      /\ w_console w' = (w_console w ++ [ErrorUpdatingMetadata e])%list)
  /\ (exists w',
        mark_failure E task w
        = Return w' (counter E (w_comments w) (task_id task) "failures" + 1)
        /\ w_comments w' = w_comments w
        /\ counter E (w_comments w') (task_id task) "failures"
           = counter E (w_comments w) (task_id task) "failures").
Proof.
  intros Hfail Hrow Hok.
  pose proof (only_comment_writes_fail_lookup E Hfail) as Hlook.
  split.
  - destruct (update_metadata_progress E Hlook (task_id task) updates w r "failures")
      as (w1 & t & d & (Hc1 & Ht1 & Hl1) & Hrec & Hup); [by rewrite Hfail|done..|].
    rewrite after_write_failed in Hup by done.
    eexists _, t, d, _. split; [done|]. split; [exact Hup|].
    cbn. by rewrite Hc1, Hl1.
  - destruct (mark_failure_progress E Hlook task w r)
      as (w1 & t & d & stamp & (Hc1 & Ht1 & Hl1) & Hrec & Hmark);
      [by intros n; rewrite Hfail|done..|].
    cbv zeta in Hmark. rewrite after_write_failed in Hmark by done.
    eexists. split; [exact Hmark|]. cbn. by rewrite Hc1.
Qed.

(** ** Rescheduling one task *)

Lemma date_of_combine_midnight (day : Z) : date_of (combine_midnight day) = day.
Proof. unfold date_of, combine_midnight, seconds_per_day. by rewrite Z.div_mul. Qed.

Lemma reschedule_task_fault (E : Env) (task : Task) (due failures : Z) (w : World) :
  env_fault E (w_tick w) (UpdateTask (task_id task)) = true ->
  reschedule_task E task due failures w
  = Raise (tick w) (ApiError (UpdateTask (task_id task))).
Proof.
  intros Hf. unfold reschedule_task, bind, api_update_task, request.
  by rewrite Hf.
Qed.

Lemma reschedule_task_ok (E : Env) (task : Task) (due failures : Z) (w : World)
    (r : TaskRow) :
  env_fault E (w_tick w) (UpdateTask (task_id task)) = false ->
  w_tasks w !! task_id task = Some r ->
  reschedule_task E task due failures w
  = Return
      (logged (Rescheduled (task_content task) (date_of due) failures)
         (set_tasks
            (<[task_id task :=
                 rescheduled_row r (date_of due)
                   (rescheduled_content (task_content task) failures)]>
               (w_tasks w))
            (tick w)))
      tt.
Proof.
  intros Hf Hrow. unfold reschedule_task, bind, api_update_task, request.
  rewrite Hf. change (w_tasks (tick w)) with (w_tasks w). by rewrite Hrow.
Qed.

(** How the batch treats failing writes: a failing comment write is
    caught inside [update_metadata], printed, and never escapes the
    batch.  A failing [update_task] is not caught: it escapes
    [batch_reschedule_overdue], so the tasks after it are not processed,
    and the world it leaves is the one [mark_failure] had produced, with
    the failure count it stored. *)
Theorem batch_update_errors (E : Env) (task : Task) (rest : list Task)
    (w w1 : World) (failures : Z) :
  3 <= task_priority task ->
  mark_failure E task w = Return w1 failures ->
  env_fault E (S (w_tick w1)) (UpdateTask (task_id task)) = true ->
  (forall tid m w0,
      exists w' c,
        is_comment_write c = true
        /\ persist_metadata E tid m w0 = Return w' tt
        /\ if env_fault E (S (w_tick w0)) c
           then w_comments w' = w_comments w0
                /\ w_console w' = (w_console w0 ++ [ErrorUpdatingMetadata (ApiError c)])%list
           else w_console w' = w_console w0)
  /\ (forall tasks w0 w' e,
        batch_reschedule_overdue E tasks w0 = Raise w' e -> not_comment_write e)
  /\ exists w2,
       batch_reschedule_overdue E (task :: rest) w
       = Raise w2 (ApiError (UpdateTask (task_id task)))
       /\ w_comments w2 = w_comments w1
       /\ w_tasks w2 = w_tasks w1
       /\ w_console w2 = w_console w1.
Proof.
  intros Hprio Hmark Hfault. split; [|split].
  - intros tid m w0.
    destruct (persist_metadata_caught E tid m w0) as (w' & c & Hc & Hp & _ & Hif).
    by exists w', c.
  - intros tasks w0 w' e. apply raises_only_batch.
  - exists (tick (tick w1)). split; [|done].
    unfold batch_reschedule_overdue. rewrite filter_cons.
    rewrite decide_True by done. cbn [for_each].
    unfold bind at 1. unfold bind at 1. unfold reschedule_urgent.
    unfold bind at 1. rewrite Hmark. unfold bind at 1, now.
    by rewrite reschedule_task_fault.
Qed.

(** ** When no request fails *)

Section Reliable.

Context (E : Env) (Hrel : reliable E) (Hrt : round_trips E).

Lemma after_write_ok (tid : string) (m : gmap string pyval) (w1 : World) :
  after_write E tid m w1
  = set_comments (write_record (w_comments w1) tid (metadata_text E m))
      (tick (tick w1)).
Proof. unfold after_write. by rewrite Hrel. Qed.

Lemma mark_failure_ok (task : Task) (w : World) (r : TaskRow) :
  w_tasks w !! task_id task = Some r ->
  countable_record E (w_comments w) (task_id task) "failures" ->
  exists w' t d stamp,
    let failures := counter E (w_comments w) (task_id task) "failures" + 1 in
    let m := {[ "failures" := VInt failures; "last_failed" := VStr stamp ]} ∪ d in
    mark_failure E task w = Return w' failures
    /\ record_or_default E (w_comments w) (task_id task) t = ODict d
    /\ w_comments w' = write_record (w_comments w) (task_id task) (metadata_text E m)
    /\ w_tasks w' = w_tasks w
    /\ w_console w' = w_console w.
Proof.
  intros Hrow Hok.
  destruct (mark_failure_progress E (reliable_lookup E Hrel) task w r)
    as (w1 & t & d & stamp & (Hc1 & Ht1 & Hl1) & Hrec & Hmark); [by auto|done..|].
  cbv zeta in Hmark. rewrite after_write_ok in Hmark.
  eexists _, t, d, stamp. cbv zeta. split; [exact Hmark|].
  split; [done|]. cbn. by rewrite Hc1.
Qed.

Lemma get_success_ratio_ok (task : Task) (w : World) (d : gmap string pyval)
    (s f : Z) (q : Q) :
  stored_record E (w_comments w) (task_id task) = Some (ODict d) ->
  numeric (d !! "successes") = Some s ->
  numeric (d !! "failures") = Some f ->
  f + 1 <> 0 ->
  true_divide (s + 1) (f + 1) = Some q ->
  exists w', get_success_ratio E task w = Return w' q /\ quiet w w'.
Proof.
  intros Hrec Hs Hf Hnz Hdiv. unfold get_success_ratio, bind at 1.
  destruct (get_metadata_reliable E (reliable_lookup E Hrel) task w)
    as (w1 & -> & Hq).
  unfold record_or_default. rewrite Hrec.
  unfold bind, py_get, ret, py_add1, py_truediv.
  destruct (d !! "successes") as [[]|]; cbn [numeric] in Hs; simplify_eq;
    destruct (d !! "failures") as [[]|]; cbn [numeric] in Hf; simplify_eq;
    unfold ret; cbn beta iota; rewrite decide_False, Hdiv by done; eauto.
Qed.

End Reliable.

(** ** Spreading *)

Lemma spread_assigns (E : Env) (current_date : Z) (task_data : list TaskData)
    (i0 : nat) (w : World) :
  reliable E ->
  NoDup ((fun data => task_id (td_task data)) <$> task_data) ->
  (forall data, data ∈ task_data -> is_Some (w_tasks w !! task_id (td_task data))) ->
  exists w',
    for_each_from i0 task_data (spread_step E current_date) w = Return w' tt
    /\ w_comments w' = w_comments w
    /\ (forall tid,
          (forall data, data ∈ task_data -> task_id (td_task data) <> tid) ->
          w_tasks w' !! tid = w_tasks w !! tid)
    /\ (forall k data,
          task_data !! k = Some data ->
          exists r,
            w_tasks w !! task_id (td_task data) = Some r
            /\ w_tasks w' !! task_id (td_task data)
               = Some (rescheduled_row r
                         (current_date + actual_delay_days (i0 + k) data)
                         (rescheduled_content (task_content (td_task data))
                            (td_failures data)))).
Proof.
  intros Hrel. revert i0 w.
  induction task_data as [|data rest IH]; intros i0 w Hnd Hrows.
  { exists w. cbn [for_each_from]. split; [done|]. split; [done|].
    split; [done|]. by intros k data. }
  rewrite fmap_cons in Hnd. apply list.NoDup_cons in Hnd as [Hfresh Hnd].
  destruct (Hrows data ltac:(left)) as [r Hr].
  cbn [for_each_from]. unfold bind. unfold spread_step at 1.
  rewrite (reschedule_task_ok E _ _ _ _ r) by (apply Hrel || done).
  rewrite date_of_combine_midnight.
  set (w1 := logged _ _).
  destruct (IH (S i0) w1) as (w' & -> & Hc & Hother & Hmine); [done| |].
  { intros data' Hin. cbn. destruct (decide (task_id (td_task data) = task_id (td_task data'))) as [->|Hne].
    - rewrite lookup_insert_eq. eauto.
    - rewrite lookup_insert_ne by done. apply Hrows. by right. }
  exists w'. split; [done|]. split; [by rewrite Hc|]. split.
  - intros tid Hnot. rewrite Hother.
    + cbn. rewrite lookup_insert_ne; [done|]. apply Hnot. by left.
    + intros data' Hin. apply Hnot. by right.
  - intros [|k] data' Hk.
    + injection Hk as <-. exists r. split; [done|].
      rewrite Hother.
      * cbn. by rewrite lookup_insert_eq, Nat.add_0_r.
      * intros data' Hin Heq. apply Hfresh. rewrite <- Heq.
        by apply (list_elem_of_fmap_2 (fun d => task_id (td_task d))).
    + destruct (Hmine k data' Hk) as (r' & Hr' & Hw').
      assert (task_id (td_task data) <> task_id (td_task data')) as Hne.
      { intros Heq. apply Hfresh. rewrite Heq.
        apply (list_elem_of_fmap_2 (fun d => task_id (td_task d))).
        by eapply list_elem_of_lookup_2. }
      cbn in Hr'. rewrite lookup_insert_ne in Hr' by done.
      exists r'. split; [done|].
      by rewrite Nat.add_succ_r.
Qed.

(** C8: in the loop over the sorted list, the task at zero-based rank
    [i] gets the due date [max(delay_hours // 24, i)] days after the
    current date.  Run on three regular tasks whose ratios are 3, 1 and
    1/2 and whose failure count after the increment is 1, the batch
    assigns the offsets 1, 1 and 2 in rank order. *)
Theorem rank_offsets (E : Env) (current_date : Z) (task_data : list TaskData)
    (w : World) :
  reliable E ->
  NoDup ((fun data => task_id (td_task data)) <$> task_data) ->
  (forall data, data ∈ task_data -> is_Some (w_tasks w !! task_id (td_task data))) ->
  (exists w',
      for_each_from 0 task_data (spread_step E current_date) w = Return w' tt
      /\ forall i data,
           task_data !! i = Some data ->
           row_due <$> (w_tasks w' !! task_id (td_task data))
           = Some (Some (current_date
                         + Z.max (td_delay_hours data `div` 24) (Z.of_nat i))))
  /\ (let E3 := ref_env no_fault in
      let w3 := world_of (batch_reschedule_overdue E3 three_tasks three_tasks_world) in
      ranked_ratios E3 three_tasks three_tasks_world = [3; 1; 1 # 2]%Q
      /\ date_of (env_time E3 0) = 20000
      /\ w_console w3
         = [Rescheduled "Water plants" (20000 + 1) 1;
            Rescheduled "Call bank" (20000 + 1) 1;
            Rescheduled "File taxes" (20000 + 2) 1]
      /\ row_due <$> (w_tasks w3 !! "A") = Some (Some (20000 + 1))
      /\ row_due <$> (w_tasks w3 !! "B") = Some (Some (20000 + 1))
      /\ row_due <$> (w_tasks w3 !! "C") = Some (Some (20000 + 2))).
Proof.
  intros Hrel Hnd Hrows. split.
  - destruct (spread_assigns E current_date task_data 0 w Hrel Hnd Hrows)
      as (w' & Hrun & _ & _ & Hmine).
    exists w'. split; [done|]. intros i data Hi.
    destruct (Hmine i data Hi) as (r & _ & ->). done.
  - vm_compute. done.
Qed.

(** What the spreading loop does guarantee: the offset of the task at
    rank [i] is never smaller than its own [delay_hours // 24] and never
    smaller than [i], and two ranks whose tasks both have a minimum delay
    no larger than their rank get different days. *)
Theorem spread_guarantees (E : Env) (current_date : Z) (task_data : list TaskData)
    (w : World) :
  reliable E ->
  NoDup ((fun data => task_id (td_task data)) <$> task_data) ->
  (forall data, data ∈ task_data -> is_Some (w_tasks w !! task_id (td_task data))) ->
  exists w',
    for_each_from 0 task_data (spread_step E current_date) w = Return w' tt
    /\ (forall i di,
          task_data !! i = Some di ->
          exists offset,
            row_due <$> (w_tasks w' !! task_id (td_task di))
            = Some (Some (current_date + offset))
            /\ td_delay_hours di `div` 24 <= offset
            /\ Z.of_nat i <= offset)
    /\ (forall i j di dj,
          task_data !! i = Some di -> task_data !! j = Some dj ->
          i <> j ->
          td_delay_hours di `div` 24 <= Z.of_nat i ->
          td_delay_hours dj `div` 24 <= Z.of_nat j ->
          row_due <$> (w_tasks w' !! task_id (td_task di))
          <> row_due <$> (w_tasks w' !! task_id (td_task dj))).
Proof.
  intros Hrel Hnd Hrows.
  destruct (spread_assigns E current_date task_data 0 w Hrel Hnd Hrows)
    as (w' & Hrun & _ & _ & Hmine).
  exists w'. split; [done|]. split.
  - intros i di Hi. destruct (Hmine i di Hi) as (r & _ & ->).
    exists (actual_delay_days i di). split; [done|].
    unfold actual_delay_days, min_delay_days. lia.
  - intros i j di dj Hi Hj Hne Hmi Hmj.
    destruct (Hmine i di Hi) as (ri & _ & ->).
    destruct (Hmine j dj Hj) as (rj & _ & ->).
    cbn. unfold actual_delay_days, min_delay_days. intros [=]. lia.
Qed.

(** ** One pass over a single regular task *)

Lemma append_empty_r (s : string) : s ++ "" = s.
Proof.
  induction s as [|c s IH]; [done|].
  change (String c (s ++ "") = String c s). by rewrite IH.
Qed.

Lemma rescheduled_content_first (content : string) :
  rescheduled_content content 1 = bare_content content.
Proof.
  unfold rescheduled_content. rewrite !decide_False by lia.
  cbn [append]. apply append_empty_r.
Qed.

(** C1, as amended: one pass over a batch holding a single overdue task
    of priority 1 without stored metadata returns, leaves its stored
    failure count at 1, sets its due date to one day after today, and
    writes its content with earlier markers stripped and no prefix or
    suffix added. *)
Theorem first_failure_of_regular_task (E : Env) (task : Task) (w : World)
    (r : TaskRow) (today : Z) :
  reliable E -> round_trips E -> same_day E today ->
  task_priority task = 1 ->
  w_tasks w !! task_id task = Some r ->
  stored_comment (w_comments w) (task_id task) = None ->
  exists w',
    batch_reschedule_overdue E [task] w = Return w' tt
    /\ counter E (w_comments w') (task_id task) "failures" = 1
    /\ w_tasks w' !! task_id task
       = Some (rescheduled_row r (today + 1) (bare_content (task_content task))).
Proof.
  intros Hrel Hrt Hday Hprio Hrow Hnone.
  assert (stored_record E (w_comments w) (task_id task) = None) as Hrec0.
  { unfold stored_record. by rewrite Hnone. }
  assert (counter E (w_comments w) (task_id task) "failures" = 0) as Hcnt0.
  { unfold counter. by rewrite Hrec0. }
  destruct (mark_failure_ok E Hrel task w r Hrow) as
    (w1 & t & d & stamp & Hmark & Hd & Hc1 & Ht1 & Hl1).
  { unfold countable_record. by rewrite Hrec0. }
  cbv zeta in Hmark, Hc1. rewrite Hcnt0 in Hmark, Hc1. cbn [Z.add] in Hmark, Hc1.
  unfold record_or_default in Hd. rewrite Hrec0 in Hd. injection Hd as <-.
  set (m := {[ "failures" := VInt 1; "last_failed" := VStr stamp ]}
              ∪ default_metadata E t) in *.
  assert (stored_record E (w_comments w1) (task_id task) = Some (ODict m)) as Hrec1.
  { rewrite Hc1. by apply stored_record_write. }
  assert (exists q, true_divide (0 + 1) (1 + 1) = Some q) as [q Hdiv]
    by (eexists; reflexivity).
  destruct (get_success_ratio_ok E Hrel task w1 m 0 1 q Hrec1)
    as (w2 & Hratio & Hc2 & Ht2 & Hl2); [done..|].
  unfold batch_reschedule_overdue. rewrite !filter_cons, !filter_nil, Hprio.
  rewrite decide_False, decide_True by lia.
  cbn [for_each]. unfold bind at 1, ret at 1.
  unfold reschedule_regular. cbn [collect_task_data].
  unfold bind at 1. unfold bind at 1. rewrite Hmark.
  unfold bind at 1. rewrite Hratio. unfold bind at 1, ret at 1, ret at 1.
  cbn [sort_by_success_ratio foldr insert_by_ratio].
  unfold bind at 1, now. cbn [for_each_from].
  unfold bind at 1, spread_step.
  cbn [td_task td_failures].
  rewrite (reschedule_task_ok E _ _ _ _ r);
    [|apply Hrel|by cbn; rewrite Ht2, Ht1].
  eexists. split; [reflexivity|]. cbn [ret w_comments w_tasks logged set_tasks tick].
  split.
  - rewrite Hc2, Hc1, counter_write by done. done.
  - rewrite lookup_insert_eq, date_of_combine_midnight, Hday.
    rewrite rescheduled_content_first. done.
Qed.

(** ** What a method leaves untouched *)

Section Frames.

Context (E : Env).

Lemma untouched_refl (tid : string) (w : World) : untouched E tid w w.
Proof. done. Qed.

Lemma untouched_trans (tid : string) (w1 w2 w3 : World) :
  untouched E tid w1 w2 -> untouched E tid w2 w3 -> untouched E tid w1 w3.
Proof. intros [H1 H2] [H3 H4]. split; congruence. Qed.

Lemma untouched_same (tid : string) (w w' : World) :
  w_comments w' = w_comments w -> w_tasks w' = w_tasks w -> untouched E tid w w'.
Proof. intros Hc Ht. unfold untouched. by rewrite Hc, Ht. Qed.

Lemma leaves_ret {A} (tid : string) (a : A) : leaves E tid (ret a).
Proof. intros w. apply untouched_refl. Qed.

Lemma leaves_raise {A} (tid : string) (e : exn) : leaves E tid (raise (A:=A) e).
Proof. intros w. apply untouched_refl. Qed.

Lemma leaves_bind_post {A B} (tid : string) (Q : A -> Prop) (m : M A) (k : A -> M B) :
  leaves E tid m ->
  (forall w w' a, m w = Return w' a -> Q a) ->
  (forall a, Q a -> leaves E tid (k a)) ->
  leaves E tid (bind m k).
Proof.
  intros Hm Hq Hk w. unfold bind. specialize (Hm w).
  destruct (m w) as [w1 a|w1 e] eqn:Hmw; cbn [world_of] in *; [|done].
  eapply untouched_trans; [exact Hm|]. eapply Hk, Hq, Hmw.
Qed.

Lemma leaves_bind {A B} (tid : string) (m : M A) (k : A -> M B) :
  leaves E tid m -> (forall a, leaves E tid (k a)) -> leaves E tid (bind m k).
Proof.
  intros Hm Hk. apply (leaves_bind_post tid (fun _ => True)); auto.
Qed.


Lemma leaves_for_each_from {A} (tid : string) (i : nat) (l : list A)
    (body : nat -> A -> M unit) :
  (forall j x, x ∈ l -> leaves E tid (body j x)) ->
  leaves E tid (for_each_from i l body).
Proof.
  revert i. induction l as [|x l IH]; intros i Hbody; cbn [for_each_from].
  - apply leaves_ret.
  - apply leaves_bind.
    + apply Hbody. by left.
    + intros _. apply IH. intros j y Hy. apply Hbody. by right.
Qed.

Lemma leaves_now (tid : string) : leaves E tid (now E).
Proof. intros w. by apply untouched_same. Qed.

Lemma leaves_print (tid : string) (l : Line) : leaves E tid (print l).
Proof. intros w. by apply untouched_same. Qed.

Lemma leaves_get_metadata (tid : string) (task : Task) :
  leaves E tid (get_metadata E task).
Proof.
  intros w. rewrite get_metadata_eq.
  by destruct (visible_record E (task_id task) w); apply untouched_same.
Qed.

Lemma leaves_py_get (tid : string) (o : pyobj) (key : string) (v : pyval) :
  leaves E tid (py_get o key v).
Proof. destruct o; [apply leaves_ret|apply leaves_raise]. Qed.

Lemma leaves_py_add1 (tid : string) (v : pyval) : leaves E tid (py_add1 v).
Proof. destruct v; (apply leaves_ret || apply leaves_raise). Qed.

Lemma leaves_get_success_ratio (tid : string) (task : Task) :
  leaves E tid (get_success_ratio E task).
Proof.
  unfold get_success_ratio.
  apply leaves_bind; [apply leaves_get_metadata|]. intros o.
  apply leaves_bind; [apply leaves_py_get|]. intros s.
  apply leaves_bind; [apply leaves_py_get|]. intros f.
  apply leaves_bind; [apply leaves_py_add1|]. intros s1.
  apply leaves_bind; [apply leaves_py_add1|]. intros f1.
  unfold py_truediv. case_decide; [apply leaves_raise|].
  destruct (true_divide s1 f1); [apply leaves_ret|apply leaves_raise].
Qed.

Lemma leaves_reschedule_task (tid : string) (task : Task) (due failures : Z) :
  tid <> task_id task -> leaves E tid (reschedule_task E task due failures).
Proof.
  intros Hne. unfold reschedule_task.
  apply leaves_bind; [|intros _; apply leaves_print].
  intros w. unfold api_update_task, request.
  destruct (env_fault E (w_tick w) _); [by apply untouched_same|].
  change (w_tasks (tick w)) with (w_tasks w).
  destruct (w_tasks w !! task_id task) as [r|]; [|by apply untouched_same].
  split; [done|]. cbn. by rewrite lookup_insert_ne.
Qed.

Context (Hlook : lookup_reliable E) (Hrt : round_trips E).

Lemma leaves_mark_failure (tid : string) (task : Task) :
  tid <> task_id task -> leaves E tid (mark_failure E task).
Proof.
  intros Hne w.
  destruct (mark_failure_cases E Hlook Hrt task w _ eq_refl) as (Ht & Hframe & _).
  split; [by apply Hframe|by rewrite Ht].
Qed.


Lemma leaves_collect_task_data (tid : string) (tasks : list Task) :
  (forall t, t ∈ tasks -> tid <> task_id t) ->
  leaves E tid (collect_task_data E tasks).
Proof.
  induction tasks as [|task tasks IH]; intros Hne; cbn [collect_task_data].
  - apply leaves_ret.
  - apply leaves_bind; [apply leaves_mark_failure, Hne; by left|]. intros n.
    apply leaves_bind; [apply leaves_get_success_ratio|]. intros q.
    apply leaves_bind; [|intros l; apply leaves_ret].
    apply IH. intros t Ht. apply Hne. by right.
Qed.

Lemma collect_task_data_tasks (tasks : list Task) (w w' : World)
    (task_data : list TaskData) :
  collect_task_data E tasks w = Return w' task_data ->
  forall data, data ∈ task_data -> td_task data ∈ tasks.
Proof.
  revert w w' task_data.
  induction tasks as [|task tasks IH]; intros w w' task_data; cbn [collect_task_data].
  - intros [= _ <-] data Hin. by apply elem_of_nil in Hin.
  - unfold bind at 1. destruct (mark_failure E task w) as [w1 n|]; [|done].
    unfold bind at 1. destruct (get_success_ratio E task w1) as [w2 q|]; [|done].
    unfold bind at 1.
    destruct (collect_task_data E tasks w2) as [w3 l|] eqn:Hrest; [|done].
    intros [= _ <-] data Hin. apply elem_of_cons in Hin as [->|Hin].
    + by left.
    + right. by eapply IH.
Qed.

Lemma elem_of_insert_by_ratio (x data : TaskData) (l : list TaskData) :
  data ∈ insert_by_ratio x l -> data = x \/ data ∈ l.
Proof.
  induction l as [|y l IH]; cbn [insert_by_ratio].
  - intros Hin. apply list_elem_of_singleton in Hin. by left.
  - destruct (Qle_bool _ _).
    + intros Hin. apply elem_of_cons in Hin as [->|Hin]; auto.
    + intros Hin. apply elem_of_cons in Hin as [->|Hin].
      * right. by left.
      * destruct (IH Hin) as [->|Hl]; [by left|]. right. by right.
Qed.

Lemma elem_of_sort_by_success_ratio (data : TaskData) (l : list TaskData) :
  data ∈ sort_by_success_ratio l -> data ∈ l.
Proof.
  induction l as [|x l IH]; [done|]. cbn [sort_by_success_ratio foldr].
  intros Hin. apply elem_of_insert_by_ratio in Hin as [->|Hin].
  - by left.
  - right. by apply IH.
Qed.

Lemma leaves_reschedule_regular (tid : string) (tasks : list Task) :
  (forall t, t ∈ tasks -> tid <> task_id t) ->
  leaves E tid (reschedule_regular E tasks).
Proof.
  intros Hne. unfold reschedule_regular.
  apply (leaves_bind_post tid (fun l => forall data, data ∈ l -> td_task data ∈ tasks)).
  - by apply leaves_collect_task_data.
  - intros w w' l. apply collect_task_data_tasks.
  - intros l Hl. apply leaves_bind; [apply leaves_now|]. intros t.
    apply leaves_for_each_from. intros j data Hin.
    apply leaves_reschedule_task, Hne, Hl.
    by apply elem_of_sort_by_success_ratio.
Qed.

End Frames.

(** ** Urgent tasks *)


Lemma fmap_inj_NoDup {A B} (f : A -> B) (l : list A) (x y : A) :
  NoDup (f <$> l) -> x ∈ l -> y ∈ l -> f x = f y -> x = y.
Proof.
  induction l as [|z l IH]; intros Hnd Hx Hy Heq.
  { by apply elem_of_nil in Hx. }
  rewrite fmap_cons in Hnd. apply list.NoDup_cons in Hnd as [Hz Hnd].
  apply elem_of_cons in Hx as [->|Hx]; apply elem_of_cons in Hy as [->|Hy].
  - done.
  - exfalso. apply Hz. rewrite Heq. by apply list_elem_of_fmap_2.
  - exfalso. apply Hz. rewrite <- Heq. by apply list_elem_of_fmap_2.
  - by apply IH.
Qed.

Section Urgent.

Context (E : Env) (Hrel : reliable E) (Hrt : round_trips E).
Context (today : Z) (Hday : same_day E today).

Lemma counter_untouched (tid key : string) (w w' : World) :
  untouched E tid w w' ->
  counter E (w_comments w') tid key = counter E (w_comments w) tid key.
Proof. intros [Hrec _]. unfold counter. by rewrite Hrec. Qed.

Lemma countable_record_untouched (tid key : string) (w w' : World) :
  untouched E tid w w' ->
  countable_record E (w_comments w) tid key ->
  countable_record E (w_comments w') tid key.
Proof. intros [Hrec _]. unfold countable_record. by rewrite Hrec. Qed.



End Urgent.


(** ** Replaying a completion when no request fails *)

Section Replay.

Context (E : Env) (Hrel : reliable E) (Hrt : round_trips E).
Context (task : Task) (c : Z) (Hdone : task_completed_at task = Some c).







End Replay.


(** * Concrete runs *)

Lemma delay_of_first_failure_is_one_day :
  date_of (env_time (ref_env no_fault) 0) = 20000
  /\ row_due <$> (w_tasks (world_of (batch_reschedule_overdue (ref_env no_fault)
                                       [regular_task] two_tasks_world)) !! "A")
     = Some (Some (20000 + 1))
  /\ row_due <$> (w_tasks (world_of (batch_reschedule_overdue (ref_env no_fault)
                                       [regular_task] two_tasks_world)) !! "A")
     <> Some (Some 20000).
Proof. vm_compute. by repeat split. Qed.

Lemma first_failure_of_regular_task_witness :
  task_priority regular_task = 1
  /\ w_tasks two_tasks_world !! task_id regular_task
     = Some (example_row "Water plants" 1)
  /\ stored_comment (w_comments two_tasks_world) (task_id regular_task) = None
  /\ exists w',
       batch_reschedule_overdue (ref_env no_fault) [regular_task] two_tasks_world
       = Return w' tt
       /\ counter (ref_env no_fault) (w_comments w') (task_id regular_task) "failures" = 1
       /\ w_tasks w' !! task_id regular_task
          = Some (rescheduled_row (example_row "Water plants" 1) (20000 + 1)
                    (bare_content (task_content regular_task))).
Proof.
  assert (w_tasks two_tasks_world !! task_id regular_task
          = Some (example_row "Water plants" 1)) as Hrow by (vm_compute; reflexivity).
  assert (stored_comment (w_comments two_tasks_world) (task_id regular_task) = None)
    as Hnone by (vm_compute; reflexivity).
  split; [reflexivity|]. split; [exact Hrow|]. split; [exact Hnone|].
  exact (first_failure_of_regular_task (ref_env no_fault) regular_task
           two_tasks_world (example_row "Water plants" 1) 20000
           no_fault_reliable (ref_env_round_trips no_fault)
           (ref_env_same_day no_fault) eq_refl Hrow Hnone).
Defined.

(** C2: [update_metadata] catches and prints the error of a failing
    write, but [reschedule_task] calls [update_task] outside any [try]:
    when the update of task A fails, the exception leaves the batch, and
    task B, whose failure has already been counted, keeps its old due
    date. *)
Lemma update_task_error_aborts_batch :
  exists w',
    batch_reschedule_overdue (ref_env (update_task_fails "A")) two_tasks two_tasks_world
    = Raise w' (ApiError (UpdateTask "A"))
    /\ w_tasks w' !! "B" = Some (example_row "Call bank" 1)
    /\ counter (ref_env (update_task_fails "A")) (w_comments w') "B" "failures" = 1.
Proof.
  eexists. split; [vm_compute; reflexivity|]. vm_compute. by split.
Qed.

Lemma batch_update_errors_witness :
  3 <= task_priority urgent_task
  /\ mark_failure (ref_env (update_task_fails "A")) urgent_task urgent_world
     = Return (world_of (mark_failure (ref_env (update_task_fails "A"))
                           urgent_task urgent_world)) 3
  /\ env_fault (ref_env (update_task_fails "A"))
       (S (w_tick (world_of (mark_failure (ref_env (update_task_fails "A"))
                               urgent_task urgent_world))))
       (UpdateTask (task_id urgent_task)) = true
  /\ exists w2,
       batch_reschedule_overdue (ref_env (update_task_fails "A"))
         (urgent_task :: [example_task "B" "Call bank" 1]) urgent_world
       = Raise w2 (ApiError (UpdateTask (task_id urgent_task)))
       /\ w_comments w2
          = w_comments (world_of (mark_failure (ref_env (update_task_fails "A"))
                                    urgent_task urgent_world)).
Proof.
  assert (3 <= task_priority urgent_task) as H1 by (vm_compute; discriminate).
  assert (mark_failure (ref_env (update_task_fails "A")) urgent_task urgent_world
          = Return (world_of (mark_failure (ref_env (update_task_fails "A"))
                                urgent_task urgent_world)) 3) as H2
    by (vm_compute; reflexivity).
  assert (env_fault (ref_env (update_task_fails "A"))
            (S (w_tick (world_of (mark_failure (ref_env (update_task_fails "A"))
                                    urgent_task urgent_world))))
            (UpdateTask (task_id urgent_task)) = true) as H3
    by (vm_compute; reflexivity).
  split; [exact H1|]. split; [exact H2|]. split; [exact H3|].
  destruct (batch_update_errors (ref_env (update_task_fails "A")) urgent_task
              [example_task "B" "Call bank" 1] urgent_world _ 3 H1 H2 H3)
    as (_ & _ & w2 & Hraise & Hc & _).
  exists w2. by split.
Defined.

(** C3: the docstring of [batch_reschedule_overdue] promises one task
    per day, and no task is rescheduled sooner than its backoff allows;
    but the loop gives two distinct regular tasks that have just failed
    for the first time the same day, one day after today. *)
Lemma two_tasks_share_a_day :
  task_id (example_task "A" "Water plants" 1) <> task_id (example_task "B" "Call bank" 1)
  /\ row_due <$> (w_tasks (world_of (batch_reschedule_overdue (ref_env no_fault)
                                       two_tasks two_tasks_world)) !! "A")
     = Some (Some (20000 + 1))
  /\ row_due <$> (w_tasks (world_of (batch_reschedule_overdue (ref_env no_fault)
                                       two_tasks two_tasks_world)) !! "B")
     = Some (Some (20000 + 1)).
Proof. vm_compute. by repeat split. Qed.

Lemma two_task_data_ids :
  NoDup ((fun data => task_id (td_task data)) <$> two_task_data).
Proof.
  change (NoDup ["A"; "B"]).
  apply NoDup_cons_2; [|apply NoDup_singleton].
  intros Hin. by apply list_elem_of_singleton in Hin.
Defined.

Lemma two_task_data_rows (data : TaskData) :
  data ∈ two_task_data -> is_Some (w_tasks two_tasks_world !! task_id (td_task data)).
Proof.
  intros Hin. unfold two_task_data in Hin.
  apply elem_of_cons in Hin as [->|Hin]; [by eexists; vm_compute|].
  apply list_elem_of_singleton in Hin as ->. by eexists; vm_compute.
Defined.

Lemma spread_guarantees_witness :
  reliable (ref_env no_fault)
  /\ NoDup ((fun data => task_id (td_task data)) <$> two_task_data)
  /\ (forall data, data ∈ two_task_data ->
        is_Some (w_tasks two_tasks_world !! task_id (td_task data)))
  /\ exists w',
       for_each_from 0 two_task_data (spread_step (ref_env no_fault) 20000)
         two_tasks_world = Return w' tt
       /\ exists offset,
            row_due <$> (w_tasks w' !! "B") = Some (Some (20000 + offset))
            /\ 24 `div` 24 <= offset /\ Z.of_nat 1 <= offset.
Proof.
  split; [exact no_fault_reliable|]. split; [exact two_task_data_ids|].
  split; [exact two_task_data_rows|].
  destruct (spread_guarantees (ref_env no_fault) 20000 two_task_data two_tasks_world
              no_fault_reliable two_task_data_ids two_task_data_rows)
    as (w' & Hrun & Hoffsets & _).
  exists w'. split; [exact Hrun|]. exact (Hoffsets 1%nat _ eq_refl).
Defined.

Lemma rank_offsets_witness :
  reliable (ref_env no_fault)
  /\ NoDup ((fun data => task_id (td_task data)) <$> two_task_data)
  /\ (forall data, data ∈ two_task_data ->
        is_Some (w_tasks two_tasks_world !! task_id (td_task data)))
  /\ exists w',
       for_each_from 0 two_task_data (spread_step (ref_env no_fault) 20000)
         two_tasks_world = Return w' tt
       /\ row_due <$> (w_tasks w' !! "A")
          = Some (Some (20000 + Z.max (24 `div` 24) (Z.of_nat 0)))
       /\ row_due <$> (w_tasks w' !! "B")
          = Some (Some (20000 + Z.max (24 `div` 24) (Z.of_nat 1))).
Proof.
  split; [exact no_fault_reliable|]. split; [exact two_task_data_ids|].
  split; [exact two_task_data_rows|].
  destruct (rank_offsets (ref_env no_fault) 20000 two_task_data two_tasks_world
              no_fault_reliable two_task_data_ids two_task_data_rows)
    as ((w' & Hrun & Hdue) & _).
  exists w'. split; [exact Hrun|].
  split; [exact (Hdue 0%nat _ eq_refl)|exact (Hdue 1%nat _ eq_refl)].
Defined.






(** The ranking compares floats.  The quotients [2 ** 54 / 2],
    [(2 ** 54 + 2) / 2] and [(2 ** 54 + 1) / 2] all round to [2 ** 53]:
    the three tasks tie, keep their input order, and the last one is the
    one pushed to the day after tomorrow. *)
Lemma float_ties_keep_input_order :
  ranked_ratios (ref_env no_fault) tied_tasks tied_world
  = [inject_Z (2 ^ 53); inject_Z (2 ^ 53); inject_Z (2 ^ 53)]
  /\ w_console (world_of (batch_reschedule_overdue (ref_env no_fault) tied_tasks
                            tied_world))
     = [Rescheduled "Water plants" (20000 + 1) 1;
        Rescheduled "Call bank" (20000 + 1) 1;
        Rescheduled "File taxes" (20000 + 2) 1].
Proof. vm_compute. by split. Qed.




Lemma failed_lookup_lowers_counter :
  round_trips (ref_env first_lookup_fails)
  /\ counter (ref_env first_lookup_fails) (w_comments completed_world) "A" "failures"
     = 5
  /\ counter (ref_env first_lookup_fails)
       (w_comments (perform (ref_env first_lookup_fails) (MarkFailure completed_task)
                      completed_world))
       "A" "failures"
     = 1.
Proof.
  split; [apply ref_env_round_trips|]. vm_compute. by split.
Qed.

Lemma counters_never_decrease_witness :
  lookup_reliable (ref_env no_fault)
  /\ round_trips (ref_env no_fault)
  /\ counter (ref_env no_fault) (w_comments completed_world) "A" "failures"
     <= counter (ref_env no_fault)
          (w_comments (perform_all (ref_env no_fault)
                         [MarkFailure completed_task; TrackCompletion completed_task;
                          MarkFailure completed_task]
                         completed_world))
          "A" "failures".
Proof.
  split; [exact (reliable_lookup _ no_fault_reliable)|].
  split; [exact (ref_env_round_trips no_fault)|].
  exact (counters_never_decrease (ref_env no_fault)
           [MarkFailure completed_task; TrackCompletion completed_task;
            MarkFailure completed_task]
           completed_world "A" "failures"
           (reliable_lookup _ no_fault_reliable) (ref_env_round_trips no_fault)
           (or_introl eq_refl)).
Defined.

Lemma comment_writes_fail_only : only_comment_writes_fail (ref_env comment_writes_fail).
Proof. by intros n c. Defined.

Lemma unpersisted_record_is_returned_witness :
  only_comment_writes_fail (ref_env comment_writes_fail)
  /\ w_tasks urgent_world !! task_id urgent_task = Some (example_row "Renew passport" 4)
  /\ countable_record (ref_env comment_writes_fail) (w_comments urgent_world)
       (task_id urgent_task) "failures"
  /\ counter (ref_env comment_writes_fail) (w_comments urgent_world)
       (task_id urgent_task) "failures" = 2
  /\ exists w',
       mark_failure (ref_env comment_writes_fail) urgent_task urgent_world
       = Return w' (counter (ref_env comment_writes_fail) (w_comments urgent_world)
                      (task_id urgent_task) "failures" + 1)
       /\ w_comments w' = w_comments urgent_world
       /\ counter (ref_env comment_writes_fail) (w_comments w')
            (task_id urgent_task) "failures"
          = counter (ref_env comment_writes_fail) (w_comments urgent_world)
              (task_id urgent_task) "failures".
Proof.
  assert (w_tasks urgent_world !! task_id urgent_task
          = Some (example_row "Renew passport" 4)) as Hrow
    by (vm_compute; reflexivity).
  assert (countable_record (ref_env comment_writes_fail) (w_comments urgent_world)
            (task_id urgent_task) "failures") as Hok
    by (vm_compute; by eexists).
  split; [exact comment_writes_fail_only|]. split; [exact Hrow|].
  split; [exact Hok|]. split; [vm_compute; reflexivity|].
  destruct (unpersisted_record_is_returned (ref_env comment_writes_fail) urgent_task
              urgent_world (example_row "Renew passport" 4)
              {[ "successes" := VInt 1 ]} comment_writes_fail_only Hrow Hok)
    as [_ Hmark].
  exact Hmark.
Defined.

(** * Further properties *)

(** ** The sort of the regular tasks *)

Lemma insert_by_ratio_perm (x : TaskData) (l : list TaskData) :
  insert_by_ratio x l ≡ₚ x :: l.
Proof.
  induction l as [|y l IH]; [done|]. cbn [insert_by_ratio].
  destruct (Qle_bool _ _); [done|].
  rewrite IH. apply Permutation_swap.
Qed.

(** X1: sorting the collected task data neither drops nor duplicates a
    task: the sorted list is a permutation of the collected one. *)
Theorem sort_by_success_ratio_perm (l : list TaskData) :
  sort_by_success_ratio l ≡ₚ l.
Proof.
  induction l as [|x l IH]; [done|]. cbn [sort_by_success_ratio foldr].
  rewrite insert_by_ratio_perm. by apply Permutation_skip.
Qed.

Lemma insert_by_ratio_sorted (x : TaskData) (l : list TaskData) :
  StronglySorted ratio_ge l -> StronglySorted ratio_ge (insert_by_ratio x l).
Proof.
  induction 1 as [|y l Hsorted IH Hall]; cbn [insert_by_ratio].
  { repeat constructor. }
  destruct (Qle_bool (td_success_ratio y) (td_success_ratio x)) eqn:Hle.
  - apply Qle_bool_iff in Hle. constructor; [by constructor|].
    constructor; [done|].
    eapply Forall_impl; [exact Hall|]. intros z Hz. unfold ratio_ge in *.
    by eapply Qle_trans.
  - assert (td_success_ratio x <= td_success_ratio y)%Q as Hxy.
    { apply Qlt_le_weak, Qnot_le_lt. intros Hyx.
      apply Qle_bool_iff in Hyx. congruence. }
    constructor; [done|].
    rewrite insert_by_ratio_perm. by constructor.
Qed.

(** X2: the sorted list is in descending order of success ratio: no task
    is ranked before a task with a strictly higher ratio. *)
Theorem sort_by_success_ratio_descending (l : list TaskData) :
  StronglySorted ratio_ge (sort_by_success_ratio l).
Proof.
  induction l as [|x l IH]; [constructor|].
  cbn [sort_by_success_ratio foldr]. by apply insert_by_ratio_sorted.
Qed.

Lemma with_ratio_insert (q : Q) (x : TaskData) (l : list TaskData) :
  with_ratio q (insert_by_ratio x l)
  = if Qeq_bool (td_success_ratio x) q then x :: with_ratio q l else with_ratio q l.
Proof.
  unfold with_ratio. induction l as [|y l IH]; [done|]. cbn [insert_by_ratio].
  destruct (Qle_bool (td_success_ratio y) (td_success_ratio x)) eqn:Hle; [done|].
  cbn [List.filter]. rewrite IH.
  destruct (Qeq_bool (td_success_ratio x) q) eqn:Hx; [|done].
  destruct (Qeq_bool (td_success_ratio y) q) eqn:Hy; [|done].
  exfalso. apply Qeq_bool_iff in Hx, Hy.
  assert (Qle_bool (td_success_ratio y) (td_success_ratio x) = true); [|congruence].
  apply Qle_bool_iff. rewrite Hx, Hy. apply Qle_refl.
Qed.

(** X3: the sort is stable: the tasks that share a success ratio keep the
    order in which they were collected. *)
Theorem sort_by_success_ratio_stable (q : Q) (l : list TaskData) :
  with_ratio q (sort_by_success_ratio l) = with_ratio q l.
Proof.
  induction l as [|x l IH]; [done|]. cbn [sort_by_success_ratio foldr].
  rewrite with_ratio_insert. fold (sort_by_success_ratio l). rewrite IH.
  unfold with_ratio. cbn [List.filter]. done.
Qed.

(** ** Backoff in whole days *)

(** X4: from the first failure on the backoff is a whole number of days,
    1, 2, 4 and then 7: [delay_hours // 24] loses nothing and lies
    between 1 and 7. *)
Theorem delay_in_whole_days (failures : Z) :
  1 <= failures ->
  calculate_delay_hours failures = 24 * Z.min (2 ^ (failures - 1)) 7
  /\ calculate_delay_hours failures `div` 24 = Z.min (2 ^ (failures - 1)) 7
  /\ 1 <= calculate_delay_hours failures `div` 24 <= 7.
Proof.
  intros Hf.
  assert (1 <= 2 ^ (failures - 1)) as Hpow.
  { change 1 with (2 ^ 0) at 1. apply Z.pow_le_mono_r; lia. }
  assert (calculate_delay_hours failures = 24 * Z.min (2 ^ (failures - 1)) 7) as Heq.
  { unfold calculate_delay_hours. lia. }
  split; [done|]. rewrite Heq, Z.mul_comm, Z.div_mul by done. lia.
Qed.

Lemma delay_in_whole_days_witness :
  1 <= 3
  /\ calculate_delay_hours 3 = 24 * Z.min (2 ^ (3 - 1)) 7
  /\ calculate_delay_hours 3 `div` 24 = 4.
Proof.
  destruct (delay_in_whole_days 3 ltac:(lia)) as (H1 & H2 & _).
  split; [lia|]. split; [exact H1|exact H2].
Defined.

(** ** The content written by [reschedule_task] *)

Lemma app_cons (c : ascii) (a b : string) : String c a ++ b = String c (a ++ b).
Proof. reflexivity. Qed.

Lemma startswith_cons (c1 c2 : ascii) (m s : string) :
  startswith (String c1 m) (String c2 s) = true <-> c1 = c2 /\ startswith m s = true.
Proof.
  unfold startswith. cbn [String.prefix].
  destruct (ascii_dec c1 c2); split; (congruence || (by intros [? ?]) || done).
Qed.

Lemma startswith_empty (s : string) : startswith "" s = true.
Proof. by destruct s. Qed.

Lemma startswith_app (m s : string) : startswith m (m ++ s) = true.
Proof.
  induction m as [|c m IH]; [apply startswith_empty|]. rewrite app_cons.
  by apply startswith_cons.
Qed.

Lemma startswith_mono (m a b : string) :
  startswith m a = true -> startswith m (a ++ b) = true.
Proof.
  revert a. induction m as [|c m IH]; intros a Ha; [apply startswith_empty|].
  destruct a as [|c2 a]; [done|]. rewrite app_cons.
  apply startswith_cons in Ha as [-> Ha]. apply startswith_cons. auto.
Qed.

Lemma split_head_is_prefix (sep s : string) :
  exists r, s = split_head sep s ++ r.
Proof.
  induction s as [|c s [r IH]]; [by exists ""|]. cbn [split_head].
  destruct (startswith sep (String c s)); [by eexists|].
  exists r. rewrite app_cons. by rewrite <- IH.
Qed.

Lemma split_head_no_occurrence (c : ascii) (sep s : string) :
  occurs (String c sep) (split_head (String c sep) s) = false.
Proof.
  induction s as [|c2 s IH]; [done|]. cbn [split_head].
  destruct (startswith (String c sep) (String c2 s)) eqn:Hs; [done|].
  cbn [occurs]. rewrite IH, orb_false_r.
  destruct (startswith _ (String c2 (split_head _ s))) eqn:Hcut; [|done].
  destruct (split_head_is_prefix (String c sep) s) as [r Hr].
  apply (startswith_mono _ _ r) in Hcut. rewrite app_cons, <- Hr in Hcut.
  congruence.
Qed.

Lemma occurs_cons (m : string) (c : ascii) (s : string) :
  occurs m (String c s) = false ->
  startswith m (String c s) = false /\ occurs m s = false.
Proof. cbn [occurs]. by intros [? ?]%orb_false_iff. Qed.

Lemma replace_no_occurrence (m new s : string) :
  occurs m s = false -> replace m new s = s.
Proof.
  unfold replace. induction s as [|c s IH]; [done|].
  intros [Hs Hrest]%occurs_cons. cbn [replace_from]. rewrite Hs.
  by rewrite IH.
Qed.

Lemma split_head_no_occurrence_id (sep s : string) :
  occurs sep s = false -> split_head sep s = s.
Proof.
  induction s as [|c s IH]; [done|].
  intros [Hs Hrest]%occurs_cons. cbn [split_head]. rewrite Hs.
  by rewrite IH.
Qed.

(** A match that starts inside [t] and runs into what follows needs the
    first character that follows. *)
Lemma startswith_straddle (m t : string) (ch : ascii) (b : string) :
  startswith m (t ++ String ch b) = true ->
  startswith m t = true \/ has_char ch m = true.
Proof.
  revert t. induction m as [|c m IH]; intros t.
  { left. apply startswith_empty. }
  destruct t as [|c2 t].
  - intros [-> _]%startswith_cons. right. cbn. by rewrite Ascii.eqb_refl.
  - rewrite app_cons. intros [-> Hm]%startswith_cons.
    destruct (IH _ Hm) as [Ht|Hch].
    + left. by apply startswith_cons.
    + right. cbn. by rewrite Hch, orb_true_r.
Qed.

Lemma startswith_straddle_tail (c : ascii) (m : string) (c2 : ascii) (t : string)
    (ch : ascii) (b : string) :
  startswith (String c m) (String c2 t ++ String ch b) = true ->
  startswith (String c m) (String c2 t) = true \/ has_char ch m = true.
Proof.
  rewrite app_cons. intros [-> Hm]%startswith_cons.
  destruct (startswith_straddle _ _ _ _ Hm) as [Ht|Hch]; [|by right].
  left. by apply startswith_cons.
Qed.

Lemma replace_app_clean (m new a : string) (ch : ascii) (b : string) :
  occurs m a = false -> has_char ch m = false ->
  replace m new (a ++ String ch b) = a ++ replace m new (String ch b).
Proof.
  intros Ha Hch. unfold replace. induction a as [|c a IH]; [done|].
  apply occurs_cons in Ha as [Hs Ha]. rewrite !app_cons. cbn [replace_from].
  destruct (startswith m (String c (a ++ String ch b))) eqn:Hm.
  - rewrite <- app_cons in Hm.
    destruct (startswith_straddle _ _ _ _ Hm); congruence.
  - by rewrite IH.
Qed.

Lemma split_head_app (c : ascii) (sep a rest : string) :
  occurs (String c sep) a = false -> has_char c sep = false ->
  split_head (String c sep) (a ++ String c sep ++ rest) = a.
Proof.
  intros Ha Hc. induction a as [|c2 a IH].
  - change ("" ++ String c sep ++ rest) with (String c (sep ++ rest)).
    cbn [split_head].
    pose proof (startswith_app (String c sep) rest) as Hstart.
    rewrite app_cons in Hstart. by rewrite Hstart.
  - apply occurs_cons in Ha as [Hs Ha]. rewrite app_cons. cbn [split_head].
    destruct (startswith (String c sep) (String c2 (a ++ String c sep ++ rest)))
      eqn:Hm.
    + rewrite <- app_cons in Hm.
      change (String c sep ++ rest) with (String c (sep ++ rest)) in Hm.
      destruct (startswith_straddle_tail _ _ _ _ _ _ Hm); congruence.
    + by rewrite IH.
Qed.

Lemma replace_from_skip (old new x s : string) :
  replace_from old new (String.length x) (x ++ s) = replace_from old new 0 s.
Proof. induction x as [|c x IH]; [done|]. rewrite app_cons. exact IH. Qed.

(** [(old + s).replace(old, new) = new + s.replace(old, new)] *)
Lemma replace_prefix (c : ascii) (m new s : string) :
  replace (String c m) new (String c m ++ s)
  = new ++ replace (String c m) new s.
Proof.
  unfold replace. rewrite app_cons. cbn [replace_from].
  pose proof (startswith_app (String c m) s) as Hstart.
  rewrite app_cons in Hstart. rewrite Hstart.
  cbn [String.length Nat.pred]. by rewrite replace_from_skip.
Qed.

Lemma replace_marker_prefix (s : string) :
  replace retry_marker "" (retry_marker ++ s) = replace retry_marker "" s.
Proof. apply (replace_prefix _ _ ""). Qed.

Lemma replace_marker_failed (rest : string) :
  replace retry_marker "" (" (Failed" ++ rest)
  = " (Failed" ++ replace retry_marker "" rest.
Proof. reflexivity. Qed.

Lemma bare_content_clean (content : string) :
  occurs " (Failed" (bare_content content) = false.
Proof. apply split_head_no_occurrence. Qed.

Lemma bare_content_marked (bare rest : string) :
  occurs retry_marker bare = false ->
  occurs " (Failed" bare = false ->
  bare_content (bare ++ " (Failed" ++ rest) = bare.
Proof.
  intros Hmarker Hfailed. unfold bare_content.
  change (" (Failed" ++ rest) with (String " " ("(Failed" ++ rest)).
  rewrite replace_app_clean by done.
  change (String " " ("(Failed" ++ rest)) with (" (Failed" ++ rest).
  rewrite replace_marker_failed.
  by apply (split_head_app " " "(Failed").
Qed.

(** X5: rescheduling does not pile up markers.  When the bare content
    of a task holds no retry marker, the text written for it has the same
    bare content, so rescheduling the rewritten task once more gives
    exactly what rescheduling the original with the new count gives. *)
Theorem rescheduled_content_no_pile_up (content : string) (failures again : Z) :
  occurs retry_marker (bare_content content) = false ->
  bare_content (rescheduled_content content failures) = bare_content content
  /\ rescheduled_content (rescheduled_content content failures) again
     = rescheduled_content content again.
Proof.
  intros Hclean.
  assert (bare_content (rescheduled_content content failures)
          = bare_content content) as Hbare.
  { pose proof (bare_content_clean content) as Hfailed.
    unfold rescheduled_content.
    destruct (decide (1 < failures)) as [Hmany|Hfew].
    - change (failed_suffix failures)
        with (" (Failed" ++ (" " ++ pretty failures ++ "x)")).
      destruct (decide (3 <= failures)).
      + unfold bare_content at 1. rewrite replace_marker_prefix.
        by apply bare_content_marked.
      + by apply bare_content_marked.
    - rewrite decide_False by lia. rewrite append_empty_r.
      change ("" ++ bare_content content) with (bare_content content).
      unfold bare_content at 1.
      rewrite replace_no_occurrence by done.
      by apply split_head_no_occurrence_id. }
  split; [done|].
  unfold rescheduled_content at 1 3. by rewrite Hbare.
Qed.

Lemma rescheduled_content_no_pile_up_witness :
  occurs retry_marker (bare_content "Pay rent (Failed 2x)") = false
  /\ bare_content (rescheduled_content "Pay rent (Failed 2x)" 3) = "Pay rent"
  /\ rescheduled_content (rescheduled_content "Pay rent (Failed 2x)" 3) 4
     = rescheduled_content "Pay rent (Failed 2x)" 4.
Proof.
  assert (occurs retry_marker (bare_content "Pay rent (Failed 2x)") = false) as H
    by (vm_compute; reflexivity).
  destruct (rescheduled_content_no_pile_up "Pay rent (Failed 2x)" 3 4 H) as [H1 H2].
  split; [exact H|]. split; [|exact H2].
  rewrite H1. vm_compute. reflexivity.
Defined.

(** ** What no method ever does *)

Section Keeps.

Context (E : Env) (R : World -> World -> Prop) `{!PreOrder R}.

Lemma keeps_ret {A} (a : A) : keeps R (ret a).
Proof. intros w. reflexivity. Qed.

Lemma keeps_raise {A} (e : exn) : keeps R (raise (A:=A) e).
Proof. intros w. reflexivity. Qed.

Lemma keeps_bind {A B} (m : M A) (k : A -> M B) :
  keeps R m -> (forall a, keeps R (k a)) -> keeps R (bind m k).
Proof.
  intros Hm Hk w. unfold bind. specialize (Hm w).
  destruct (m w) as [w1 a|w1 e]; cbn [world_of] in *; [|done].
  etrans; [exact Hm|]. apply Hk.
Qed.

Lemma keeps_try_except {A} (body : M A) (handler : exn -> M A) :
  keeps R body -> (forall e, keeps R (handler e)) -> keeps R (try_except body handler).
Proof.
  intros Hbody Hhandler w. unfold try_except. specialize (Hbody w).
  destruct (body w) as [w1 a|w1 e]; cbn [world_of] in *; [done|].
  etrans; [exact Hbody|]. apply Hhandler.
Qed.

Lemma keeps_for_each {A} (l : list A) (body : A -> M unit) :
  (forall x, keeps R (body x)) -> keeps R (for_each l body).
Proof.
  intros Hbody. induction l as [|x l IH]; cbn [for_each].
  - apply keeps_ret.
  - apply keeps_bind; auto.
Qed.

Lemma keeps_for_each_from {A} (i : nat) (l : list A) (body : nat -> A -> M unit) :
  (forall j x, keeps R (body j x)) -> keeps R (for_each_from i l body).
Proof.
  intros Hbody. revert i. induction l as [|x l IH]; intros i; cbn [for_each_from].
  - apply keeps_ret.
  - apply keeps_bind; auto.
Qed.

Context (Hdata : forall w w', w_comments w' = w_comments w ->
                               w_tasks w' = w_tasks w -> R w w').
Context (Hupdate : forall tid due content,
            keeps R (api_update_task E tid due content)).
Context (Hpersist : forall tid m, keeps R (persist_metadata E tid m)).

Lemma keeps_now : keeps R (now E).
Proof. intros w. by apply Hdata. Qed.

Lemma keeps_print (l : Line) : keeps R (print l).
Proof. intros w. by apply Hdata. Qed.

Lemma keeps_get_metadata (task : Task) : keeps R (get_metadata E task).
Proof.
  intros w. rewrite get_metadata_eq.
  by destruct (visible_record E (task_id task) w); apply Hdata.
Qed.

Lemma keeps_api_get_task (tid : string) : keeps R (api_get_task E tid).
Proof.
  intros w. unfold api_get_task, request.
  destruct (env_fault E (w_tick w) _); [by apply Hdata|].
  change (w_tasks (tick w)) with (w_tasks w).
  by destruct (w_tasks w !! tid); apply Hdata.
Qed.

Lemma keeps_py_get (o : pyobj) (key : string) (v : pyval) : keeps R (py_get o key v).
Proof. destruct o; [apply keeps_ret|apply keeps_raise]. Qed.

Lemma keeps_py_add1 (v : pyval) : keeps R (py_add1 v).
Proof. destruct v; (apply keeps_ret || apply keeps_raise). Qed.

Lemma keeps_update_metadata (tid : string) (updates : gmap string pyval) :
  keeps R (update_metadata E tid updates).
Proof.
  unfold update_metadata.
  apply keeps_bind; [apply keeps_api_get_task|]. intros task.
  apply keeps_bind; [apply keeps_get_metadata|]. intros o.
  apply keeps_bind.
  { destruct o; [apply keeps_ret|apply keeps_raise]. }
  intros m. apply keeps_bind; [apply Hpersist|]. intros _. apply keeps_ret.
Qed.

Lemma keeps_mark_failure (task : Task) : keeps R (mark_failure E task).
Proof.
  unfold mark_failure.
  apply keeps_bind; [apply keeps_get_metadata|]. intros o.
  apply keeps_bind; [apply keeps_py_get|]. intros v.
  apply keeps_bind; [apply keeps_py_add1|]. intros n.
  apply keeps_bind; [apply keeps_now|]. intros t.
  apply keeps_bind; [apply keeps_update_metadata|]. intros _. apply keeps_ret.
Qed.

Lemma keeps_get_success_ratio (task : Task) : keeps R (get_success_ratio E task).
Proof.
  unfold get_success_ratio.
  apply keeps_bind; [apply keeps_get_metadata|]. intros o.
  apply keeps_bind; [apply keeps_py_get|]. intros s.
  apply keeps_bind; [apply keeps_py_get|]. intros f.
  apply keeps_bind; [apply keeps_py_add1|]. intros s1.
  apply keeps_bind; [apply keeps_py_add1|]. intros f1.
  unfold py_truediv. case_decide; [apply keeps_raise|].
  destruct (true_divide s1 f1); [apply keeps_ret|apply keeps_raise].
Qed.

Lemma keeps_reschedule_task (task : Task) (due failures : Z) :
  keeps R (reschedule_task E task due failures).
Proof.
  unfold reschedule_task.
  apply keeps_bind; [apply Hupdate|]. intros _. apply keeps_print.
Qed.

Lemma keeps_collect_task_data (tasks : list Task) :
  keeps R (collect_task_data E tasks).
Proof.
  induction tasks as [|task tasks IH]; cbn [collect_task_data].
  - apply keeps_ret.
  - apply keeps_bind; [apply keeps_mark_failure|]. intros n.
    apply keeps_bind; [apply keeps_get_success_ratio|]. intros q.
    apply keeps_bind; [apply IH|]. intros l. apply keeps_ret.
Qed.

Lemma keeps_batch (tasks : list Task) :
  keeps R (batch_reschedule_overdue E tasks).
Proof.
  unfold batch_reschedule_overdue.
  destruct tasks as [|task tasks]; [apply keeps_ret|].
  apply keeps_bind.
  { apply keeps_for_each. intros x. unfold reschedule_urgent.
    apply keeps_bind; [apply keeps_mark_failure|]. intros n.
    apply keeps_bind; [apply keeps_now|]. intros t.
    apply keeps_reschedule_task. }
  intros _. destruct (filter _ _) as [|r rs]; [apply keeps_ret|].
  unfold reschedule_regular.
  apply keeps_bind; [apply keeps_collect_task_data|]. intros l.
  apply keeps_bind; [apply keeps_now|]. intros t.
  apply keeps_for_each_from. intros j x. apply keeps_reschedule_task.
Qed.

Lemma keeps_track_completion (task : Task) : keeps R (track_completion E task).
Proof.
  unfold track_completion.
  destruct (task_completed_at task) as [c|]; [|apply keeps_ret].
  apply keeps_bind; [apply keeps_get_metadata|]. intros o.
  apply keeps_bind; [apply keeps_py_get|]. intros last.
  destruct (py_ne_str _ _); [|apply keeps_ret].
  apply keeps_bind; [apply keeps_py_get|]. intros v.
  apply keeps_bind; [apply keeps_py_add1|]. intros n.
  apply keeps_bind; [apply keeps_update_metadata|]. intros _. apply keeps_print.
Qed.

End Keeps.

Lemma rows_kept_preorder : PreOrder rows_kept.
Proof.
  split.
  - by intros w tid.
  - intros w1 w2 w3 H12 H23 tid.
    destruct (H12 tid) as [? ?], (H23 tid) as [? ?]. split; congruence.
Qed.

Lemma rows_kept_data (w w' : World) :
  w_comments w' = w_comments w -> w_tasks w' = w_tasks w -> rows_kept w w'.
Proof. intros _ Ht tid. by rewrite Ht. Qed.

Lemma rows_kept_update_task (E : Env) (tid : string) (due : Z) (content : string) :
  keeps rows_kept (api_update_task E tid due content).
Proof.
  intros w. unfold api_update_task, request.
  destruct (env_fault E (w_tick w) _); [by apply rows_kept_data|].
  change (w_tasks (tick w)) with (w_tasks w).
  destruct (w_tasks w !! tid) as [r|] eqn:Hrow; [|by apply rows_kept_data].
  intros tid'. cbn. destruct (decide (tid = tid')) as [<-|Hne].
  - by rewrite lookup_insert_eq, Hrow.
  - by rewrite lookup_insert_ne.
Qed.

Lemma rows_kept_persist (E : Env) (tid : string) (m : gmap string pyval) :
  keeps rows_kept (persist_metadata E tid m).
Proof.
  intros w. destruct (persist_metadata_returns E tid m w) as (w' & -> & Ht).
  intros tid'. cbn. by rewrite Ht.
Qed.

(** X6: whatever the environment does and however the call ends, a batch
    pass and a completion tracking never add or remove a task, and never
    change a task's priority or completion timestamp: only due dates and
    contents are written. *)
Theorem tasks_are_only_rescheduled (E : Env) (tasks : list Task) (task : Task)
    (w : World) :
  rows_kept w (world_of (batch_reschedule_overdue E tasks w))
  /\ rows_kept w (world_of (track_completion E task w)).
Proof.
  split.
  - apply (@keeps_batch E rows_kept rows_kept_preorder rows_kept_data
             (rows_kept_update_task E) (rows_kept_persist E)).
  - apply (@keeps_track_completion E rows_kept rows_kept_preorder rows_kept_data
             (rows_kept_persist E)).
Qed.

Lemma comments_kept_preorder : PreOrder comments_kept.
Proof.
  split.
  - intros w i t s Hi. by exists s.
  - intros w1 w2 w3 H12 H23 i t s Hi.
    destruct (H12 i t s Hi) as (s2 & Hi2 & Hh2 & Hs2).
    destruct (H23 i t s2 Hi2) as (s3 & Hi3 & Hh3 & Hs3).
    exists s3. split; [done|]. split; [congruence|].
    intros Hs. rewrite Hs3 by congruence. auto.
Qed.

Lemma comments_kept_same (w w' : World) :
  w_comments w' = w_comments w -> comments_kept w w'.
Proof. intros Hc i t s Hi. exists s. by rewrite Hc. Qed.

Lemma comments_kept_data (w w' : World) :
  w_comments w' = w_comments w -> w_tasks w' = w_tasks w -> comments_kept w w'.
Proof. intros Hc _. by apply comments_kept_same. Qed.

Lemma comments_kept_update_task (E : Env) (tid : string) (due : Z) (content : string) :
  keeps comments_kept (api_update_task E tid due content).
Proof.
  intros w. unfold api_update_task, request.
  destruct (env_fault E (w_tick w) _); [by apply comments_kept_data|].
  change (w_tasks (tick w)) with (w_tasks w).
  by destruct (w_tasks w !! tid); apply comments_kept_same.
Qed.

Lemma stored_comment_is_metadata (cs : list (string * string)) (tid : string)
    (c : Comment) :
  stored_comment cs tid = Some c ->
  startswith metadata_header (comment_content c) = true.
Proof. intros Hc. by apply List.find_some in Hc as [_ Hc]. Qed.

Lemma comments_kept_persist (E : Env) (tid : string) (m : gmap string pyval) :
  keeps comments_kept (persist_metadata E tid m).
Proof.
  intros w. unfold persist_metadata, try_except, bind.
  assert (exists oc, find_metadata_comment E tid w = Return (tick w) oc
                     /\ (oc = None \/ oc = stored_comment (w_comments w) tid))
    as (oc & -> & Hoc).
  { destruct (env_fault E (w_tick w) (GetComments tid)) eqn:Hf.
    - rewrite find_metadata_comment_fault by done. eauto.
    - rewrite find_metadata_comment_ok by done. eauto. }
  destruct oc as [c|].
  - destruct Hoc as [|Hc]; [done|]. symmetry in Hc.
    unfold api_update_comment, request.
    destruct (env_fault E (w_tick (tick w)) _); [by apply comments_kept_data|].
    change (w_comments (tick (tick w))) with (w_comments w).
    rewrite (stored_comment_lookup _ _ _ Hc). cbn.
    intros i t s Hi. destruct (decide (i = comment_id c)) as [->|Hne].
    + rewrite (stored_comment_lookup _ _ _ Hc) in Hi. simplify_eq.
      exists (metadata_text E m). cbn [w_comments set_comments].
      rewrite list_lookup_insert_eq by (by eapply lookup_lt_Some, stored_comment_lookup).
      split; [done|]. rewrite (stored_comment_is_metadata _ _ _ Hc).
      split; [done|]. done.
    + exists s. cbn [w_comments set_comments]. by rewrite list_lookup_insert_ne.
  - unfold api_add_comment, request.
    destruct (env_fault E (w_tick (tick w)) _); [by apply comments_kept_data|].
    intros i t s Hi. exists s. cbn [world_of w_comments set_comments tick].
    split; [|done]. by apply lookup_app_l_Some.
Qed.

(** X7: whatever the environment does and however the call ends, a batch
    pass and a completion tracking never delete, move or retarget a
    comment, and never change the content of a comment that does not
    start with the metadata header. *)
Theorem user_comments_are_never_touched (E : Env) (tasks : list Task) (task : Task)
    (w : World) :
  comments_kept w (world_of (batch_reschedule_overdue E tasks w))
  /\ comments_kept w (world_of (track_completion E task w)).
Proof.
  split.
  - apply (@keeps_batch E comments_kept comments_kept_preorder comments_kept_data
             (comments_kept_update_task E) (comments_kept_persist E)).
  - apply (@keeps_track_completion E comments_kept comments_kept_preorder
             comments_kept_data (comments_kept_persist E)).
Qed.

(** ** One metadata comment per task *)

Lemma comments_from_app (k : nat) (tid : string) (cs cs2 : list (string * string)) :
  comments_from k tid (cs ++ cs2)
  = (comments_from k tid cs ++ comments_from (k + length cs) tid cs2)%list.
Proof.
  revert k. induction cs as [|[t s] cs IH]; intros k.
  - cbn. by rewrite Nat.add_0_r.
  - cbn [app comments_from length]. rewrite IH, Nat.add_succ_r.
    by destruct (decide (t = tid)).
Qed.

Lemma find_none_filter {A} (f : A -> bool) (l : list A) :
  List.find f l = None -> List.filter f l = [].
Proof.
  induction l as [|x l IH]; [done|]. cbn.
  destruct (f x); [done|]. exact IH.
Qed.

Lemma filter_metadata_cons (k : nat) (s : string) (l : list Comment) :
  List.filter is_metadata ({| comment_id := k; comment_content := s |} :: l)
  = if startswith metadata_header s
    then {| comment_id := k; comment_content := s |} :: List.filter is_metadata l
    else List.filter is_metadata l.
Proof. reflexivity. Qed.

Lemma metadata_length_insert (k j : nat) (tid s text : string)
    (cs : list (string * string)) :
  cs !! j = Some (tid, s) ->
  startswith metadata_header s = true ->
  startswith metadata_header text = true ->
  length (List.filter is_metadata (comments_from k tid (<[j := (tid, text)]> cs)))
  = length (List.filter is_metadata (comments_from k tid cs)).
Proof.
  intros Hj Hs Htext. revert k j Hj.
  induction cs as [|[t s0] cs IH]; intros k j Hj; [done|].
  destruct j as [|j].
  - assert (t = tid /\ s0 = s) as [-> ->] by (by injection Hj).
    cbn [insert list_insert comments_from]. repeat case_decide; try done.
    rewrite !filter_metadata_cons. by rewrite Hs, Htext.
  - cbn [insert list_insert comments_from].
    destruct (decide (t = tid)); cbn [List.filter].
    + destruct (is_metadata _); cbn [length]; by rewrite (IH _ _ Hj).
    + by rewrite (IH _ _ Hj).
Qed.

Lemma metadata_comments_write (cs : list (string * string)) (tid tid' text : string) :
  startswith metadata_header text = true ->
  (length (metadata_comments cs tid') <= 1)%nat ->
  (length (metadata_comments (write_record cs tid text) tid') <= 1)%nat.
Proof.
  intros Htext Hone. unfold metadata_comments, write_record in *.
  destruct (stored_comment cs tid) as [c|] eqn:Hc.
  - destruct (decide (tid' = tid)) as [->|Hne].
    + erewrite metadata_length_insert; [done| |by eapply stored_comment_is_metadata|done].
      by apply stored_comment_lookup.
    + erewrite comments_from_insert_other; [done..|].
      by apply stored_comment_lookup.
  - destruct (decide (tid' = tid)) as [->|Hne].
    + rewrite comments_from_app, List.filter_app.
      unfold stored_comment in Hc. rewrite (find_none_filter _ _ Hc).
      cbn [comments_from]. rewrite decide_True by done.
      rewrite filter_metadata_cons, Htext. cbn. lia.
    + by rewrite comments_from_app_other.
Qed.

Lemma single_record_kept_preorder : PreOrder single_record_kept.
Proof.
  split.
  - by intros w tid.
  - intros w1 w2 w3 H12 H23 tid H1. by apply H23, H12.
Qed.

Lemma single_record_kept_data (w w' : World) :
  w_comments w' = w_comments w -> w_tasks w' = w_tasks w -> single_record_kept w w'.
Proof. intros Hc _ tid. by rewrite Hc. Qed.

Lemma single_record_kept_update_task (E : Env) (tid : string) (due : Z)
    (content : string) :
  keeps single_record_kept (api_update_task E tid due content).
Proof.
  intros w. unfold api_update_task, request.
  destruct (env_fault E (w_tick w) _); [by apply single_record_kept_data|].
  change (w_tasks (tick w)) with (w_tasks w).
  by destruct (w_tasks w !! tid); intros tid'.
Qed.

Lemma single_record_kept_persist (E : Env) (tid : string) (m : gmap string pyval) :
  lookup_reliable E ->
  keeps single_record_kept (persist_metadata E tid m).
Proof.
  intros Hlook w. rewrite persist_metadata_eq by apply Hlook. cbn [world_of].
  destruct (env_fault E (S (w_tick w)) _); [by intros tid'|].
  intros tid' Hone. cbn [w_comments set_comments tick].
  by apply metadata_comments_write.
Qed.

(** X8: as long as listing comments does not fail, a batch pass and a
    completion tracking never give a task a second metadata comment: a
    task that has at most one still has at most one, however the call
    ends. *)
Theorem one_record_per_task (E : Env) (tasks : list Task) (task : Task) (w : World) :
  lookup_reliable E ->
  single_record_kept w (world_of (batch_reschedule_overdue E tasks w))
  /\ single_record_kept w (world_of (track_completion E task w)).
Proof.
  intros Hlook. split.
  - apply (@keeps_batch E single_record_kept single_record_kept_preorder
             single_record_kept_data (single_record_kept_update_task E)
             (fun tid m => single_record_kept_persist E tid m Hlook)).
  - apply (@keeps_track_completion E single_record_kept single_record_kept_preorder
             single_record_kept_data
             (fun tid m => single_record_kept_persist E tid m Hlook)).
Qed.

Lemma one_record_per_task_witness :
  lookup_reliable (ref_env no_fault)
  /\ (length (metadata_comments (w_comments urgent_world) "A") <= 1)%nat
  /\ (length (metadata_comments
                (w_comments (world_of (batch_reschedule_overdue (ref_env no_fault)
                                         urgent_batch urgent_world))) "A") <= 1)%nat.
Proof.
  assert (length (metadata_comments (w_comments urgent_world) "A") <= 1)%nat as Hone
    by (vm_compute; lia).
  split; [exact (reliable_lookup _ no_fault_reliable)|]. split; [exact Hone|].
  destruct (one_record_per_task (ref_env no_fault) urgent_batch urgent_task
              urgent_world (reliable_lookup _ no_fault_reliable)) as [Hbatch _].
  exact (Hbatch "A" Hone).
Defined.

(** X9: when the lookup inside the [try] of [update_metadata] fails, the
    failure is taken for "no metadata comment": if the write then
    succeeds, a new metadata comment is appended, even for a task that
    already has one. *)
Theorem failed_lookup_appends_record (E : Env) (tid : string)
    (m : gmap string pyval) (w : World) :
  env_fault E (w_tick w) (GetComments tid) = true ->
  env_fault E (S (w_tick w)) (AddComment tid) = false ->
  persist_metadata E tid m w
  = Return (set_comments (w_comments w ++ [(tid, metadata_text E m)]) (tick (tick w))) tt
  /\ length (metadata_comments (w_comments w ++ [(tid, metadata_text E m)]) tid)
     = S (length (metadata_comments (w_comments w) tid)).
Proof.
  intros Hlookup Hadd. split.
  - unfold persist_metadata, try_except, bind.
    rewrite find_metadata_comment_fault by done.
    unfold api_add_comment, request. cbn [tick w_tick]. by rewrite Hadd.
  - unfold metadata_comments. rewrite comments_from_app, List.filter_app.
    rewrite length_app. cbn [comments_from]. rewrite decide_True by done.
    rewrite filter_metadata_cons, metadata_text_header.
    cbn [length List.filter]. lia.
Qed.

Lemma failed_lookup_appends_record_witness :
  env_fault (ref_env first_lookup_fails) (w_tick urgent_world) (GetComments "A") = true
  /\ env_fault (ref_env first_lookup_fails) (S (w_tick urgent_world)) (AddComment "A")
     = false
  /\ length (metadata_comments (w_comments urgent_world) "A") = 1%nat
  /\ length (metadata_comments
               (w_comments (world_of (persist_metadata (ref_env first_lookup_fails) "A"
                                        (example_record 3 0) urgent_world))) "A")
     = 2%nat.
Proof.
  destruct (failed_lookup_appends_record (ref_env first_lookup_fails) "A"
              (example_record 3 0) urgent_world eq_refl eq_refl) as [Hrun Hlen].
  split; [reflexivity|]. split; [reflexivity|].
  split; [vm_compute; reflexivity|].
  rewrite Hrun. cbn [world_of w_comments set_comments tick]. rewrite Hlen.
  vm_compute. reflexivity.
Defined.

(** ** Writing a record and reading it back *)

Lemma record_or_default_mapping (E : Env) (cs : list (string * string))
    (tid : string) (t : Z) :
  (forall v, stored_record E cs tid <> Some (OVal v)) ->
  exists d, record_or_default E cs tid t = ODict d.
Proof.
  intros Hmap. unfold record_or_default.
  destruct (stored_record E cs tid) as [[d|v]|];
    [by eauto|by destruct (Hmap v)|by eauto].
Qed.

(** X10: when no request fails and the text round-trips, [update_metadata]
    on a task whose stored record is a mapping (or absent) returns the
    merged record, and a [get_metadata] that follows reads exactly that
    record back: every updated field has the value passed in and every
    other field the value it had. *)
Theorem update_then_get_round_trip (E : Env) (tid : string)
    (updates : gmap string pyval) (w : World) (r : TaskRow) :
  reliable E -> round_trips E ->
  w_tasks w !! tid = Some r ->
  (forall v, stored_record E (w_comments w) tid <> Some (OVal v)) ->
  exists w' t d m,
    record_or_default E (w_comments w) tid t = ODict d
    /\ update_metadata E tid updates w = Return w' m
    /\ (forall key, m !! key = match updates !! key with
                               | Some v => Some v
                               | None => d !! key
                               end)
    /\ forall task, task_id task = tid ->
         exists w'', get_metadata E task w' = Return w'' (ODict m) /\ quiet w' w''.
Proof.
  intros Hrel Hrt Hrow Hmap.
  pose proof (reliable_lookup E Hrel) as Hlook.
  destruct (record_or_default_mapping E (w_comments w) tid
              (env_time E (S (S (w_tick w)))) Hmap) as [d Hrec].
  assert (exists w',
             update_metadata E tid updates w = Return w' (updates ∪ d)
             /\ w_comments w'
                = write_record (w_comments w) tid (metadata_text E (updates ∪ d)))
    as (w' & Hrun & Hc).
  { unfold update_metadata, bind at 1, api_get_task, request.
    rewrite Hrel. change (w_tasks (tick w)) with (w_tasks w). rewrite Hrow.
    cbn [mbind option_bind]. unfold bind at 1.
    destruct (get_metadata_reliable E Hlook (task_of_row tid r) (tick w))
      as (w1 & -> & Hc1 & Ht1 & Hl1).
    cbn [task_id task_of_row w_comments w_tasks w_console w_tick tick] in *.
    rewrite Hrec. unfold bind, py_update, ret.
    rewrite persist_metadata_eq by apply Hlook. rewrite Hrel.
    eexists. split; [reflexivity|]. cbn. by rewrite Hc1. }
  exists w', (env_time E (S (S (w_tick w)))), d, (updates ∪ d).
  split; [exact Hrec|]. split; [exact Hrun|]. split.
  - intros key. rewrite lookup_union.
    by destruct (updates !! key), (d !! key).
  - intros task <-.
    destruct (get_metadata_reliable E Hlook task w') as (w'' & Hg & Hq).
    exists w''. split; [|done]. rewrite Hg. unfold record_or_default.
    by rewrite Hc, stored_record_write.
Qed.

Lemma update_then_get_round_trip_witness :
  exists w' m,
    update_metadata (ref_env no_fault) "A" {[ "failures" := VInt 3 ]} urgent_world
    = Return w' m
    /\ m !! "failures" = Some (VInt 3)
    /\ m !! "successes" = Some (VInt 0)
    /\ exists w'', get_metadata (ref_env no_fault) urgent_task w' = Return w'' (ODict m).
Proof.
  destruct (update_then_get_round_trip (ref_env no_fault) "A"
              {[ "failures" := VInt 3 ]} urgent_world (example_row "Renew passport" 4)
              no_fault_reliable (ref_env_round_trips no_fault) eq_refl)
    as (w' & t & d & m & Hrec & Hrun & Hkeys & Hget).
  { intros v. vm_compute. discriminate. }
  exists w', m. split; [exact Hrun|].
  assert (d = example_record 2 0) as ->.
  { revert Hrec. vm_compute. by intros [= <-]. }
  split; [by rewrite Hkeys|]. split; [by rewrite Hkeys|].
  destruct (Hget urgent_task eq_refl) as (w'' & Hg & _). by exists w''.
Defined.

(** ** What [mark_failure] stores *)

Section Marking.

Context (E : Env) (Hrel : reliable E) (Hrt : round_trips E).

Lemma mark_failure_stores (task : Task) (w : World) (r : TaskRow) :
  w_tasks w !! task_id task = Some r ->
  countable_record E (w_comments w) (task_id task) "failures" ->
  exists w' t d stamp,
    let failures := counter E (w_comments w) (task_id task) "failures" + 1 in
    let m := {[ "failures" := VInt failures; "last_failed" := VStr stamp ]} ∪ d in
    mark_failure E task w = Return w' failures
    /\ record_or_default E (w_comments w) (task_id task) t = ODict d
    /\ stored_record E (w_comments w') (task_id task) = Some (ODict m)
    /\ (forall tid, tid <> task_id task ->
          stored_record E (w_comments w') tid = stored_record E (w_comments w) tid)
    /\ w_tasks w' = w_tasks w
    /\ w_console w' = w_console w.
Proof.
  intros Hrow Hok.
  destruct (mark_failure_ok E Hrel task w r Hrow Hok)
    as (w' & t & d & stamp & Hmark & Hd & Hc & Ht & Hl).
  exists w', t, d, stamp. cbv zeta in *.
  split; [done|]. split; [done|]. split; [|split; [|done]].
  - rewrite Hc. by apply stored_record_write.
  - intros tid Hne. rewrite Hc. by apply stored_record_write_other.
Qed.

Lemma mark_repeatedly_invariant (task : Task) (n : nat) (w : World) (r : TaskRow) :
  w_tasks w !! task_id task = Some r ->
  countable_record E (w_comments w) (task_id task) "failures" ->
  let w' := mark_repeatedly E task n w in
  w_tasks w' = w_tasks w
  /\ countable_record E (w_comments w') (task_id task) "failures"
  /\ counter E (w_comments w') (task_id task) "failures"
     = counter E (w_comments w) (task_id task) "failures" + Z.of_nat n.
Proof.
  intros Hrow Hok. cbv zeta. induction n as [|n (IHt & IHok & IHc)].
  { cbn. split; [done|]. split; [done|]. lia. }
  change (mark_repeatedly E task (S n) w)
    with (world_of (mark_failure E task (mark_repeatedly E task n w))).
  destruct (mark_failure_stores task (mark_repeatedly E task n w) r)
    as (w' & t & d & stamp & Hmark & _ & Hrec & _ & Ht & _);
    [by rewrite IHt|done|].
  cbv zeta in *. rewrite Hmark. cbn [world_of].
  split; [by rewrite Ht|].
  split.
  - unfold countable_record. rewrite Hrec.
    rewrite lookup_union_l', lookup_insert_eq by (by rewrite lookup_insert_eq).
    by eexists.
  - replace (counter E (w_comments w) (task_id task) "failures" + Z.of_nat (S n))
      with (counter E (w_comments (mark_repeatedly E task n w)) (task_id task)
              "failures" + 1) by lia.
    unfold counter at 1. rewrite Hrec.
    by rewrite lookup_union_l', lookup_insert_eq by (by rewrite lookup_insert_eq).
Qed.

End Marking.

(** X11: [mark_failure] is not idempotent.  When no request fails, [n]
    calls in a row on a task that has a row and an incrementable
    [failures] raise the stored count by exactly [n], and the last call
    returns the count it stored. *)
Theorem mark_repeatedly_counts (E : Env) (task : Task) (n : nat) (w : World)
    (r : TaskRow) :
  reliable E -> round_trips E ->
  w_tasks w !! task_id task = Some r ->
  countable_record E (w_comments w) (task_id task) "failures" ->
  counter E (w_comments (mark_repeatedly E task n w)) (task_id task) "failures"
  = counter E (w_comments w) (task_id task) "failures" + Z.of_nat n
  /\ exists w',
       mark_failure E task (mark_repeatedly E task n w)
       = Return w' (counter E (w_comments w) (task_id task) "failures"
                    + Z.of_nat (S n))
       /\ w' = mark_repeatedly E task (S n) w.
Proof.
  intros Hrel Hrt Hrow Hok.
  destruct (mark_repeatedly_invariant E Hrel Hrt task n w r Hrow Hok)
    as (Ht & Hokn & Hcn).
  split; [done|].
  destruct (mark_failure_stores E Hrel Hrt task (mark_repeatedly E task n w) r)
    as (w' & t & d & stamp & Hmark & _); [by rewrite Ht|done|].
  cbv zeta in Hmark. exists w'. split.
  - rewrite Hmark, Hcn. f_equal. lia.
  - change (mark_repeatedly E task (S n) w)
      with (world_of (mark_failure E task (mark_repeatedly E task n w))).
    by rewrite Hmark.
Qed.

Lemma mark_repeatedly_counts_witness :
  counter (ref_env no_fault)
    (w_comments (mark_repeatedly (ref_env no_fault) urgent_task 3 urgent_world))
    "A" "failures"
  = 5.
Proof.
  destruct (mark_repeatedly_counts (ref_env no_fault) urgent_task 3 urgent_world
              (example_row "Renew passport" 4)
              no_fault_reliable (ref_env_round_trips no_fault) eq_refl)
    as [Hcount _].
  { vm_compute. by eexists. }
  change (task_id urgent_task) with "A" in Hcount. rewrite Hcount.
  vm_compute. reflexivity.
Defined.

(** X12: what one [mark_failure] changes in the record.  When no request
    fails, the stored record afterwards has [failures] one higher, has
    [last_failed] set to a timestamp, and agrees with the record the call
    started from (the stored one, or the default with [created] for a task
    without one) on every other field; the records of other tasks, the
    task table and the console are as before. *)
Theorem mark_failure_changes_two_fields (E : Env) (task : Task) (w : World)
    (r : TaskRow) :
  reliable E -> round_trips E ->
  w_tasks w !! task_id task = Some r ->
  countable_record E (w_comments w) (task_id task) "failures" ->
  exists w' t d m stamp,
    mark_failure E task w
    = Return w' (counter E (w_comments w) (task_id task) "failures" + 1)
    /\ record_or_default E (w_comments w) (task_id task) t = ODict d
    /\ stored_record E (w_comments w') (task_id task) = Some (ODict m)
    /\ m !! "failures"
       = Some (VInt (counter E (w_comments w) (task_id task) "failures" + 1))
    /\ m !! "last_failed" = Some (VStr stamp)
    /\ (forall key, key <> "failures" -> key <> "last_failed" -> m !! key = d !! key)
    /\ (forall tid, tid <> task_id task ->
          stored_record E (w_comments w') tid = stored_record E (w_comments w) tid)
    /\ w_tasks w' = w_tasks w
    /\ w_console w' = w_console w.
Proof.
  intros Hrel Hrt Hrow Hok.
  destruct (mark_failure_stores E Hrel Hrt task w r Hrow Hok)
    as (w' & t & d & stamp & Hmark & Hd & Hrec & Hother & Ht & Hl).
  cbv zeta in *. eexists w', t, d, _, stamp.
  split; [exact Hmark|]. split; [exact Hd|]. split; [exact Hrec|].
  split; [by rewrite lookup_union_l', lookup_insert_eq by (by rewrite lookup_insert_eq)|].
  split.
  { rewrite lookup_union_l'; by rewrite lookup_insert_ne, lookup_singleton_eq. }
  split; [|done].
  intros key Hk1 Hk2. rewrite lookup_union_r; [done|].
  rewrite lookup_insert_ne by done. by rewrite lookup_singleton_ne.
Qed.

Lemma mark_failure_changes_two_fields_witness :
  exists w' m,
    mark_failure (ref_env no_fault) urgent_task urgent_world = Return w' 3
    /\ stored_record (ref_env no_fault) (w_comments w') "A" = Some (ODict m)
    /\ m !! "failures" = Some (VInt 3)
    /\ m !! "successes" = Some (VInt 0).
Proof.
  destruct (mark_failure_changes_two_fields (ref_env no_fault) urgent_task urgent_world
              (example_row "Renew passport" 4)
              no_fault_reliable (ref_env_round_trips no_fault) eq_refl)
    as (w' & t & d & m & stamp & Hmark & Hd & Hrec & Hf & _ & Hkeys & _).
  { vm_compute. by eexists. }
  exists w', m. split; [exact Hmark|]. split; [exact Hrec|].
  split; [exact Hf|].
  assert (d = example_record 2 0) as ->.
  { revert Hd. vm_compute. by intros [= <-]. }
  by rewrite Hkeys.
Defined.

(** ** A completion that has not been recorded *)

Lemma py_ne_str_not_recorded (E : Env) (cs : list (string * string)) (tid : string)
    (c t : Z) (d : gmap string pyval) :
  record_or_default E cs tid t = ODict d ->
  ~ recorded E cs tid c ->
  py_ne_str (match d !! "last_completion" with Some v => v | None => VNone end)
    (isoformat E c) = true.
Proof.
  intros Hrec Hnot. unfold record_or_default in Hrec.
  destruct (stored_record E cs tid) as [[d0|v]|] eqn:Hs; simplify_eq.
  - destruct (d !! "last_completion") as [[| | |s|]|] eqn:Hl; try done.
    cbn. destruct (String.eqb s (isoformat E c)) eqn:Heq; [|done].
    apply String.eqb_eq in Heq as ->. destruct Hnot. by exists d.
  - unfold default_metadata.
    by rewrite !lookup_insert_ne, lookup_singleton_ne.
Qed.

(** X13: the first time a completion is seen it is counted exactly once.
    When no request fails, [track_completion] on a task whose completion
    timestamp is not the recorded one returns, raises the stored
    [successes] by one, leaves [failures] as it was, records the
    timestamp, and prints one line carrying the new count. *)
Theorem new_completion_counted_once (E : Env) (task : Task) (c : Z) (w : World)
    (r : TaskRow) :
  reliable E -> round_trips E ->
  task_completed_at task = Some c ->
  w_tasks w !! task_id task = Some r ->
  countable_record E (w_comments w) (task_id task) "successes" ->
  ~ recorded E (w_comments w) (task_id task) c ->
  let successes := counter E (w_comments w) (task_id task) "successes" + 1 in
  exists w',
    track_completion E task w = Return w' tt
    /\ counter E (w_comments w') (task_id task) "successes" = successes
    /\ counter E (w_comments w') (task_id task) "failures"
       = counter E (w_comments w) (task_id task) "failures"
    /\ recorded E (w_comments w') (task_id task) c
    /\ w_tasks w' = w_tasks w
    /\ w_console w'
       = (w_console w ++ [TrackedCompletion (task_content task) successes])%list.
Proof.
  intros Hrel Hrt Hdone Hrow Hok Hnot. cbv zeta.
  pose proof (reliable_lookup E Hrel) as Hlook.
  unfold track_completion. rewrite Hdone. unfold bind at 1.
  destruct (get_metadata_reliable E Hlook task w) as (w1 & -> & Hc1 & Ht1 & Hl1).
  assert (exists d n, record_or_default E (w_comments w) (task_id task)
                        (env_time E (S (w_tick w))) = ODict d
                      /\ numeric (d !! "successes") = Some n) as (d & n & Hrec & Hn).
  { unfold record_or_default, countable_record in *.
    destruct (stored_record E (w_comments w) (task_id task)) as [[d|v]|];
      [destruct Hok as [n Hn]|done|]; by eauto. }
  rewrite Hrec. unfold bind at 1, py_get at 1, ret at 1.
  rewrite (py_ne_str_not_recorded E _ _ c _ d Hrec Hnot).
  rewrite bind_get_add1, Hn.
  pose proof (counter_record_or_default E _ _ "successes" _ _ Hrec ltac:(auto)) as Hcnt.
  rewrite Hn in Hcnt. subst n.
  unfold bind at 1.
  destruct (update_metadata_progress E Hlook (task_id task)
              {[ "successes" := VInt (counter E (w_comments w) (task_id task)
                                        "successes" + 1);
                 "last_completion" := VStr (isoformat E c) ]}
              w1 r "successes")
    as (w2 & t & d2 & (Hc2 & Ht2 & Hl2) & Hrec2 & ->).
  { apply Hrel. }
  { by rewrite Ht1. }
  { by rewrite Hc1. }
  rewrite after_write_ok by done.
  eexists. split; [reflexivity|].
  cbn [print w_comments w_tasks w_console set_comments tick].
  rewrite Hc1 in Hrec2. rewrite Hc2, Hc1, Ht2, Ht1, Hl2, Hl1.
  rewrite !counter_write by done.
  rewrite lookup_union_l', lookup_insert_eq by (by rewrite lookup_insert_eq).
  cbn [numeric]. split; [done|]. split.
  { rewrite lookup_union_r by done.
    by apply (counter_record_or_default E _ _ "failures" _ _ Hrec2); auto. }
  split; [|done].
  eexists. split; [by apply stored_record_write|].
  rewrite lookup_union_l'; by rewrite lookup_insert_ne, lookup_singleton_eq.
Qed.

Lemma new_completion_counted_once_witness :
  exists w',
    track_completion (ref_env no_fault) completed_task completed_world = Return w' tt
    /\ counter (ref_env no_fault) (w_comments w') "A" "successes" = 4
    /\ w_console w' = [TrackedCompletion "Water plants" 4].
Proof.
  destruct (new_completion_counted_once (ref_env no_fault) completed_task 1727999999
              completed_world
              {| row_content := "Water plants"; row_priority := 1;
                 row_due := Some 19990; row_completed_at := Some 1727999999 |}
              no_fault_reliable (ref_env_round_trips no_fault) eq_refl eq_refl)
    as (w' & Hrun & Hs & _ & _ & _ & Hl).
  { vm_compute. by eexists. }
  { intros (d & Hd & Hlast). revert Hd Hlast. vm_compute.
    intros [= <-]. discriminate. }
  exists w'. split; [exact Hrun|]. split.
  - change (task_id completed_task) with "A" in Hs. rewrite Hs. vm_compute. reflexivity.
  - rewrite Hl. vm_compute. reflexivity.
Defined.

(** ** The success ratio *)

(** X14: the success ratio of a healthy record.  As long as listing
    comments does not fail, for a task whose stored counters are
    non-negative integers (or that has no record) and whose
    [successes + 1] is below [2 ** 1023], [get_success_ratio] returns,
    without changing anything, the float [(successes + 1) / (failures + 1)]:
    the double nearest to the quotient, which need not be the quotient
    itself.  The float is never negative, and it is exactly 1.0 when the
    two counters agree, as for a task that has no record yet. *)
Theorem success_ratio_range (E : Env) (task : Task) (w : World) :
  lookup_reliable E ->
  countable_record E (w_comments w) (task_id task) "successes" ->
  countable_record E (w_comments w) (task_id task) "failures" ->
  0 <= counter E (w_comments w) (task_id task) "successes" ->
  0 <= counter E (w_comments w) (task_id task) "failures" ->
  counter E (w_comments w) (task_id task) "successes" + 1 < 2 ^ 1023 ->
  let successes := counter E (w_comments w) (task_id task) "successes" in
  let failures := counter E (w_comments w) (task_id task) "failures" in
  exists w' q,
    get_success_ratio E task w = Return w' q
    /\ quiet w w'
    /\ true_divide (successes + 1) (failures + 1) = Some q
    /\ (0 <= q)%Q
    /\ (successes = failures -> (q == 1)%Q).
Proof.
  intros Hlook Hoks Hokf Hs Hf Hbound. cbv zeta.
  unfold get_success_ratio, bind at 1.
  destruct (get_metadata_reliable E Hlook task w) as (w1 & -> & Hq).
  assert (exists d s f,
             record_or_default E (w_comments w) (task_id task)
               (env_time E (S (w_tick w))) = ODict d
             /\ numeric (d !! "successes") = Some s
             /\ numeric (d !! "failures") = Some f) as (d & s & f & Hrec & Hns & Hnf).
  { unfold record_or_default, countable_record in *.
    destruct (stored_record E (w_comments w) (task_id task)) as [[d|v]|]; [|done|].
    - destruct Hoks as [s Hns], Hokf as [f Hnf]. by eauto 6.
    - eexists _, 0, 0. by split. }
  pose proof (counter_record_or_default E _ _ "successes" _ _ Hrec ltac:(auto)) as Hcs.
  pose proof (counter_record_or_default E _ _ "failures" _ _ Hrec ltac:(auto)) as Hcf.
  rewrite Hns in Hcs. rewrite Hnf in Hcf. rewrite <- Hcs, <- Hcf in *.
  clear Hcs Hcf.
  destruct (true_divide_defined (s + 1) (f + 1)) as (q & Hdiv & Hpos); [lia..|].
  rewrite Hrec. exists w1, q.
  split; [|split; [done|split; [done|split; [done|]]]].
  - unfold bind, py_get, ret, py_add1, py_truediv.
    destruct (d !! "successes") as [[]|]; cbn [numeric] in Hns; simplify_eq;
      destruct (d !! "failures") as [[]|]; cbn [numeric] in Hnf; simplify_eq;
      unfold ret; cbn beta iota; rewrite decide_False, Hdiv by lia; done.
  - intros Heq. rewrite <- Heq in Hdiv.
    destruct (true_divide_self (s + 1)) as (q' & Hself & Hone); [lia|].
    rewrite Hself in Hdiv. by injection Hdiv as <-.
Qed.

Lemma success_ratio_range_witness :
  exists w' q,
    get_success_ratio (ref_env no_fault) completed_task completed_world = Return w' q
    /\ (q == 6004799503160661 # 9007199254740992)%Q
    /\ ~ (q == 4 # 6)%Q.
Proof.
  destruct (success_ratio_range (ref_env no_fault) completed_task completed_world
              (reliable_lookup _ no_fault_reliable))
    as (w' & q & Hrun & _ & Hq & _).
  - vm_compute. by eexists.
  - vm_compute. by eexists.
  - vm_compute. discriminate.
  - vm_compute. discriminate.
  - vm_compute. reflexivity.
  - exists w', q. split; [exact Hrun|].
    revert Hq. vm_compute. intros [= <-]. split; [reflexivity|discriminate].
Defined.

(** ** Which comment holds the record *)

(** X15: [find_metadata_comment] never raises and changes nothing.  What
    it returns does not depend on how the service pages its answer: the
    earliest comment of the task that starts with the metadata header;
    and it returns [None] only when the lookup failed or when no comment
    of the task starts with the header. *)
Theorem find_metadata_comment_first (E : Env) (tid : string) (w : World) :
  exists found,
    find_metadata_comment E tid w = Return (tick w) found
    /\ match found with
       | Some c =>
           w_comments w !! comment_id c = Some (tid, comment_content c)
           /\ startswith metadata_header (comment_content c) = true
           /\ forall (i : nat) s,
                (i < comment_id c)%nat -> w_comments w !! i = Some (tid, s) ->
                startswith metadata_header s = false
       | None =>
           env_fault E (w_tick w) (GetComments tid) = true
           \/ forall (i : nat) s,
                w_comments w !! i = Some (tid, s) ->
                startswith metadata_header s = false
       end.
Proof.
  destruct (env_fault E (w_tick w) (GetComments tid)) eqn:Hf.
  - exists None. rewrite find_metadata_comment_fault by done. auto.
  - exists (stored_comment (w_comments w) tid).
    rewrite find_metadata_comment_ok by done. split; [done|].
    pose proof (find_metadata_first 0 tid (w_comments w)) as Hfirst.
    unfold stored_comment.
    destruct (List.find is_metadata (comments_from 0 tid (w_comments w))) as [c|].
    + destruct Hfirst as (j & Hid & Hj & Hhead & Hbefore).
      cbn [Nat.add] in Hid. rewrite Hid. done.
    + by right.
Qed.

(** ** Listing the overdue tasks *)

Lemma extend_all_pages (flattened : list item) (pages : list (list Task)) (w : World) :
  extend_all flattened (APage <$> pages) w
  = Return w (flattened ++ (ATask <$> concat pages))%list.
Proof.
  revert flattened. induction pages as [|page pages IH]; intros flattened.
  - cbn. by rewrite app_nil_r.
  - cbn [fmap list_fmap extend_all concat]. unfold bind, py_extend, ret.
    change (extend_all (flattened ++ (ATask <$> page))%list (APage <$> pages) w
            = Return w (flattened ++ (ATask <$> (page ++ concat pages)%list))%list).
    by rewrite IH, fmap_app, app_assoc.
Qed.

Lemma extend_all_bare_task (flattened : list item) (pages : list (list Task))
    (t : Task) (rest : list item) (w : World) :
  extend_all flattened ((APage <$> pages) ++ ATask t :: rest)%list w
  = Raise w TypeError.
Proof.
  revert flattened. induction pages as [|page pages IH]; intros flattened; [done|].
  cbn [fmap list_fmap app extend_all]. unfold bind, py_extend, ret.
  apply IH.
Qed.

(** X16: [filter_tasks_flattened] gives the same flat list of tasks
    whether the service answers with the tasks themselves or with pages
    of them, whatever the page sizes; only the first element decides
    which: an answer that starts with a page and holds a bare task later
    raises [TypeError], and an exception of the request is passed on. *)
Theorem filter_tasks_flattened_pages (query : string) (tasks : list Task)
    (pages : list (list Task)) (w : World) :
  filter_tasks_flattened (fun _ => ret (ATask <$> tasks)) query w
  = Return w (ATask <$> tasks)
  /\ filter_tasks_flattened (fun _ => ret (APage <$> pages)) query w
     = Return w (ATask <$> concat pages)
  /\ (forall (n : nat),
        filter_tasks_flattened (fun _ => ret (APage <$> paginate n tasks)) query w
        = Return w (ATask <$> tasks))
  /\ (forall page t rest,
        filter_tasks_flattened
          (fun _ => ret (APage page :: (APage <$> pages) ++ ATask t :: rest)%list)
          query w
        = Raise w TypeError)
  /\ (forall e, filter_tasks_flattened (fun _ => raise e) query w = Raise w e).
Proof.
  assert (forall ps, filter_tasks_flattened (fun _ => ret (APage <$> ps)) query w
                     = Return w (ATask <$> concat ps)) as Hpages.
  { intros [|page ps]; [done|].
    unfold filter_tasks_flattened, bind, ret.
    apply (extend_all_pages [] (page :: ps)). }
  split; [by destruct tasks|]. split; [apply Hpages|]. split; [|split; [|done]].
  - intros n. by rewrite Hpages, concat_paginate.
  - intros page t rest. unfold filter_tasks_flattened, bind, ret.
    apply (extend_all_bare_task [] (page :: pages)).
Qed.

(** ** A pass over a healthy batch *)

Lemma sort_by_success_ratio_fmap {B} (f : TaskData -> B) (l : list TaskData) :
  f <$> sort_by_success_ratio l ≡ₚ f <$> l.
Proof.
  apply fmap_Permutation.
  induction l as [|x l IH]; [done|]. cbn [sort_by_success_ratio foldr].
  etrans; [apply insert_by_ratio_perm|]. by apply Permutation_skip.
Qed.

Lemma min_delay_days_value (failures : Z) :
  1 <= failures ->
  calculate_delay_hours failures `div` 24 = Z.min (2 ^ (failures - 1)) 7
  /\ 1 <= Z.min (2 ^ (failures - 1)) 7.
Proof.
  intros Hf.
  assert (1 <= 2 ^ (failures - 1)) as Hpow.
  { change 1 with (2 ^ 0) at 1. apply Z.pow_le_mono_r; lia. }
  assert (calculate_delay_hours failures = 24 * Z.min (2 ^ (failures - 1)) 7) as ->.
  { unfold calculate_delay_hours. lia. }
  rewrite Z.mul_comm, Z.div_mul by done. lia.
Qed.

Section Healthy.

Context (E : Env) (Hrel : reliable E) (Hrt : round_trips E).
Context (today : Z) (Hday : same_day E today).

Lemma healthy_untouched (task : Task) (w w' : World) :
  untouched E (task_id task) w w' -> healthy E w task -> healthy E w' task.
Proof.
  intros Hu (Hrow & Hf & Hs & Hpos). pose proof Hu as [Hrec Ht].
  unfold healthy. rewrite Ht. split; [done|].
  split; [by apply (countable_record_untouched E _ _ w)|].
  split; [by apply (countable_record_untouched E _ _ w)|].
  by rewrite !(counter_untouched E _ _ w w' Hu).
Qed.

Lemma rescheduled_to_after (task : Task) (w w1 w2 : World) (due : Z) :
  rescheduled_to E w w1 task due -> untouched E (task_id task) w1 w2 ->
  rescheduled_to E w w2 task due.
Proof.
  intros (Hf & Hs & r & Hr & Hr1) Hu. pose proof Hu as [_ Ht].
  unfold rescheduled_to. rewrite !(counter_untouched E _ _ w1 w2 Hu), Ht.
  split; [done|]. split; [done|]. by exists r.
Qed.

Lemma rescheduled_to_before (task : Task) (w w1 w2 : World) (due : Z) :
  untouched E (task_id task) w w1 -> rescheduled_to E w1 w2 task due ->
  rescheduled_to E w w2 task due.
Proof.
  intros Hu (Hf & Hs & r & Hr & Hr2). pose proof Hu as [_ Ht].
  unfold rescheduled_to. rewrite !(counter_untouched E _ _ w w1 Hu) in *.
  rewrite <- Ht.
  split; [done|]. split; [done|]. by exists r.
Qed.

Lemma numeric_record_or_default (cs : list (string * string)) (tid key : string)
    (t : Z) (d : gmap string pyval) :
  record_or_default E cs tid t = ODict d ->
  countable_record E cs tid key ->
  key = "failures" \/ key = "successes" ->
  numeric (d !! key) = Some (counter E cs tid key).
Proof.
  unfold record_or_default, countable_record, counter.
  destruct (stored_record E cs tid) as [[d0|v]|]; intros [= <-].
  - by intros [n ->].
  - by intros _ [-> | ->].
Qed.

Lemma counter_stored (cs : list (string * string)) (tid key : string)
    (m : gmap string pyval) (n : Z) :
  stored_record E cs tid = Some (ODict m) ->
  numeric (m !! key) = Some n ->
  counter E cs tid key = n.
Proof. intros Hrec Hn. unfold counter. by rewrite Hrec, Hn. Qed.

Lemma mark_failure_counts (task : Task) (w : World) :
  healthy E w task ->
  exists w' m,
    mark_failure E task w
    = Return w' (counter E (w_comments w) (task_id task) "failures" + 1)
    /\ stored_record E (w_comments w') (task_id task) = Some (ODict m)
    /\ numeric (m !! "failures")
       = Some (counter E (w_comments w) (task_id task) "failures" + 1)
    /\ numeric (m !! "successes")
       = Some (counter E (w_comments w) (task_id task) "successes")
    /\ (forall tid, tid <> task_id task -> untouched E tid w w')
    /\ w_tasks w' = w_tasks w.
Proof.
  intros ([r Hrow] & Hf & Hs & _).
  destruct (mark_failure_stores E Hrel Hrt task w r Hrow Hf)
    as (w' & t & d & stamp & Hmark & Hd & Hrec & Hother & Ht & _).
  cbv zeta in *. eexists w', _. split; [exact Hmark|]. split; [exact Hrec|].
  split.
  { by rewrite lookup_union_l', lookup_insert_eq by (by rewrite lookup_insert_eq). }
  split.
  { rewrite lookup_union_r.
    - apply (numeric_record_or_default _ _ _ t); auto.
    - by rewrite lookup_insert_ne, lookup_singleton_ne. }
  split; [|done]. intros tid Hne. split; [by apply Hother|by rewrite Ht].
Qed.

Lemma reschedule_urgent_all (task : Task) (w : World) :
  healthy E w task ->
  exists w',
    reschedule_urgent E task w = Return w' tt
    /\ rescheduled_to E w w' task today
    /\ forall tid, tid <> task_id task -> untouched E tid w w'.
Proof.
  intros Hh.
  destruct (mark_failure_counts task w Hh)
    as (w1 & m & Hmark & Hrec & Hnf & Hns & Hother & Ht).
  destruct Hh as ([r Hrow] & _).
  unfold reschedule_urgent, bind at 1. rewrite Hmark. unfold bind at 1, now.
  rewrite (reschedule_task_ok E _ _ _ _ r); [|apply Hrel|by cbn; rewrite Ht].
  eexists. split; [reflexivity|]. split.
  - unfold rescheduled_to. cbn [w_comments w_tasks logged set_tasks tick].
    rewrite (counter_stored _ _ "failures" _ _ Hrec Hnf).
    rewrite (counter_stored _ _ "successes" _ _ Hrec Hns).
    split; [done|]. split; [done|]. exists r. split; [done|].
    by rewrite lookup_insert_eq, date_of_combine_midnight, Hday.
  - intros tid Hne. destruct (Hother tid Hne) as [Hr Hrowt].
    split; cbn [w_comments w_tasks logged set_tasks tick]; [done|].
    by rewrite lookup_insert_ne.
Qed.

Lemma urgent_loop_all (tasks : list Task) (w : World) :
  NoDup (task_id <$> tasks) ->
  (forall t, t ∈ tasks -> healthy E w t) ->
  exists w',
    for_each tasks (reschedule_urgent E) w = Return w' tt
    /\ (forall tid, tid ∉ task_id <$> tasks -> untouched E tid w w')
    /\ forall t, t ∈ tasks -> rescheduled_to E w w' t today.
Proof.
  revert w. induction tasks as [|task tasks IH]; intros w Hnd Hh.
  { exists w. split; [done|]. split; [intros; apply untouched_refl|].
    intros t Ht. by apply elem_of_nil in Ht. }
  rewrite fmap_cons in Hnd. apply list.NoDup_cons in Hnd as [Hfresh Hnd].
  destruct (reschedule_urgent_all task w (Hh task ltac:(left)))
    as (w1 & Hrun & Hres & Hframe).
  assert (forall t, t ∈ tasks -> task_id t <> task_id task) as Hne.
  { intros t Ht Heq. apply Hfresh. rewrite <- Heq. by apply list_elem_of_fmap_2. }
  destruct (IH w1 Hnd) as (w' & Hloop & Hrest & Hall).
  { intros t Ht. apply (healthy_untouched t w); [by apply Hframe, Hne|].
    apply Hh. by right. }
  exists w'. cbn [for_each]. unfold bind. rewrite Hrun. split; [done|]. split.
  - intros tid Hnot. rewrite fmap_cons in Hnot.
    apply not_elem_of_cons in Hnot as [Hn1 Hn2].
    eapply untouched_trans; [by apply Hframe|by apply Hrest].
  - intros t Ht. apply elem_of_cons in Ht as [->|Ht].
    + apply (rescheduled_to_after _ w w1); [done|]. by apply Hrest.
    + apply (rescheduled_to_before _ w w1); [by apply Hframe, Hne|by apply Hall].
Qed.

Lemma collect_task_data_ok (tasks : list Task) (w : World) :
  NoDup (task_id <$> tasks) ->
  (forall t, t ∈ tasks -> healthy E w t) ->
  exists w' task_data,
    collect_task_data E tasks w = Return w' task_data
    /\ w_tasks w' = w_tasks w
    /\ (forall tid, tid ∉ task_id <$> tasks -> untouched E tid w w')
    /\ td_task <$> task_data = tasks
    /\ (forall data, data ∈ task_data ->
          td_failures data
          = counter E (w_comments w) (task_id (td_task data)) "failures" + 1
          /\ td_delay_hours data = calculate_delay_hours (td_failures data))
    /\ forall t, t ∈ tasks ->
         counter E (w_comments w') (task_id t) "failures"
         = counter E (w_comments w) (task_id t) "failures" + 1
         /\ counter E (w_comments w') (task_id t) "successes"
            = counter E (w_comments w) (task_id t) "successes".
Proof.
  revert w. induction tasks as [|task tasks IH]; intros w Hnd Hh.
  { exists w, []. split; [done|]. split; [done|].
    split; [intros; apply untouched_refl|]. split; [done|].
    split; intros x Hx; by apply elem_of_nil in Hx. }
  rewrite fmap_cons in Hnd. apply list.NoDup_cons in Hnd as [Hfresh Hnd].
  pose proof (Hh task ltac:(left)) as Hhead.
  destruct (mark_failure_counts task w Hhead)
    as (w1 & m & Hmark & Hrec & Hnf & Hns & Hother & Ht1).
  destruct Hhead as (_ & _ & _ & Hpos & Hpos' & _ & Hbound).
  destruct (true_divide_defined
              (counter E (w_comments w) (task_id task) "successes" + 1)
              (counter E (w_comments w) (task_id task) "failures" + 1 + 1))
    as (q & Hdiv & _); [lia..|].
  destruct (get_success_ratio_ok E Hrel task w1 m _ _ q Hrec Hns Hnf)
    as (w2 & Hratio & Hc2 & Ht2 & _); [lia|done|].
  assert (forall tid, tid <> task_id task -> untouched E tid w w2) as Hframe.
  { intros tid Hne. eapply untouched_trans; [by apply Hother|].
    by apply untouched_same. }
  assert (forall t, t ∈ tasks -> task_id t <> task_id task) as Hne.
  { intros t Ht Heq. apply Hfresh. rewrite <- Heq. by apply list_elem_of_fmap_2. }
  destruct (IH w2 Hnd) as (w' & task_data & Hrun & Ht' & Hrest & Hfmap & Hdata & Hall).
  { intros t Ht. apply (healthy_untouched t w); [by apply Hframe, Hne|].
    apply Hh. by right. }
  eexists w', (_ :: task_data). split.
  { cbn [collect_task_data]. unfold bind at 1. rewrite Hmark.
    unfold bind at 1. rewrite Hratio. unfold bind at 1. rewrite Hrun. done. }
  split; [by rewrite Ht', Ht2, Ht1|]. split.
  { intros tid Hnot. rewrite fmap_cons in Hnot.
    apply not_elem_of_cons in Hnot as [Hn1 Hn2].
    eapply untouched_trans; [by apply Hframe|by apply Hrest]. }
  split; [by rewrite fmap_cons, Hfmap|]. split.
  - intros data Hin. apply elem_of_cons in Hin as [->|Hin]; [done|].
    destruct (Hdata data Hin) as [Hfail Hdelay]. split; [|done].
    rewrite Hfail. f_equal. apply counter_untouched, Hframe, Hne.
    rewrite <- Hfmap. by apply list_elem_of_fmap_2.
  - intros t Ht. apply elem_of_cons in Ht as [->|Ht].
    + rewrite !(counter_untouched E _ _ w2 w' (Hrest _ Hfresh)).
      unfold counter. rewrite Hc2, Hrec, Hnf, Hns. done.
    + destruct (Hall t Ht) as [-> ->].
      by rewrite !(counter_untouched E _ _ w w2 (Hframe _ (Hne t Ht))).
Qed.

Lemma reschedule_regular_ok (tasks : list Task) (w : World) :
  NoDup (task_id <$> tasks) ->
  (forall t, t ∈ tasks -> healthy E w t) ->
  exists w',
    reschedule_regular E tasks w = Return w' tt
    /\ (forall tid, tid ∉ task_id <$> tasks -> untouched E tid w w')
    /\ forall t, t ∈ tasks ->
         exists offset,
           rescheduled_to E w w' t (today + offset)
           /\ Z.min (2 ^ counter E (w_comments w) (task_id t) "failures") 7 <= offset
           /\ 1 <= offset <= Z.max 7 (Z.of_nat (length tasks) - 1).
Proof.
  intros Hnd Hh.
  destruct (collect_task_data_ok tasks w Hnd Hh)
    as (w1 & task_data & Hcollect & Ht1 & _ & Hfmap & Hdata & Hcount).
  set (ids := fun data => task_id (td_task data)).
  assert (ids <$> task_data = task_id <$> tasks) as Hids.
  { rewrite <- Hfmap, <- list_fmap_compose. done. }
  assert (forall data, data ∈ sort_by_success_ratio task_data -> td_task data ∈ tasks)
    as Hmem.
  { intros data Hin. apply elem_of_sort_by_success_ratio in Hin.
    rewrite <- Hfmap. by apply list_elem_of_fmap_2. }
  destruct (spread_assigns E today (sort_by_success_ratio task_data) 0 (tick w1) Hrel)
    as (w' & Hspread & Hc' & _ & Hmine).
  { fold ids. rewrite sort_by_success_ratio_fmap, Hids. done. }
  { intros data Hin. cbn [w_tasks tick]. rewrite Ht1. apply Hh, Hmem, Hin. }
  assert (reschedule_regular E tasks w = Return w' tt) as Hrun.
  { unfold reschedule_regular, bind at 1. rewrite Hcollect.
    unfold bind at 1, now. by rewrite Hday. }
  exists w'. split; [exact Hrun|]. split.
  { intros tid Hnot.
    pose proof (leaves_reschedule_regular E (reliable_lookup E Hrel) Hrt tid tasks) as Hl.
    specialize (Hl ltac:(intros t Ht ->; apply Hnot; by apply list_elem_of_fmap_2) w).
    by rewrite Hrun in Hl. }
  intros t Ht.
  assert (exists data, data ∈ sort_by_success_ratio task_data /\ td_task data = t)
    as (data & Hin & <-).
  { rewrite <- Hfmap in Ht. apply list_elem_of_fmap in Ht as (data & -> & Hin).
    exists data. split; [|done].
    pose proof (sort_by_success_ratio_fmap id task_data) as Hperm.
    rewrite !list_fmap_id in Hperm. by rewrite Hperm. }
  apply list_elem_of_lookup_1 in Hin as [k Hk].
  destruct (Hmine k data Hk) as (r & Hr & Hr').
  assert (k < length tasks)%nat as Hlen.
  { apply lookup_lt_Some in Hk.
    pose proof (sort_by_success_ratio_fmap id task_data) as Hperm.
    rewrite !list_fmap_id in Hperm. rewrite Hperm in Hk.
    by rewrite <- Hfmap, length_fmap. }
  destruct (Hdata data) as [Hfail Hdelay].
  { eapply elem_of_sort_by_success_ratio, list_elem_of_lookup_2, Hk. }
  destruct (Hh (td_task data)) as (_ & _ & _ & Hpos & _);
    [by eapply Hmem, list_elem_of_lookup_2|].
  destruct (min_delay_days_value (td_failures data)) as [Hdays Hone]; [lia|].
  exists (actual_delay_days (0 + k) data). split; [|split].
  - destruct (Hcount (td_task data)) as [Hf Hs]; [by eapply Hmem, list_elem_of_lookup_2|].
    unfold rescheduled_to. rewrite Hc'. cbn [w_comments tick].
    split; [done|]. split; [done|].
    exists r. cbn [w_tasks tick] in Hr. rewrite Ht1 in Hr. split; [done|].
    by rewrite Hr', Hfail.
  - unfold actual_delay_days, min_delay_days. rewrite Hdelay, Hdays, Hfail.
    replace (counter E (w_comments w) (task_id (td_task data)) "failures" + 1 - 1)
      with (counter E (w_comments w) (task_id (td_task data)) "failures") by lia.
    lia.
  - unfold actual_delay_days, min_delay_days. rewrite Hdelay, Hdays. lia.
Qed.

End Healthy.

(** X17: a pass over a healthy batch goes through.  When no request
    fails, the text round-trips and the run stays within one day, for a
    batch of tasks with distinct ids that all have a row and
    incrementable, non-negative counters that stay below [2 ** 1023]
    when incremented, [batch_reschedule_overdue] returns, and for every task of the batch the stored [failures] is one
    higher, [successes] is unchanged, and the row has the content written
    for the new count and a new due date: today for a task of priority 3
    or more; for the others a day that is at least [min(2 ** failures, 7)]
    days and at least one day after today, and at most
    [max(7, len(tasks) - 1)] days after today. *)
Theorem healthy_batch_reschedules_all (E : Env) (tasks : list Task) (w : World)
    (today : Z) :
  reliable E -> round_trips E -> same_day E today ->
  NoDup (task_id <$> tasks) ->
  (forall t, t ∈ tasks -> healthy E w t) ->
  exists w',
    batch_reschedule_overdue E tasks w = Return w' tt
    /\ forall task, task ∈ tasks ->
         exists offset,
           rescheduled_to E w w' task (today + offset)
           /\ (3 <= task_priority task -> offset = 0)
           /\ (task_priority task < 3 ->
               Z.min (2 ^ counter E (w_comments w) (task_id task) "failures") 7
               <= offset
               /\ 1 <= offset <= Z.max 7 (Z.of_nat (length tasks) - 1)).
Proof.
  intros Hrel Hrt Hday Hnd Hh.
  set (urgent := filter (fun t => 3 <= task_priority t) tasks).
  set (regular := filter (fun t => task_priority t < 3) tasks).
  assert (batch_reschedule_overdue E tasks
          = (run! for_each urgent (reschedule_urgent E) in
             match regular with
             | [] => ret tt
             | _ => reschedule_regular E regular
             end)) as ->.
  { by destruct tasks. }
  assert (NoDup (task_id <$> urgent)) as Hndu.
  { eapply sublist_NoDup; [exact Hnd|]. apply fmap_sublist, sublist_filter. }
  assert (NoDup (task_id <$> regular)) as Hndr.
  { eapply sublist_NoDup; [exact Hnd|]. apply fmap_sublist, sublist_filter. }
  assert (forall t, t ∈ urgent <-> 3 <= task_priority t /\ t ∈ tasks) as Hurgent.
  { intros t. apply (list_elem_of_filter (fun t => 3 <= task_priority t)). }
  assert (forall t, t ∈ regular <-> task_priority t < 3 /\ t ∈ tasks) as Hregular.
  { intros t. apply (list_elem_of_filter (fun t => task_priority t < 3)). }
  assert (forall t, t ∈ regular -> task_id t ∉ task_id <$> urgent) as Hru.
  { intros t Ht Hmem. apply list_elem_of_fmap in Hmem as (u & Heq & Hu).
    apply Hregular in Ht as [Hlow Ht]. apply Hurgent in Hu as [Hhigh Hu].
    assert (t = u) as -> by (by eapply (fmap_inj_NoDup task_id tasks)). lia. }
  assert (forall t, t ∈ urgent -> task_id t ∉ task_id <$> regular) as Hur.
  { intros t Ht Hmem. apply list_elem_of_fmap in Hmem as (u & Heq & Hu).
    apply Hurgent in Ht as [Hhigh Ht]. apply Hregular in Hu as [Hlow Hu].
    assert (t = u) as -> by (by eapply (fmap_inj_NoDup task_id tasks)). lia. }
  destruct (urgent_loop_all E Hrel Hrt today Hday urgent w Hndu)
    as (w1 & Hloop & Hframe1 & Hdone1).
  { intros t Ht. apply Hh, Hurgent, Ht. }
  assert (forall t, t ∈ regular -> healthy E w1 t) as Hh1.
  { intros t Ht. apply (healthy_untouched E t w); [by apply Hframe1, Hru|].
    apply Hh, Hregular, Ht. }
  assert ((length regular <= length tasks)%nat) as Hlen by apply length_filter.
  unfold bind at 1. rewrite Hloop.
  destruct regular as [|t0 ts] eqn:Hreg.
  - exists w1. split; [done|]. intros task Hin.
    destruct (decide (3 <= task_priority task)) as [Hhigh|Hlow].
    + exists 0. rewrite Z.add_0_r. split; [by apply Hdone1, Hurgent|].
      split; [done|lia].
    + assert (task ∈ []) as Hnil by (apply Hregular; split; [lia|done]).
      by apply elem_of_nil in Hnil.
  - rewrite <- Hreg in *.
    destruct (reschedule_regular_ok E Hrel Hrt today Hday regular w1 Hndr Hh1)
      as (w' & Hrun & Hframe2 & Hdone2).
    exists w'. split; [exact Hrun|]. intros task Hin.
    destruct (decide (3 <= task_priority task)) as [Hhigh|Hlow].
    + exists 0. rewrite Z.add_0_r. split; [|split; [done|lia]].
      assert (task ∈ urgent) as Hu by (by apply Hurgent).
      apply (rescheduled_to_after E task w w1); [by apply Hdone1|].
      by apply Hframe2, Hur.
    + assert (task ∈ regular) as Hr by (apply Hregular; split; [lia|done]).
      destruct (Hdone2 task Hr) as (offset & Hres & Hmin & Hrange).
      pose proof (Hframe1 _ (Hru task Hr)) as Hu.
      exists offset. split; [by apply (rescheduled_to_before E task w w1)|].
      split; [lia|]. intros _.
      rewrite (counter_untouched E _ _ w w1 Hu) in Hmin. lia.
Qed.

Lemma healthy_batch_reschedules_all_witness :
  exists w',
    batch_reschedule_overdue (ref_env no_fault) urgent_batch urgent_world = Return w' tt
    /\ counter (ref_env no_fault) (w_comments w') "A" "failures" = 3
    /\ counter (ref_env no_fault) (w_comments w') "B" "failures" = 1
    /\ row_due <$> (w_tasks w' !! "A") = Some (Some 20000).
Proof.
  assert (NoDup (task_id <$> urgent_batch)) as Hnd.
  { apply NoDup_cons_2; [|apply NoDup_singleton].
    intros Hin. apply list_elem_of_singleton in Hin. discriminate. }
  destruct (healthy_batch_reschedules_all (ref_env no_fault) urgent_batch urgent_world
              20000 no_fault_reliable (ref_env_round_trips no_fault)
              (ref_env_same_day no_fault) Hnd)
    as (w' & Hrun & Hall).
  { intros t Ht. apply elem_of_cons in Ht as [->|Ht];
      [|apply list_elem_of_singleton in Ht as ->].
    - split; [by eexists|]. split; [done|]. split; [done|].
      vm_compute. split; [discriminate|]. split; [discriminate|]. by split.
    - split; [by eexists|]. split; [vm_compute; by eexists|].
      split; [vm_compute; by eexists|].
      vm_compute. split; [discriminate|]. split; [discriminate|]. by split. }
  exists w'. split; [exact Hrun|].
  destruct (Hall urgent_task ltac:(right; left)) as (oa & (Hfa & _ & ra & Hra & Hra') & Hzero & _).
  destruct (Hall (example_task "B" "Call bank" 1) ltac:(left)) as (ob & (Hfb & _) & _).
  specialize (Hzero ltac:(vm_compute; discriminate)). subst oa.
  split; [|split].
  - change (task_id urgent_task) with "A" in Hfa. rewrite Hfa. vm_compute. reflexivity.
  - change (task_id (example_task "B" "Call bank" 1)) with "B" in Hfb.
    rewrite Hfb. vm_compute. reflexivity.
  - change (task_id urgent_task) with "A" in Hra'. rewrite Hra'. reflexivity.
Defined.
